(** * excel-to-word-sharepoint: the document-templating engine

    A shallow embedding of [create_word_from_template] (sharepoint_utils.py)
    and of the per-row pipeline of [main] (main.py), with the properties the
    specification states about them.

    Text.  A Python [str] is modelled as a list of 8-bit characters read as
    the code points U+0000..U+00FF (Latin-1): the column names and cell values
    of the spreadsheet are French text.  Where the code leaves that range
    (the NFKD decomposition inside [normalize_string]) code points are
    numbers.  The tables below ([str_lower], [isspace], [nfkd_char]) are the
    Latin-1 part of the Unicode tables behind [str.lower], [str.isspace] and
    [unicodedata.normalize]. *)

From Stdlib Require Import Ascii String.
From stdpp Require Import base decidable option list gmap strings pretty.

Open Scope list_scope.

(** ** Python text primitives *)

Definition text := list ascii.

Definition tx (s : string) : text := list_ascii_of_string s.

Definition code (c : ascii) : N := N_of_ascii c.

Definition chr (n : N) : ascii := ascii_of_N n.

Definition in_range (lo hi : N) (c : ascii) : bool :=
  (lo <=? code c)%N && (code c <=? hi)%N.

(** [str.isspace] on one character, which [str.split()] and the regular
    expression class [\s] use: TAB LF VT FF CR, FS GS RS US, SPACE, NEL and
    NO-BREAK SPACE. *)
Definition isspace (c : ascii) : bool :=
  in_range 9 13 c || in_range 28 31 c || (code c =? 32)%N
  || (code c =? 133)%N || (code c =? 160)%N.

(** The class [\d] of a [str] pattern: the decimal digits, which below
    U+0100 are 0..9 only. *)
Definition isdigit (c : ascii) : bool := in_range 48 57 c.

Definition lower_char (c : ascii) : ascii :=
  if in_range 65 90 c then chr (code c + 32)
  else if in_range 192 222 c && negb (code c =? 215)%N then chr (code c + 32)
  else c.

(** [str.lower()] *)
Definition str_lower (s : text) : text := map lower_char s.

(** [text.replace(old, new)] for one-character [old] and [new]. *)
Definition replace_char (old new : ascii) (s : text) : text :=
  map (fun c => if ascii_dec c old then new else c) s.

(** [text.split()]: the maximal runs of characters that are not white space. *)
Fixpoint str_split (s : text) : list text :=
  match s with
  | [] => []
  | c :: s' =>
      if isspace c then str_split s'
      else match s' with
           | [] => [[c]]
           | d :: _ =>
               if isspace d then [c] :: str_split s'
               else match str_split s' with
                    | w :: ws => (c :: w) :: ws
                    | [] => [[c]]
                    end
           end
  end.

(** [sep.join(parts)] *)
Fixpoint str_join (sep : text) (parts : list text) : text :=
  match parts with
  | [] => []
  | [w] => w
  | w :: ws => w ++ sep ++ str_join sep ws
  end.

(** [string.punctuation] *)
Definition punctuation : text :=
  tx "!" ++ [chr 34] ++ tx "#$%&'()*+,-./:;<=>?@[\]^_`{|}~".

(** ** Python values that reach the engine as column labels

    A column label of the row is a [str], or what pandas makes of a header
    cell that is not text (an integer), or [None]. *)
Inductive pyval : Type :=
  | PyStr (s : text)
  | PyInt (z : Z)
  | PyNone.

Global Instance pyval_eq_dec : EqDecision pyval.
Proof. solve_decision. Defined.

(** [str(v)] *)
Definition py_str (v : pyval) : text :=
  match v with
  | PyStr s => s
  | PyInt z => tx (pretty z)
  | PyNone => tx "None"
  end.

(** ** Key normalizer: [normalize_string] *)

Module Normalizer.

(** [unicodedata.normalize('NFKD', c)] for a character of the Latin-1 range:
    the code points of its compatibility decomposition.  The accents are the
    combining marks U+0300.. ; U+00B5 becomes U+03BC and the vulgar fractions
    carry U+2044. *)
Definition nfkd_char (c : ascii) : list N :=
  let n := code c in
  let base (b m : N) := [b; m] in
  match n with
  | 160 => [32] | 168 => [32; 776] | 170 => [97] | 175 => [32; 772]
  | 178 => [50] | 179 => [51] | 180 => [32; 769] | 181 => [956]
  | 184 => [32; 807] | 185 => [49] | 186 => [111]
  | 188 => [49; 8260; 52] | 189 => [49; 8260; 50] | 190 => [51; 8260; 52]
  | 192 => base 65 768 | 193 => base 65 769 | 194 => base 65 770
  | 195 => base 65 771 | 196 => base 65 776 | 197 => base 65 778
  | 199 => base 67 807
  | 200 => base 69 768 | 201 => base 69 769 | 202 => base 69 770
  | 203 => base 69 776
  | 204 => base 73 768 | 205 => base 73 769 | 206 => base 73 770
  | 207 => base 73 776
  | 209 => base 78 771
  | 210 => base 79 768 | 211 => base 79 769 | 212 => base 79 770
  | 213 => base 79 771 | 214 => base 79 776
  | 217 => base 85 768 | 218 => base 85 769 | 219 => base 85 770
  | 220 => base 85 776 | 221 => base 89 769
  | 224 => base 97 768 | 225 => base 97 769 | 226 => base 97 770
  | 227 => base 97 771 | 228 => base 97 776 | 229 => base 97 778
  | 231 => base 99 807
  | 232 => base 101 768 | 233 => base 101 769 | 234 => base 101 770
  | 235 => base 101 776
  | 236 => base 105 768 | 237 => base 105 769 | 238 => base 105 770
  | 239 => base 105 776
  | 241 => base 110 771
  | 242 => base 111 768 | 243 => base 111 769 | 244 => base 111 770
  | 245 => base 111 771 | 246 => base 111 776
  | 249 => base 117 768 | 250 => base 117 769 | 251 => base 117 770
  | 252 => base 117 776 | 253 => base 121 769 | 255 => base 121 776
  | _ => [n]
  end%N.

(** [unicodedata.normalize('NFKD', text)] *)
Definition nfkd (s : text) : list N := flat_map nfkd_char s.

(** [.encode('ASCII', 'ignore').decode('ASCII')]: the code points that are
    not ASCII are left out. *)
Definition encode_ascii_ignore (u : list N) : text :=
  map chr (filter (fun n => (n < 128)%N) u).

(** The [for char in string.punctuation] loop. *)
Definition replace_punctuation (s : text) : text :=
  fold_left (fun t char => replace_char char " "%char t) punctuation s.

Definition normalize_string (v : pyval) : text :=
  match v with
  | PyStr s =>
      let s := encode_ascii_ignore (nfkd s) in
      let s := str_lower s in
      let s := replace_punctuation s in
      str_join (tx " ") (str_split s)
  | _ => str_lower (py_str v)
  end.

End Normalizer.

(** ** The steps of the normalizer, as the specification words them

    Stated over any character type so that they read the same on bytes and
    on code points: [spacep] tells white space, [sp] is the space. *)

Section Steps.
Context {A : Type} (spacep : A -> bool) (sp : A).

  (** Every maximal run of white space becomes one space. *)
Fixpoint collapse_ws (s : list A) : list A :=
    match s with
    | [] => []
    | c :: s' =>
        if spacep c then
          match s' with
          | [] => [sp]
          | d :: _ => if spacep d then collapse_ws s' else sp :: collapse_ws s'
          end
        else c :: collapse_ws s'
    end.

Fixpoint lstrip (s : list A) : list A :=
    match s with
    | [] => []
    | c :: s' => if spacep c then lstrip s' else s
    end.

Definition rstrip (s : list A) : list A :=
    fold_right
      (fun c acc =>
         match acc with
         | [] => if spacep c then [] else [c]
         | _ => c :: acc
         end) [] s.

  (** [trim]: no white space left at either end. *)
Definition trim (s : list A) : list A := rstrip (lstrip s).

  (** Every character the predicate [p] holds of becomes one space. *)
Definition to_space (p : A -> bool) (s : list A) : list A :=
    map (fun c => if p c then sp else c) s.
End Steps.

Definition ispunct (c : ascii) : bool :=
  bool_decide (c ∈ punctuation).

(** The pipeline of the specification read on code points: coerce, decompose
    and drop the combining marks, lower-case, punctuation to space, collapse,
    trim. *)
Module Stated.
  Import Normalizer.

  (** The combining diacritical marks (U+0300..U+036F). *)
Definition combining (n : N) : bool := (768 <=? n)%N && (n <=? 879)%N.

Definition on_latin1 (f : ascii -> ascii) (n : N) : N :=
    if (n <? 256)%N then code (f (chr n)) else n.

Definition test_latin1 (p : ascii -> bool) (n : N) : bool :=
    (n <? 256)%N && p (chr n).

Definition strip_diacritics (s : text) : list N :=
    filter (fun n => negb (combining n)) (nfkd s).

Definition normalize (v : pyval) : list N :=
    let u := strip_diacritics (py_str v) in
    let u := map (on_latin1 lower_char) u in
    let u := to_space 32%N (test_latin1 ispunct) u in
    trim (test_latin1 isspace) (collapse_ws (test_latin1 isspace) 32%N u).
End Stated.


(** ** Value formatter: [format_date] *)

Module Formatter.

(** *** The pattern [^\d{4}-\d{2}-\d{2}\s\d{2}:\d{2}:\d{2}$]

    Every atom of the pattern takes exactly one character, so the pattern is
    a list of character classes between the anchors. *)
Inductive cls : Type :=
  | Digit           (* \d *)
  | Space           (* \s *)
  | Lit (c : ascii).

Definition cls_match (k : cls) (c : ascii) : bool :=
  match k with
  | Digit => isdigit c
  | Space => isspace c
  | Lit l => bool_decide (c = l)
  end.

Definition date_pattern : list cls :=
  [Digit; Digit; Digit; Digit; Lit "-"; Digit; Digit; Lit "-"; Digit; Digit;
   Space; Digit; Digit; Lit ":"; Digit; Digit; Lit ":"; Digit; Digit].

(** [re.match('^' + pat + '$', s)]: [$] holds at the end of the string and
    just before a line feed that ends it. *)
Fixpoint re_match (pat : list cls) (s : text) : bool :=
  match pat with
  | [] =>
      match s with
      | [] => true
      | [c] => bool_decide (c = chr 10)
      | _ => false
      end
  | k :: pat' =>
      match s with
      | [] => false
      | c :: s' => cls_match k c && re_match pat' s'
      end
  end.

(** *** [datetime.strptime(value, '%Y-%m-%d %H:%M:%S')]

    The library turns the format into the regular expression
    [(\d\d\d\d)-(1[0-2]|0[1-9]|[1-9])-(3[0-1]|[1-2]\d|0[1-9]|[1-9]| [1-9])\s+
     (2[0-3]|[0-1]\d|\d):([0-5]\d|\d):(6[0-1]|[0-5]\d|\d)],
    takes its first match from the start of the string, refuses a string the
    match does not use up, and builds the [datetime] from the numbers read.
    The expression is written here with parsers that list their matches in
    the order a backtracking matcher tries them. *)
Definition parser (A : Type) : Type := text -> list (A * text).

Definition ret {A : Type} (a : A) : parser A := fun s => [(a, s)].

Definition bind {A B : Type} (p : parser A) (k : A -> parser B) : parser B :=
  fun s => flat_map (fun ar => k (fst ar) (snd ar)) (p s).

Definition alt {A : Type} (p q : parser A) : parser A :=
  fun s => p s ++ q s.

Definition digit_value (c : ascii) : N := (code c - 48)%N.

(** One digit of the range [lo-hi], read as a number. *)
Definition one (lo hi : N) : parser N :=
  fun s =>
    match s with
    | c :: s' => if in_range (48 + lo) (48 + hi) c then [(digit_value c, s')] else []
    | [] => []
    end.

Definition lit (l : ascii) : parser unit :=
  fun s =>
    match s with
    | c :: s' => if bool_decide (c = l) then [(tt, s')] else []
    | [] => []
    end.

(** Two digits, read as one number. *)
Definition two (p q : parser N) : parser N :=
  bind p (fun a => bind q (fun b => ret (10 * a + b)%N)).

(** The remainders [\s*] can leave, the longest match first. *)
Fixpoint spaces (s : text) : list text :=
  match s with
  | c :: s' => if isspace c then spaces s' ++ [s] else [s]
  | [] => [[]]
  end.

(** [\s+] *)
Definition spaces1 : parser unit :=
  fun s =>
    match s with
    | c :: s' => if isspace c then map (pair tt) (spaces s') else []
    | [] => []
    end.

Definition re_Y : parser N :=
  bind (one 0 9) (fun a => bind (one 0 9) (fun b => bind (one 0 9) (fun c =>
  bind (one 0 9) (fun d => ret (1000 * a + 100 * b + 10 * c + d)%N)))).

Definition re_m : parser N :=
  alt (two (one 1 1) (one 0 2)) (alt (two (one 0 0) (one 1 9)) (one 1 9)).

Definition re_d : parser N :=
  alt (two (one 3 3) (one 0 1))
    (alt (two (one 1 2) (one 0 9))
       (alt (two (one 0 0) (one 1 9))
          (alt (one 1 9) (bind (lit " ") (fun _ => one 1 9))))).

Definition re_H : parser N :=
  alt (two (one 2 2) (one 0 3)) (alt (two (one 0 1) (one 0 9)) (one 0 9)).

Definition re_M : parser N :=
  alt (two (one 0 5) (one 0 9)) (one 0 9).

Definition re_S : parser N :=
  alt (two (one 6 6) (one 0 1)) (alt (two (one 0 5) (one 0 9)) (one 0 9)).

Record datetime : Type := Datetime {
  year : N; month : N; day : N;
  hour : N; minute : N; second : N
}.

Definition format_regex : parser datetime :=
  bind re_Y (fun y => bind (lit "-") (fun _ =>
  bind re_m (fun m => bind (lit "-") (fun _ =>
  bind re_d (fun d => bind spaces1 (fun _ =>
  bind re_H (fun H => bind (lit ":") (fun _ =>
  bind re_M (fun M => bind (lit ":") (fun _ =>
  bind re_S (fun S => ret (Datetime y m d H M S)))))))))))).

Definition is_leap (y : N) : bool :=
  ((y mod 4 =? 0) && (negb (y mod 100 =? 0) || (y mod 400 =? 0)))%N.

Definition days_in_month (y m : N) : N :=
  if (m =? 2)%N then (if is_leap y then 29 else 28)%N
  else if ((m =? 4) || (m =? 6) || (m =? 9) || (m =? 11))%N then 30%N
  else 31%N.

(** The checks of the [datetime] constructor. *)
Definition datetime_ok (t : datetime) : bool :=
  ((1 <=? year t) && (year t <=? 9999)
   && (1 <=? month t) && (month t <=? 12)
   && (1 <=? day t) && (day t <=? days_in_month (year t) (month t))
   && (hour t <=? 23) && (minute t <=? 59) && (second t <=? 59))%N.

(** [None] stands for the [ValueError] the library raises. *)
Definition strptime (s : text) : option datetime :=
  match format_regex s with
  | (t, []) :: _ => if datetime_ok t then Some t else None
  | _ => None
  end.

(** *** [date_obj.strftime('%d-%m-%Y')]

    [%d] and [%m] are two digits.  [%Y] is four digits from the year 1000
    on; an earlier year is zero-filled by some C libraries and not by others
    (glibc prints 5 for the year 5), which [pad_year] tells. *)
Definition digit_char (k : N) : ascii := chr (48 + k).

Definition dec2 (n : N) : text :=
  [digit_char (n / 10 mod 10); digit_char (n mod 10)]%N.

Definition dec4 (n : N) : text :=
  [digit_char (n / 1000 mod 10); digit_char (n / 100 mod 10);
   digit_char (n / 10 mod 10); digit_char (n mod 10)]%N.

(** The number without its leading zeros. *)
Fixpoint unpadded (s : text) : text :=
  match s with
  | c :: (_ :: _) as s' => if bool_decide (c = "0"%char) then unpadded s' else s
  | _ => s
  end.

Definition strftime (pad_year : bool) (t : datetime) : text :=
  dec2 (day t) ++ tx "-" ++ dec2 (month t) ++ tx "-"
  ++ (if pad_year then dec4 (year t) else unpadded (dec4 (year t))).

(** [format_date]: the value is a [str] already ([dtype=str], then
    [fillna('')]), and a failing conversion is logged and gives the value
    back. *)
Definition format_date (pad_year : bool) (value : text) : text :=
  if re_match date_pattern value then
    match strptime value with
    | Some date_obj => strftime pad_year date_obj
    | None => value
    end
  else value.

End Formatter.

(** *** The formatter as the specification words it *)

Module StatedDate.
Import Formatter.

Definition num2 (a b : ascii) : N := (10 * digit_value a + digit_value b)%N.




End StatedDate.

(** ** Rows and the normalized key table *)

(** One line of the spreadsheet as [main] hands it over: the column labels
    with their values, in column order; every value is a [str]
    ([dtype=str], then [fillna('')]). *)
Definition row : Type := list (pyval * text).

(** [data_row.index] *)
Definition row_index (data_row : row) : list pyval := map fst data_row.

(** [data_row[key]]; [None] stands for the [KeyError] of a missing label.
    pandas makes the labels of a sheet distinct. *)
Fixpoint row_get (data_row : row) (key : pyval) : option text :=
  match data_row with
  | [] => None
  | (k, v) :: rest => if decide (k = key) then Some v else row_get rest key
  end.

(** The dictionary [normalized_keys], filled in column order. *)
Definition normalized_keys (data_row : row) : gmap text pyval :=
  foldl (fun table key => <[Normalizer.normalize_string key := key]> table)
    ∅ (row_index data_row).

(** ** Outcomes: a result, an exception, or a loop still running *)

Inductive outcome (A : Type) : Type :=
  | Returned (a : A)     (* normal completion *)
  | Raised (a : A)       (* an exception left the code; [a] is the state it leaves *)
  | Unfinished.          (* the fuel ran out before the loop ended *)
Arguments Returned {A} a.
Arguments Raised {A} a.
Arguments Unfinished {A}.

(** ** Text of the document: lxml elements and python-docx runs *)

Module Docx.

(** lxml takes a text that is XML compatible and raises [ValueError] on a
    NULL byte or another control character. *)
Definition xml_char (c : ascii) : bool :=
  (32 <=? code c)%N || (code c =? 9)%N || (code c =? 10)%N || (code c =? 13)%N.

(** [text_elem.text = value] on an lxml element: the text it holds
    afterwards, or [None] for the [ValueError]. *)
Definition element_set_text (value : text) : option text :=
  if forallb xml_char value then Some value else None.

(** [run.text = value] in python-docx clears the run and appends the text
    piece by piece: a tab becomes a tab element, a line feed or carriage
    return a break element, and the characters between them one text
    element, which lxml may refuse.  [content] is what [run.text] reads back
    from the elements appended so far (a break reads as a line feed), [bfr]
    the characters waiting for the next text element. *)
Definition flush (content bfr : text) : option text :=
  match bfr with
  | [] => Some content
  | _ => if forallb xml_char bfr then Some (content ++ bfr) else None
  end.

Fixpoint append_to_run (content bfr s : text) : outcome text :=
  match s with
  | [] =>
      match flush content bfr with
      | Some c => Returned c
      | None => Raised content
      end
  | char :: s' =>
      if bool_decide (char = chr 9) then
        match flush content bfr with
        | Some c => append_to_run (c ++ [chr 9]) [] s'
        | None => Raised content
        end
      else if bool_decide (char = chr 13) || bool_decide (char = chr 10) then
        match flush content bfr with
        | Some c => append_to_run (c ++ [chr 10]) [] s'
        | None => Raised content
        end
      else append_to_run content (bfr ++ [char]) s'
  end.

Definition run_set_text (value : text) : outcome text :=
  append_to_run [] [] value.

End Docx.

(** ** Placeholder merger: [process_run] *)

Module Placeholder.
Import Docx.

(** [s.startswith(p)] *)
Fixpoint is_prefix (p s : text) : bool :=
  match p, s with
  | [], _ => true
  | _ :: _, [] => false
  | a :: p', c :: s' => bool_decide (a = c) && is_prefix p' s'
  end.

(** [p in s] *)
Fixpoint str_in (p s : text) : bool :=
  is_prefix p s
  || match s with
     | [] => false
     | _ :: s' => str_in p s'
     end.

(** [s.split(sep, 1)] for a separator that is not empty: the text before
    and the text after the first occurrence, or the text alone. *)
Fixpoint str_split1 (sep s : text) : list text :=
  if is_prefix sep s then [[]; drop (length sep) s]
  else match s with
       | [] => [[]]
       | c :: s' =>
           match str_split1 sep s' with
           | [before; after] => [c :: before; after]
           | _ => [s]
           end
       end.

(** [f"${{{key}}}"] *)
Definition placeholder_of (key : pyval) : text :=
  tx "${" ++ py_str key ++ tx "}".

(** The [while placeholder in run.text] loop for one key.  The counter
    [tag_counters[key]] is written and never read; it is left out. *)
Fixpoint while_placeholder (fuel : nat) (pad_year : bool) (data_row : row)
    (key : pyval) (run_text : text) : outcome text :=
  match fuel with
  | 0 => Unfinished
  | S fuel' =>
      let placeholder := placeholder_of key in
      if str_in placeholder run_text then
        match row_get data_row key with
        | None => Raised run_text
        | Some cell =>
            let value := Formatter.format_date pad_year cell in
            let parts := str_split1 placeholder run_text in
            let new_text :=
              if 1 <? length parts
              then nth 0 parts [] ++ value ++ nth 1 parts []
              else nth 0 parts [] in
            match run_set_text new_text with
            | Returned t => while_placeholder fuel' pad_year data_row key t
            | Raised t => Raised t
            | Unfinished => Unfinished
            end
        end
      else Returned run_text
  end.

(** The [for key in data_row.index] loop of [process_run]. *)
Fixpoint for_keys (fuel : nat) (pad_year : bool) (data_row : row)
    (keys : list pyval) (run_text : text) : outcome text :=
  match keys with
  | [] => Returned run_text
  | key :: keys' =>
      match while_placeholder fuel pad_year data_row key run_text with
      | Returned t => for_keys fuel pad_year data_row keys' t
      | Raised t => Raised t
      | Unfinished => Unfinished
      end
  end.

Definition process_run (fuel : nat) (pad_year : bool) (data_row : row)
    (run_text : text) : outcome text :=
  for_keys fuel pad_year data_row (row_index data_row) run_text.

End Placeholder.

(** ** The document

    The element tree of the main part is held in document order: node [i]
    is followed by its descendants, [n_extent] of them, which is how the
    searches [.//w:sdt], [.//w:tag] and [.//w:t] read it.  Only the text of
    a node is ever written. *)

Module Xml.

Record node : Type := Node {
  n_tag : text;                       (* qualified name *)
  n_attrib : list (text * text);
  n_text : text;
  n_extent : nat                      (* number of descendants *)
}.

(** The tree as lxml builds it, and its layout in document order. *)
#[warnings="-register-all"] Inductive element : Type :=
  | Element (tag : text) (attrib : list (text * text)) (txt : text)
      (children : list element).

Fixpoint flatten (e : element) : list node :=
  match e with
  | Element tag attrib txt children =>
      let below := flat_map flatten children in
      Node tag attrib txt (length below) :: below
  end.

Definition ns_w : text :=
  tx "{http://schemas.openxmlformats.org/wordprocessingml/2006/main}".

(** The name [w:local] of the WordprocessingML namespace. *)
Definition w (local : string) : text := ns_w ++ tx local.

(** [elem.attrib[name]], when [name in elem.attrib]. *)
Fixpoint attrib_get (attrib : list (text * text)) (name : text) : option text :=
  match attrib with
  | [] => None
  | (k, v) :: rest => if decide (k = name) then Some v else attrib_get rest name
  end.

Definition has_tag (store : list node) (tag : text) (j : nat) : bool :=
  match store !! j with
  | Some n => bool_decide (n_tag n = tag)
  | None => false
  end.

(** [elem.findall('.//' + tag)]: the descendants of node [i] of that name,
    in document order. *)
Definition findall (store : list node) (i : nat) (tag : text) : list nat :=
  match store !! i with
  | Some n => List.filter (has_tag store tag) (seq (S i) (n_extent n))
  | None => []
  end.

(** [elem.find('.//' + tag)] *)
Definition find (store : list node) (i : nat) (tag : text) : option nat :=
  head (findall store i tag).

Definition with_text (value : text) (n : node) : node :=
  Node (n_tag n) (n_attrib n) value (n_extent n).

End Xml.

(** ** Form-field merger: the loop over the content controls *)

Module Fields.
Import Xml Docx.

(** The exception handlers of the engine catch an exception and go on with
    the state as it is. *)
Fixpoint for_each {S X : Type} (body : S -> X -> outcome S) (s : S) (xs : list X)
    : outcome S :=
  match xs with
  | [] => Returned s
  | x :: xs' =>
      match body s x with
      | Returned s' => for_each body s' xs'
      | Raised s' => Raised s'
      | Unfinished => Unfinished
      end
  end.

(** The body of [for sdt in root.findall('.//w:sdt', ns)]. *)
Definition fill_sdt (pad_year : bool) (data_row : row)
    (normalized_keys : gmap text pyval) (store : list node) (sdt : nat)
    : outcome (list node) :=
  match find store sdt (w "tag") with
  | None => Returned store
  | Some tag_elem =>
      match attrib_get (default [] (n_attrib <$> store !! tag_elem)) (w "val") with
      | None => Returned store
      | Some tag =>
          let normalized_tag := Normalizer.normalize_string (PyStr tag) in
          match normalized_keys !! normalized_tag with
          | None => Returned store
          | Some original_key =>
              match row_get data_row original_key with
              | None => Raised store
              | Some cell =>
                  let value := Formatter.format_date pad_year cell in
                  match findall store sdt (w "t") with
                  | [] => Returned store
                  | text_elem :: _ =>
                      match element_set_text value with
                      | Some v => Returned (alter (with_text v) text_elem store)
                      | None => Raised store
                      end
                  end
              end
          end
      end
  end.

(** Method 1 of the engine, inside its [try]. *)
Definition merge_form_fields (pad_year : bool) (data_row : row)
    (normalized_keys : gmap text pyval) (store : list node)
    : outcome (list node) :=
  for_each (fill_sdt pad_year data_row normalized_keys) store
    (findall store 0 (w "sdt")).

End Fields.

(** *** The form-field merge as the specification words it *)

Module StatedFields.
Import Xml.

(** What the text writes never change. *)
Definition shape (n : node) : text * list (text * text) * nat :=
  (n_tag n, n_attrib n, n_extent n).

(** The form fields of the document. *)
Definition form_fields (store : list node) : list nat :=
  findall store 0 (w "sdt").

Definition extent (store : list node) (i : nat) : nat :=
  default 0 (n_extent <$> store !! i).

(** Node [k] is the field [sdt] or lies inside it. *)
Definition in_field (store : list node) (sdt k : nat) : Prop :=
  sdt <= k <= sdt + extent store sdt.

(** The tag of a field: the [w:val] of its first [w:tag] element. *)
Definition field_tag (store : list node) (sdt : nat) : option text :=
  tag_elem ← find store sdt (w "tag");
  n ← store !! tag_elem;
  attrib_get (n_attrib n) (w "val").

(** The column a tag resolves to, through key normalization. *)
Definition resolve (data_row : row) (tag : text) : option pyval :=
  normalized_keys data_row !! Normalizer.normalize_string (PyStr tag).

(** The formatted value a field is bound to. *)
Definition binding (pad_year : bool) (data_row : row) (store : list node)
    (sdt : nat) : option text :=
  tag ← field_tag store sdt;
  key ← resolve data_row tag;
  cell ← row_get data_row key;
  Some (Formatter.format_date pad_year cell).

(** The first text run inside a field. *)
Definition first_text_run (store : list node) (sdt : nat) : option nat :=
  head (findall store sdt (w "t")).

(** No form field lies inside another one. *)
Definition fields_apart (store : list node) : Prop :=
  forall i j, i ∈ form_fields store -> j ∈ form_fields store ->
              i < j -> i + extent store i < j.

(** Every cell of the row, once formatted, is a text lxml takes. *)
Definition storable (pad_year : bool) (data_row : row) : Prop :=
  forall key cell, row_get data_row key = Some cell ->
                   forallb Docx.xml_char (Formatter.format_date pad_year cell) = true.

End StatedFields.

Module FieldUpdates.
Import Xml StatedFields.

(** The write a field asks for: its first text run and its value. *)
Definition update (pad_year : bool) (data_row : row) (store : list node)
    (sdt : nat) : option (nat * text) :=
  match binding pad_year data_row store sdt, first_text_run store sdt with
  | Some value, Some t => Some (t, value)
  | _, _ => None
  end.

Definition write (s : list node) (u : option (nat * text)) : list node :=
  match u with
  | Some (t, value) => alter (with_text value) t s
  | None => s
  end.

End FieldUpdates.

(** ** Placeholder merger: the loops over paragraphs and tables

    python-docx hands out the runs that are children of a paragraph of the
    body or of a table cell of the body; such a run has no content control
    above it, so the two passes write to different text elements.  The runs
    are kept by their text, apart from the element tree. *)

Module Body.
Import Placeholder.

Definition paragraph : Type := list text.              (* [p.runs] *)
Definition cell : Type := list paragraph.              (* [cell.paragraphs] *)
Definition table : Type := list (list cell).           (* [table.rows], [row.cells] *)

(** A [for] loop that rewrites the items of a list in place; an exception
    leaves the items behind it as they were. *)
Fixpoint each {A : Type} (body : A -> outcome A) (l : list A) : outcome (list A) :=
  match l with
  | [] => Returned []
  | x :: l' =>
      match body x with
      | Returned x' =>
          match each body l' with
          | Returned l'' => Returned (x' :: l'')
          | Raised l'' => Raised (x' :: l'')
          | Unfinished => Unfinished
          end
      | Raised x' => Raised (x' :: l')
      | Unfinished => Unfinished
      end
  end.

(** Method 2 of the engine, inside its [try]: the paragraphs, then the
    tables. *)
Definition merge_placeholders (fuel : nat) (pad_year : bool) (data_row : row)
    (paragraphs : list paragraph) (tables : list table)
    : outcome (list paragraph * list table) :=
  let run := process_run fuel pad_year data_row in
  match each (each run) paragraphs with
  | Returned ps =>
      match each (each (each (each (each run)))) tables with
      | Returned ts => Returned (ps, ts)
      | Raised ts => Raised (ps, ts)
      | Unfinished => Unfinished
      end
  | Raised ps => Raised (ps, tables)
  | Unfinished => Unfinished
  end.

End Body.

(** ** Template engine: [create_word_from_template] *)

Module Engine.
Import Xml Fields Body.

Record document : Type := Document {
  doc_element : list node;
  doc_paragraphs : list paragraph;
  doc_tables : list table
}.

(** A path is the list of its components below the root. *)
Definition path : Type := list text.

(** What a path can hold.  A saved document is a zip archive whose members
    carry the time of the save ([ZipFile.writestr] with a name gives the
    member the current date and time). *)
Inductive file : Type :=
  | Docx (d : document) (stamp : N)
  | OtherFile
  | Directory.

Abbreviation filesystem := (gmap path file).

(** What the engine reads from its surroundings. *)
Record environment : Type := Environment {
  tmp_dir : path;          (* [tempfile.gettempdir()] *)
  uuid : text;             (* [uuid.uuid4().hex[:8]] *)
  timestamp : text;        (* [datetime.now().strftime('%Y%m%d_%H%M%S')] *)
  clock : N                (* the time at which [doc.save] writes *)
}.

(** [Path.exists()] *)
Definition path_exists (fs : filesystem) (p : path) : bool :=
  match p with
  | [] => true
  | _ => bool_decide (is_Some (fs !! p))
  end.

(** [Path.parent] *)
Definition parent (p : path) : path := take (length p - 1) p.

Definition is_dir (fs : filesystem) (p : path) : bool :=
  match p with
  | [] => true
  | _ => match fs !! p with Some Directory => true | _ => false end
  end.

(** [Path.mkdir(exist_ok=True)]; [None] stands for the [OSError]. *)
Definition mkdir (fs : filesystem) (p : path) : option filesystem :=
  if is_dir fs p then Some fs
  else if path_exists fs p then None
  else if is_dir fs (parent p) then Some (<[p := Directory]> fs)
  else None.

(** [Path.mkdir(exist_ok=True, parents=True)]: the ancestors first. *)
Definition mkdir_parents (fs : filesystem) (p : path) : option filesystem :=
  foldl (fun acc i => fs' ← acc; mkdir fs' (take i p)) (Some fs)
    (seq 1 (length p)).

(** [create_temp_directory()] *)
Definition create_temp_directory (env : environment) (fs : filesystem)
    : option (filesystem * path) :=
  let temp_dir := tmp_dir env ++ [tx "sharepoint_op_" ++ uuid env] in
  fs' ← mkdir fs temp_dir;
  Some (fs', temp_dir).

(** [Document(template_path)]; [None] stands for the exception on what is
    not a document. *)
Definition load (fs : filesystem) (p : path) : option document :=
  match fs !! p with
  | Some (Docx d _) => Some d
  | _ => None
  end.

(** [doc.save(output_path)]; [None] stands for the [OSError]. *)
Definition save (env : environment) (fs : filesystem) (d : document) (p : path)
    : option filesystem :=
  if is_dir fs p then None
  else if is_dir fs (parent p) then Some (<[p := Docx d (clock env)]> fs)
  else None.

(** An exception caught by a handler that logs it: the code goes on with
    the state as the exception left it. *)
Definition caught {A : Type} (o : outcome A) : option A :=
  match o with
  | Returned a => Some a
  | Raised a => Some a
  | Unfinished => None
  end.

(** The two merge passes on the loaded document, each inside its own
    [try ... except Exception]; [None] when the second never ends. *)
Definition merge (fuel : nat) (pad_year : bool) (data_row : row) (d : document)
    : option document :=
  let normalized_keys := normalized_keys data_row in
  store ← caught (merge_form_fields pad_year data_row normalized_keys (doc_element d));
  body ← caught (merge_placeholders fuel pad_year data_row
                   (doc_paragraphs d) (doc_tables d));
  Some (Document store (fst body) (snd body)).

(** What a call leaves: the file system and the value returned, or no
    return at all. *)
Inductive result : Type :=
  | Result (fs : filesystem) (ret : option path)
  | Hangs.

Definition create_word_from_template (fuel : nat) (pad_year : bool)
    (env : environment) (fs : filesystem) (template_path : path)
    (data_row : row) (output_path : option path) : result :=
  if negb (path_exists fs template_path) then Result fs None
  else
    match
      match output_path with
      | None =>
          '(fs', temp_dir) ← create_temp_directory env fs;
          Some (fs', temp_dir ++ [tx "document_" ++ timestamp env ++ tx ".docx"])
      | Some p => Some (fs, p)
      end
    with
    | None => Result fs None
    | Some (fs1, output_path) =>
        match mkdir_parents fs1 (parent output_path) with
        | None => Result fs1 None
        | Some fs2 =>
            match load fs2 template_path with
            | None => Result fs2 None
            | Some doc =>
                match merge fuel pad_year data_row doc with
                | None => Hangs
                | Some doc' =>
                    match save env fs2 doc' output_path with
                    | None => Result fs2 None
                    | Some fs3 => Result fs3 (Some output_path)
                    end
                end
            end
        end
    end.

End Engine.

(** ** The pipeline of [main] for one row *)

Module Pipeline.


Definition id_column : pyval := PyStr (tx "Entreprise/Commune").

(** [word_filename] *)
Definition word_filename (now : text) (index : pyval) (data_row : row) : text :=
  match row_get data_row id_column with
  | Some ((_ :: _) as name) =>
      let safe_name := str_lower (replace_char " " "_" name) in
      tx "diagnostic_" ++ safe_name ++ tx ".docx"
  | _ =>
      tx "diagnostic_" ++ now ++ tx "_" ++ py_str index ++ tx ".docx"
  end.


End Pipeline.

(** ** Sample documents, rows and file systems *)

Module Samples.
Import Xml Body Engine.

(** A content control with a tag and one text run. *)
Definition field (tag template : string) : element :=
  Element (w "sdt") [] []
    [Element (w "sdtPr") [] [] [Element (w "tag") [(w "val", tx tag)] [] []];
     Element (w "sdtContent") [] []
       [Element (w "r") [] [] [Element (w "t") [] (tx template) []]]].

Definition body_of (children : list element) : list node :=
  flatten (Element (w "document") [] [] [Element (w "body") [] [] children]).

(** Two fields bound to one column through normalization, one unbound. *)
Definition mail_fields : list node :=
  body_of [field "Email " "click here"; field "Fax" "no fax"; field "email" "again"].

Definition mail_row : row := [(PyStr (tx "email"), tx "a@b.fr")].

(** A tagged field whose first text run belongs to a field without a tag
    nested in it. *)
Definition nested_fields : list node :=
  body_of
    [Element (w "sdt") [] []
       [Element (w "sdtPr") [] [] [Element (w "tag") [(w "val", tx "email")] [] []];
        Element (w "sdtContent") [] []
          [Element (w "sdt") [] []
             [Element (w "sdtPr") [] [] [];
              Element (w "sdtContent") [] []
                [Element (w "r") [] [] [Element (w "t") [] (tx "inner text") []]]];
           Element (w "r") [] [] [Element (w "t") [] (tx "outer text") []]]]].

(** A row whose first cell holds a control character (U+0001). *)
Definition control_row : row :=
  [(PyStr (tx "a"), [chr 1]); (PyStr (tx "b"), tx "ok")].


Definition two_tokens : document :=
  Document (body_of []) [[tx "${a}"]; [tx "${b}"]] [].

Definition letter : document :=
  Document mail_fields [[tx "Dear "; tx "${email}"]] [].

Definition template_path : path := [tx "temp"; tx "modele.docx"].
Definition out1 : path := [tx "temp"; tx "diagnostic_1.docx"].
Definition out2 : path := [tx "temp"; tx "diagnostic_2.docx"].

Definition disk (d : document) : filesystem :=
  <[template_path := Docx d 0]> (<[[tx "temp"] := Directory]> ∅).

Definition env_at (now : N) : environment :=
  Environment [tx "tmp"] (tx "0a1b2c3d") (tx "20240305_100000") now.

End Samples.

(** ** Notions the properties are stated with *)

Module Notions.
Import Formatter Docx Placeholder Engine.

(** A continuation that needs a separator next takes no digit. *)
Definition wants_separator {B : Type} (K : N -> parser B) : Prop :=
  forall v c s, isdigit c = true -> K v (c :: s) = [].

(** [a] is the text before the first occurrence of [p] in [s]. *)
Definition first_occurrence (p a b s : text) : Prop :=
  s = a ++ p ++ b
  /\ forall a' b', s = a' ++ p ++ b' -> length a <= length a'.

(** What [run.text] reads back after a successful assignment. *)
Definition cr_to_lf (c : ascii) : ascii :=
  if bool_decide (c = chr 13) then chr 10 else c.

(** A character a run stores as it is: printable, a tab or a line feed. *)
Definition plain (c : ascii) : bool :=
  (32 <=? code c)%N || (code c =? 9)%N || (code c =? 10)%N.

(** The number of [$] characters of a text. *)
Definition dollars (s : list ascii) : nat :=
  length (filter (fun c => c = "$"%char) s).

(** Everything [fs] holds is still in [fs'], which has at most some more
    directories. *)
Definition preserves (fs fs' : filesystem) : Prop :=
  forall q, fs' !! q = fs !! q \/ (fs !! q = None /\ fs' !! q = Some Directory).


End Notions.

(** A row and a run on which the placeholder loop never ends. *)
Module Diverging.
Import Placeholder.

Definition key : pyval := PyStr (tx "k").
Definition value : text := tx "{k}{k}$$".
Definition data_row : row := [(key, value)].
Definition token : text := placeholder_of key.

Fixpoint rep (n : nat) (x : text) : text :=
  match n with
  | 0 => []
  | S n' => x ++ rep n' x
  end.

(** The texts the run goes through. *)
Definition odd_text (n : nat) : text :=
  rep n (tx "{k}{k}") ++ tx "$${k}" ++ rep n (tx "$$").

Definition even_text (n : nat) : text :=
  rep n (tx "{k}{k}") ++ tx "${k}{k}$$" ++ rep n (tx "$$").

End Diverging.

(** ** Reading one line of the spreadsheet: [extract_excel_row] *)

Module Sheet.
Import Engine.

(** A [DataFrame] read with [dtype=str]: the column labels and, line by
    line, the cells; [None] is NaN, the empty cell. *)
Record dataframe : Type := DataFrame {
  columns : list pyval;
  records : list (list (option text))
}.

(** [df.empty]: an axis has length 0. *)
Definition df_empty (df : dataframe) : bool :=
  match columns df, records df with
  | [], _ | _, [] => true
  | _, _ => false
  end.

(** [df.iloc[i]]: a negative position counts from the end; [None] stands
    for the [IndexError] of a position out of bounds. *)
Definition iloc (df : dataframe) (i : Z) : option (list (option text)) :=
  let n := Z.of_nat (length (records df)) in
  if decide (0 <= i < n)%Z then records df !! Z.to_nat i
  else if decide (- n <= i < 0)%Z then records df !! Z.to_nat (n + i)
  else None.

(** The Series of a line, after [.fillna('')]. *)
Definition filled (df : dataframe) (cells : list (option text)) : row :=
  zip (columns df) (default [] <$> cells).

Section Extract.
(** [pd.read_excel(path, dtype=str)]; [None] stands for the exception on a
    file pandas cannot read. *)
Context (read_excel : filesystem -> path -> option dataframe).

Definition extract_excel_row (fs : filesystem) (excel_file_path : path)
    (row_index : Z) : option row :=
  if negb (path_exists fs excel_file_path) then None
  else
    match read_excel fs excel_file_path with
    | None => None
    | Some df =>
        if df_empty df then None
        else if decide (Z.of_nat (length (records df)) < Z.abs row_index)%Z then None
        else
          match iloc df row_index with
          | None => None
          | Some cells => Some (filled df cells)
          end
    end.
End Extract.

End Sheet.

(** ** Notions for the further properties *)

Module Further.
Import Placeholder Body Engine.

(** A word of a normalized key: not empty, and of ASCII characters that
    are no white space, no punctuation and no capital letter. *)
Definition key_char (c : ascii) : bool :=
  (code c <? 128)%N && negb (isspace c) && negb (ispunct c)
  && negb (in_range 65 90 c).

Definition key_word (w : text) : Prop :=
  w <> [] /\ forallb key_char w = true.



(** The runs of the body: those of the paragraphs, then those of the
    tables, cell by cell. *)
Definition body_runs (d : document) : list text :=
  concat (doc_paragraphs d)
  ++ concat (concat (concat (concat (doc_tables d)))).


End Further.

(** ** Files of the machine and remotes behind rclone

    The functions below call rclone, sleep, and remove files.  What these
    do is not in the source: it is given by the parameters of the section,
    and the program is modelled on top of them, threading the state of the
    world through the calls. *)

Module Remote.
Import Engine Sheet.

(** [subprocess.CompletedProcess] *)
Record completed : Type := Completed {
  returncode : Z;
  stdout : text;
  stderr : text
}.

(** The local files, what lies outside the program (the remotes, the
    network, the other processes of the machine), and the commands run so
    far; the last is kept to tell what the code has asked for. *)
Record world_of (outside : Type) : Type := World {
  files : filesystem;
  out : outside;
  commands : list (list text)
}.
Arguments World {outside} files out commands.
Arguments files {outside} w.
Arguments out {outside} w.
Arguments commands {outside} w.

Definition with_files {outside : Type} (fs : filesystem) (w : world_of outside)
    : world_of outside :=
  World fs (out w) (commands w).

(** [Path.name] *)
Definition path_name (p : path) : text := default [] (last p).

(** [directory / name] for a name that is one component, or empty. *)
Definition child (directory : path) (name : text) : path :=
  match name with
  | [] => directory
  | _ => directory ++ [name]
  end.

(** [Path.is_file()] *)
Definition is_file (fs : filesystem) (p : path) : bool :=
  match fs !! p with
  | Some (Docx _ _) | Some OtherFile => true
  | _ => false
  end.

(** [p] lies below [directory]. *)
Definition below (directory p : path) : bool :=
  bool_decide (length directory < length p)
  && bool_decide (take (length directory) p = directory).

(** [directory.glob('**/*')]: everything below a directory; nothing for
    what is no directory. *)
Definition glob (fs : filesystem) (directory : path) : list path :=
  if is_dir fs directory
  then filter (fun p => below directory p = true) (map fst (map_to_list fs))
  else [].

(** [shutil.copy2(src, dst)]: into [dst] when it is a directory; [None]
    stands for the exception (the source is a directory or missing, the
    two are the same file, the target cannot be written). *)
Definition copy2 (fs : filesystem) (src dst : path) : option filesystem :=
  match fs !! src with
  | Some Directory | None => None
  | Some f =>
      let target := if is_dir fs dst then child dst (path_name src) else dst in
      if decide (target = src) then None
      else if is_dir fs target then None
      else if is_dir fs (parent target) then Some (<[target := f]> fs)
      else None
  end.

Section Rclone.
Context {outside : Type}.

(** The constant [RCLONE_PATH], [str(path)] and [Path(text)]. *)
Context (RCLONE_PATH : text) (path_str : path -> text) (Path : text -> path).

(** [subprocess.run(args, capture_output=True, text=True)]: what the
    command does to the local files and outside, and the completed process,
    or [None] for an exception (the program cannot be started, its output
    cannot be decoded). *)
Context (subprocess_run :
           list text -> filesystem -> outside -> option completed * filesystem * outside).

(** [time.sleep(seconds)]: the outside goes on. *)
Context (sleep : N -> outside -> outside).

(** [os.chmod(item, 0o666); item.unlink()], with [None] for an exception,
    and [shutil.rmtree(directory, ignore_errors=True)]. *)
Context (unlink : path -> filesystem -> outside -> option filesystem).
Context (rmtree : path -> filesystem -> outside -> filesystem).

(** [pd.read_excel(path, dtype=str)] *)
Context (read_excel : filesystem -> path -> option dataframe).

Abbreviation world := (world_of outside).

Definition run (args : list text) (w : world) : option completed * world :=
  let '(result, fs, o) := subprocess_run args (files w) (out w) in
  (result, World fs o (commands w ++ [args])).

Definition slept (seconds : N) (w : world) : world :=
  World (files w) (sleep seconds (out w)) (commands w).

(** *** [clean_directory] *)

(** The loop [for item in directory.glob('**/*')]. *)
Definition unlink_files (items : list path) (w : world) : world :=
  foldl (fun w item =>
           if is_file (files w) item then
             match unlink item (files w) (out w) with
             | Some fs => with_files fs w
             | None => w
             end
           else w)
    w items.

(** The loop [for attempt in range(max_attempts)], with the attempts that
    are left. *)
Fixpoint attempts (left : nat) (directory : path) (w : world) : bool * world :=
  match left with
  | 0 => (false, w)
  | S left' =>
      let w := slept 1 w in
      if negb (path_exists (files w) directory) then (true, w)
      else
        let w := unlink_files (glob (files w) directory) w in
        let w := with_files (rmtree directory (files w) (out w)) w in
        if negb (path_exists (files w) directory) then (true, w)
        else attempts left' directory w
  end.

Definition clean_directory (directory : path) (w : world) : bool * world :=
  attempts 3 directory w.

(** *** [check_file_exists_on_sharepoint] *)

Definition check_file_exists_on_sharepoint (remote_name remote_folder filename : text)
    (w : world) : bool * world :=
  let remote_path := remote_name ++ tx ":" ++ remote_folder ++ tx "/" ++ filename in
  let check_args := [RCLONE_PATH; tx "lsf"; remote_path] in
  match run check_args w with
  | (Some check_result, w) =>
      (bool_decide (returncode check_result = 0%Z)
       && bool_decide (trim isspace (stdout check_result) <> []), w)
  | (None, w) => (false, w)
  end.

(** *** [delete_file_from_sharepoint] *)

Definition delete_file_from_sharepoint (remote_name remote_folder filename : text)
    (w : world) : bool * world :=
  let remote_path := remote_name ++ tx ":" ++ remote_folder ++ tx "/" ++ filename in
  let '(found, w) :=
    check_file_exists_on_sharepoint remote_name remote_folder filename w in
  if negb found then (true, w)
  else
    let delete_args := [RCLONE_PATH; tx "deletefile"; remote_path] in
    match run delete_args w with
    | (Some delete_result, w) =>
        if bool_decide (returncode delete_result = 0%Z) then (true, slept 2 w)
        else (false, w)
    | (None, w) => (false, w)
    end.

(** *** [download_file_from_onedrive]

    A [local_dir] given as a [str] is made a path first; it comes here as
    a path. *)

Definition download_file_from_onedrive (env : environment)
    (remote_name remote_file_path : text) (local_dir : option path) (w : world)
    : option path * world :=
  match
    match local_dir with
    | None =>
        '(fs, temp_dir) ← create_temp_directory env (files w);
        Some (with_files fs w, temp_dir)
    | Some local_dir => Some (w, local_dir)
    end
  with
  | None => (None, w)
  | Some (w, local_dir) =>
      match mkdir_parents (files w) local_dir with
      | None => (None, w)
      | Some fs =>
          let w := with_files fs w in
          let args :=
            [RCLONE_PATH; tx "copy"; remote_name ++ tx ":" ++ remote_file_path;
             path_str local_dir; tx "--drive-chunk-size"; tx "64M"] in
          match run args w with
          | (None, w) => (None, w)
          | (Some result, w) =>
              if negb (bool_decide (returncode result = 0%Z)) then (None, w)
              else
                let filename := path_name (Path remote_file_path) in
                let local_file_path := child local_dir filename in
                if path_exists (files w) local_file_path
                then (Some local_file_path, w)
                else (None, w)
          end
      end
  end.

(** *** [upload_file_to_sharepoint] *)

(** The two attempts to send the copy; [None] stands for an exception of
    [subprocess.run], which the handler of the function catches. *)
Definition send (copy_file : path) (remote_path remote_file : text) (w : world)
    : option bool * world :=
  let args :=
    [RCLONE_PATH; tx "copy"; path_str copy_file; remote_path ++ tx "/";
     tx "--ignore-checksum"; tx "--ignore-size"] in
  match run args w with
  | (None, w) => (None, w)
  | (Some result, w) =>
      if bool_decide (returncode result = 0%Z) then (Some true, w)
      else
        let copyto_args :=
          [RCLONE_PATH; tx "copyto"; path_str copy_file; remote_file;
           tx "--ignore-checksum"; tx "--ignore-size"] in
        match run copyto_args w with
        | (None, w) => (None, w)
        | (Some result_retry, w) =>
            (Some (bool_decide (returncode result_retry = 0%Z)), w)
        end
  end.

Definition upload_file_to_sharepoint (env : environment) (local_file_path : path)
    (remote_name remote_folder : text) (overwrite : bool) (w : world)
    : bool * world :=
  if negb (path_exists (files w) local_file_path) then (false, w)
  else
    let filename := path_name local_file_path in
    let remote_path := remote_name ++ tx ":" ++ remote_folder in
    let remote_file := remote_path ++ tx "/" ++ filename in
    let w :=
      if overwrite then
        let '(found, w) :=
          check_file_exists_on_sharepoint remote_name remote_folder filename w in
        if found
        then snd (delete_file_from_sharepoint remote_name remote_folder filename w)
        else w
      else w in
    match create_temp_directory env (files w) with
    | None => (false, w)
    | Some (fs, temp_dir) =>
        let w := with_files fs w in
        let copy_file := child temp_dir filename in
        match copy2 (files w) local_file_path copy_file with
        | None => (false, w)
        | Some fs =>
            let w := with_files fs w in
            match send copy_file remote_path remote_file w with
            | (None, w) => (false, w)
            | (Some success, w) =>
                let '(success, w) :=
                  if success then
                    check_file_exists_on_sharepoint remote_name remote_folder filename
                      (slept 1 w)
                  else (false, w) in
                let '(_, w) := clean_directory temp_dir w in
                (success, w)
            end
        end
    end.

(** *** [main] *)

Definition remote_exel_name : text := tx "Onedrive".
Definition remote_exel_file_path : text := tx "diagnostic_maturite.xlsx".
Definition local_tmp_dir : text := tx "temp".
Definition remote_word_name : text := tx "sharepoint".
Definition remote_word_folder : text := tx "files".
Definition remote_word_model : text := tx "modele_diagnostic_maturite.docx".

(** [df.iterrows()], each line after [fillna('')]. *)
Definition iterrows (df : dataframe) : list (nat * row) :=
  imap (fun index cells => (index, filled df cells)) (records df).

(** How a call of [main] ends. *)
Inductive ending : Type :=
  | Returns (value : bool) (w : world)
  | Escapes (w : world)       (* an exception leaves [main] *)
  | Loops.                    (* a placeholder loop never ends *)

(** The loop [for index, row in df.iterrows()]; [envs] gives what the
    engine and the upload read from their surroundings at each line.
    [None] when a placeholder loop never ends. *)
Fixpoint for_rows (fuel : nat) (pad_year : bool) (envs : nat -> environment)
    (local_dir local_model_path : path) (rows : list (nat * row)) (w : world)
    : option world :=
  match rows with
  | [] => Some w
  | (index, data_row) :: rows' =>
      let env := envs index in
      let word_filename :=
        Pipeline.word_filename (timestamp env) (PyInt (Z.of_nat index)) data_row in
      let '(found, w) :=
        check_file_exists_on_sharepoint remote_word_name remote_word_folder
          word_filename w in
      if found then for_rows fuel pad_year envs local_dir local_model_path rows' w
      else
        let output_path := local_dir ++ Path word_filename in
        match create_word_from_template fuel pad_year env (files w) local_model_path
                data_row (Some output_path) with
        | Hangs => None
        | Result fs None =>
            for_rows fuel pad_year envs local_dir local_model_path rows'
              (with_files fs w)
        | Result fs (Some result_path) =>
            let '(_, w) :=
              upload_file_to_sharepoint env result_path remote_word_name
                remote_word_folder true (with_files fs w) in
            for_rows fuel pad_year envs local_dir local_model_path rows' w
        end
  end.

Definition main (fuel : nat) (pad_year : bool) (envs : nat -> environment)
    (w : world) : ending :=
  let local_dir := Path local_tmp_dir in
  match mkdir (files w) local_dir with
  | None => Escapes w
  | Some fs =>
      let w := with_files fs w in
      let '(_, w) := clean_directory local_dir w in
      match download_file_from_onedrive (envs 0) remote_exel_name remote_exel_file_path
              (Some local_dir) w with
      | (None, w) => Returns false w
      | (Some excel_file, w) =>
          match download_file_from_onedrive (envs 0) remote_word_name remote_word_model
                  (Some local_dir) w with
          | (None, w) => Returns false w
          | (Some local_model_path, w) =>
              match read_excel (files w) excel_file with
              | None => Returns false w
              | Some df =>
                  if df_empty df then Returns false w
                  else
                    match for_rows fuel pad_year envs local_dir local_model_path
                            (iterrows df) w with
                    | None => Loops
                    | Some w => Returns true w
                    end
              end
          end
      end
  end.

End Rclone.

End Remote.

(** ** Notions for the further properties *)

Module RemoteNotions.
Import Engine Remote.

(** [fs'] is [fs] with some entries at or below [directory] removed. *)
Definition within (directory : path) (fs fs' : filesystem) : Prop :=
  forall q, fs' !! q = fs !! q
            \/ ((q = directory \/ below directory q = true) /\ fs' !! q = None).

(** Removing a file that can be removed removes that file. *)
Definition unlink_removes {outside : Type}
    (unlink : path -> filesystem -> outside -> option filesystem) : Prop :=
  forall item fs o fs', unlink item fs o = Some fs' -> fs' = delete item fs.

(** [rmtree] removes what it can of a directory and nothing else. *)
Definition rmtree_inside {outside : Type}
    (rmtree : path -> filesystem -> outside -> filesystem) : Prop :=
  forall directory fs o, within directory fs (rmtree directory fs o).

(** Every deletion a log asks for comes right after a listing of the same
    remote path. *)
Definition guarded (log : list (list text)) : Prop :=
  forall k rclone target,
    log !! k = Some [rclone; tx "deletefile"; target] ->
    exists k', k = S k' /\ log !! k' = Some [rclone; tx "lsf"; target].

(** [w'] comes after [w]: more commands have been run, the deletions
    among them guarded. *)
Definition follows {outside : Type} (w w' : world_of outside) : Prop :=
  exists new, commands w' = commands w ++ new /\ guarded new.

(** No command of the log asks for a deletion. *)
Definition quiet (log : list (list text)) : Prop :=
  Forall (fun args => args !! 1 <> Some (tx "deletefile")) log.

(** [w'] comes after [w] without a deletion. *)
Definition calm {outside : Type} (w w' : world_of outside) : Prop :=
  exists new, commands w' = commands w ++ new /\ quiet new.

(** Listing is a function of what lies outside and changes nothing. *)
Definition listing_stable {outside : Type} (RCLONE_PATH : text)
    (subprocess_run :
       list text -> filesystem -> outside -> option completed * filesystem * outside)
    (answer : outside -> text -> option completed) : Prop :=
  forall target fs o,
    subprocess_run [RCLONE_PATH; tx "lsf"; target] fs o = (answer o target, fs, o).

End RemoteNotions.

(** ** A sample machine: rclone over remotes that hold files by name *)

Module RemoteSamples.
Import Placeholder Engine Sheet Remote Samples.

(** The remote files, by their rclone path [remote:folder/name]. *)
Definition remotes : Type := gmap text file.

Definition rclone_path : text := tx "/usr/bin/rclone".

(** The components of a path written with [/]. *)
Definition components (s : text) : list text :=
  filter (fun name => name <> [])
    (fold_right
       (fun c acc =>
          if bool_decide (c = "/"%char) then [] :: acc
          else match acc with
               | name :: names => (c :: name) :: names
               | [] => [[c]]
               end)
       [[]] s).

Definition str_of_path (p : path) : text := str_join (tx "/") p.

(** The name of the file a remote path ends with. *)
Definition remote_name_of (source : text) : text :=
  path_name (components (nth 1 (str_split1 (tx ":") source) [])).

Definition ok : completed := Completed 0 [] [].
Definition failed (code : Z) (message : string) : completed :=
  Completed code [] (tx message).

(** [lsf], [deletefile], [copy] from a remote file into a local directory
    or from a local file into a remote directory, and [copyto] from a local
    file to a remote file. *)
Definition rclone (args : list text) (fs : filesystem) (o : remotes)
    : option completed * filesystem * remotes :=
  match args with
  | [_; verb; target] =>
      if decide (verb = tx "lsf") then
        match o !! target with
        | Some _ => (Some (Completed 0 (remote_name_of target ++ [chr 10]) []), fs, o)
        | None => (Some ok, fs, o)
        end
      else if decide (verb = tx "deletefile") then
        match o !! target with
        | Some _ => (Some ok, fs, delete target o)
        | None => (Some (failed 4 "object not found"), fs, o)
        end
      else (Some (failed 1 "unknown command"), fs, o)
  | [_; verb; source; target; _; _] =>
      if decide (verb = tx "copy") then
        match o !! source, fs !! components source with
        | Some f, _ =>
            (Some ok, <[components target ++ [remote_name_of source] := f]> fs, o)
        | None, Some f =>
            (Some ok, fs, <[target ++ path_name (components source) := f]> o)
        | None, None => (Some (failed 3 "directory not found"), fs, o)
        end
      else if decide (verb = tx "copyto") then
        match fs !! components source with
        | Some f => (Some ok, fs, <[target := f]> o)
        | None => (Some (failed 3 "directory not found"), fs, o)
        end
      else (Some (failed 1 "unknown command"), fs, o)
  | _ => (None, fs, o)
  end.

Definition no_wait (seconds : N) (o : remotes) : remotes := o.

Definition remove (item : path) (fs : filesystem) (o : remotes) : option filesystem :=
  Some (delete item fs).

Definition remove_tree (directory : path) (fs : filesystem) (o : remotes)
    : filesystem :=
  filter (fun entry => ~ (entry.1 = directory \/ below directory entry.1 = true)) fs.

(** One line for the town hall of Pau. *)
Definition sheet : dataframe :=
  DataFrame [PyStr (tx "email"); Pipeline.id_column]
    [[Some (tx "a@b.fr"); Some (tx "Mairie de Pau")]].

Definition read_sheet (fs : filesystem) (p : path) : option dataframe :=
  match fs !! p with
  | Some OtherFile => Some sheet
  | _ => None
  end.

Definition sources : remotes :=
  <[tx "Onedrive:diagnostic_maturite.xlsx" := OtherFile]>
    (<[tx "sharepoint:modele_diagnostic_maturite.docx" := Docx letter 0]> ∅).

(** The remotes once the document of the line is there. *)
Definition served : remotes :=
  <[tx "sharepoint:files/diagnostic_mairie_de_pau.docx" := Docx letter 0]> sources.

Definition machine (fs : filesystem) (o : remotes) : world_of remotes :=
  World fs o [].

(** The local files with [/tmp] in place and a generated document. *)
Definition local_files : filesystem :=
  <[[tx "temp"; tx "diagnostic_mairie_de_pau.docx"] := Docx letter 7]>
    (<[[tx "tmp"] := Directory]> (disk letter)).

End RemoteSamples.

(** * Properties *)

(** ** Key normalizer *)

Import Notions.

Section StepsFacts.
Context {A : Type} (spacep : A -> bool) (sp : A).

Lemma lstrip_head (s : list A) :
  match lstrip spacep s with [] => True | c :: _ => spacep c = false end.
Proof.
  induction s as [|c s IH]; simpl; [done|].
  destruct (spacep c) eqn:E; [exact IH | exact E].
Qed.

Lemma lstrip_length (s : list A) : length (lstrip spacep s) <= length s.
Proof.
  induction s as [|c s IH]; simpl; [lia|].
  destruct (spacep c); simpl; lia.
Qed.

Lemma lstrip_nonspace (c : A) (s : list A) :
  spacep c = false -> lstrip spacep (c :: s) = c :: s.
Proof. intros H. simpl. by rewrite H. Qed.

Lemma lstrip_space (c : A) (s : list A) :
  spacep c = true -> lstrip spacep (c :: s) = lstrip spacep s.
Proof. intros H. simpl. by rewrite H. Qed.

Lemma collapse_ws_nonspace (c : A) (s : list A) :
  spacep c = false ->
  collapse_ws spacep sp (c :: s) = c :: collapse_ws spacep sp s.
Proof. intros H. simpl. by rewrite H. Qed.

Lemma collapse_ws_space2 (c d : A) (s : list A) :
  spacep c = true -> spacep d = true ->
  collapse_ws spacep sp (c :: d :: s) = collapse_ws spacep sp (d :: s).
Proof. intros Hc Hd. cbn [collapse_ws]. by rewrite Hc, Hd. Qed.

Lemma collapse_ws_space1 (c d : A) (s : list A) :
  spacep c = true -> spacep d = false ->
  collapse_ws spacep sp (c :: d :: s) = sp :: collapse_ws spacep sp (d :: s).
Proof. intros Hc Hd. cbn [collapse_ws]. by rewrite Hc, Hd. Qed.

Lemma collapse_ws_lstrip (s : list A) :
  spacep sp = true ->
  lstrip spacep (collapse_ws spacep sp s)
  = collapse_ws spacep sp (lstrip spacep s).
Proof.
  intros Hsp. induction s as [|c s IH]; [done|].
  destruct (spacep c) eqn:Ec.
  - rewrite (lstrip_space c s Ec). destruct s as [|d s'].
    + simpl. rewrite Ec. simpl. by rewrite Hsp.
    + destruct (spacep d) eqn:Ed.
      * rewrite collapse_ws_space2 by done. exact IH.
      * rewrite (collapse_ws_space1 c d s' Ec Ed). rewrite (lstrip_space sp _ Hsp). exact IH.
  - rewrite collapse_ws_nonspace by done. rewrite !lstrip_nonspace by done.
    by rewrite collapse_ws_nonspace.
Qed.

Lemma rstrip_cons_nonspace (c : A) (s : list A) :
  spacep c = false -> rstrip spacep (c :: s) = c :: rstrip spacep s.
Proof.
  intros Hc. unfold rstrip. simpl.
  destruct (fold_right _ _ s); [by rewrite Hc|done].
Qed.

Lemma rstrip_cons_keep (c : A) (s : list A) :
  rstrip spacep s <> [] -> rstrip spacep (c :: s) = c :: rstrip spacep s.
Proof.
  unfold rstrip. simpl. by destruct (fold_right _ _ s).
Qed.
Lemma collapse_ws_all_space (d : A) (s : list A) :
  spacep d = true -> lstrip spacep (d :: s) = [] ->
  collapse_ws spacep sp (d :: s) = [sp].
Proof.
  revert d. induction s as [|e s IH]; intros d Hd Hl.
  - simpl. by rewrite Hd.
  - rewrite lstrip_space in Hl by done.
    destruct (spacep e) eqn:He.
    + rewrite collapse_ws_space2 by done. by apply IH.
    + by rewrite lstrip_nonspace in Hl.
Qed.

Lemma collapse_ws_space_word (d e : A) (s r : list A) :
  spacep d = true -> lstrip spacep (d :: s) = e :: r -> spacep e = false ->
  collapse_ws spacep sp (d :: s) = sp :: collapse_ws spacep sp (e :: r).
Proof.
  revert d. induction s as [|f s IH]; intros d Hd Hl He.
  - by rewrite lstrip_space in Hl.
  - rewrite lstrip_space in Hl by done.
    destruct (spacep f) eqn:Hf.
    + rewrite collapse_ws_space2 by done. by apply IH.
    + rewrite lstrip_nonspace in Hl by done. rewrite Hl.
      apply collapse_ws_space1; [done|]. by inversion Hl; subst.
Qed.
End StepsFacts.

Lemma str_split_lstrip (s : text) :
  str_split (lstrip isspace s) = str_split s.
Proof.
  induction s as [|c s IH]; [done|].
  destruct (isspace c) eqn:Ec.
  - rewrite lstrip_space by done. simpl. by rewrite Ec.
  - by rewrite lstrip_nonspace.
Qed.

Lemma str_split_nonspace_head (c : ascii) (s : text) :
  isspace c = false -> str_split (c :: s) <> [].
Proof.
  intros Hc. simpl. rewrite Hc. destruct s as [|d s']; [done|].
  destruct (isspace d); [done|]. by destruct (str_split (d :: s')).
Qed.

Lemma str_join_cons_char (sep : text) (c : ascii) (w : text) (ws : list text) :
  str_join sep ((c :: w) :: ws) = c :: str_join sep (w :: ws).
Proof. by destruct ws. Qed.

Lemma str_join_nonempty (sep : text) (c : ascii) (w : text) (ws : list text) :
  str_join sep ((c :: w) :: ws) <> [].
Proof. by rewrite str_join_cons_char. Qed.

(** A word of [str_split] is never empty. *)
Lemma str_split_words_nonempty (s : text) :
  Forall (fun w => w <> []) (str_split s).
Proof.
  induction s as [|c s IH]; [constructor|].
  simpl. destruct (isspace c); [exact IH|].
  destruct s as [|d s']; [by repeat constructor|].
  destruct (isspace d) eqn:Ed.
  - constructor; [done|exact IH].
  - destruct (str_split (d :: s')) as [|w ws]; [by repeat constructor|].
    inversion IH; subst. by constructor.
Qed.

(** [' '.join(text.split())] on a text that does not start with white space
    is the text with its runs collapsed and its end stripped. *)
Lemma join_split_collapse_aux (n : nat) (s : text) :
  length s <= n ->
  match s with [] => True | c :: _ => isspace c = false end ->
  rstrip isspace (collapse_ws isspace " "%char s)
  = str_join (tx " ") (str_split s).
Proof.
  revert s. induction n as [|n IH]; intros s Hlen Hhead.
  { destruct s; [done|simpl in Hlen; lia]. }
  destruct s as [|c s]; [done|].
  rewrite collapse_ws_nonspace by done.
  rewrite rstrip_cons_nonspace by done.
  destruct s as [|d s'].
  { simpl. by rewrite Hhead. }
  destruct (isspace d) eqn:Ed.
  - (* the word ends here *)
    assert (Hs : str_split (c :: d :: s') = [c] :: str_split (lstrip isspace (d :: s'))).
    { rewrite str_split_lstrip. cbn [str_split]. by rewrite Hhead, Ed. }
    rewrite Hs.
    pose proof (lstrip_head isspace (d :: s')) as Hh.
    pose proof (lstrip_length isspace (d :: s')) as Hl.
    destruct (lstrip isspace (d :: s')) as [|e r] eqn:El.
    + (* only white space follows *)
      simpl str_split. simpl str_join.
      by rewrite (collapse_ws_all_space isspace " "%char d s').
    + (* another word follows *)
      assert (Hcol : collapse_ws isspace " "%char (d :: s')
                     = " "%char :: collapse_ws isspace " "%char (e :: r)).
      { apply collapse_ws_space_word; [done|done|exact Hh]. }
      rewrite Hcol.
      assert (Hrec : rstrip isspace (collapse_ws isspace " "%char (e :: r))
                     = str_join (tx " ") (str_split (e :: r))).
      { apply IH; [simpl in *; lia|exact Hh]. }
      assert (Hne : str_split (e :: r) <> []) by (by apply str_split_nonspace_head).
      pose proof (str_split_words_nonempty (e :: r)) as Hw.
      destruct (str_split (e :: r)) as [|w ws]; [done|].
      inversion Hw as [|? ? Hw1 _]; subst.
      destruct w as [|a w]; [done|].
      rewrite rstrip_cons_keep; [by rewrite Hrec|].
      rewrite Hrec. apply str_join_nonempty.
  - (* the word goes on *)
    assert (Hrec : rstrip isspace (collapse_ws isspace " "%char (d :: s'))
                   = str_join (tx " ") (str_split (d :: s'))).
    { apply IH; [simpl in *; lia|exact Ed]. }
    rewrite Hrec.
    assert (Hne : str_split (d :: s') <> []) by (by apply str_split_nonspace_head).
    assert (Hs : str_split (c :: d :: s')
                 = match str_split (d :: s') with
                   | w :: ws => (c :: w) :: ws | [] => [[c]] end).
    { cbn [str_split]. by rewrite Hhead, Ed. }
    rewrite Hs. destruct (str_split (d :: s')) as [|w ws]; [done|].
    by rewrite str_join_cons_char.
Qed.

(** [' '.join(text.split())] collapses the runs of white space and trims. *)
Lemma join_split_is_collapse_trim (s : text) :
  str_join (tx " ") (str_split s)
  = trim isspace (collapse_ws isspace " "%char s).
Proof.
  unfold trim. rewrite collapse_ws_lstrip by done.
  rewrite <- (str_split_lstrip s).
  symmetry. apply (join_split_collapse_aux (length (lstrip isspace s))); [done|].
  apply lstrip_head.
Qed.

Import Normalizer.

Lemma replace_chars_fold (l : text) (new : ascii) (s : text) :
  new ∉ l ->
  fold_left (fun t char => replace_char char new t) l s
  = map (fun c => if bool_decide (c ∈ l) then new else c) s.
Proof.
  revert s. induction l as [|ch l IH]; intros s Hnew.
  - simpl. induction s as [|c s IHs]; [done|]. simpl. f_equal. exact IHs.
  - simpl. rewrite IH by set_solver.
    unfold replace_char. rewrite map_map. apply map_ext. intros c.
    destruct (ascii_dec c ch) as [->|Hne].
    + rewrite (bool_decide_eq_false_2 (new ∈ l)) by set_solver.
      by rewrite bool_decide_eq_true_2 by set_solver.
    + destruct (decide (c ∈ l)) as [Hin|Hin].
      * rewrite (bool_decide_eq_true_2 _ Hin).
        by rewrite bool_decide_eq_true_2 by (by apply list_elem_of_further).
      * rewrite (bool_decide_eq_false_2 _ Hin).
        rewrite bool_decide_eq_false_2; [done|].
        intros [?|?]%elem_of_cons; done.
Qed.

(** The loop over [string.punctuation] turns every punctuation character
    into one space and touches nothing else. *)
Lemma replace_punctuation_to_space (s : text) :
  replace_punctuation s = to_space " "%char ispunct s.
Proof.
  unfold replace_punctuation. rewrite replace_chars_fold; [done|].
  apply (bool_decide_eq_false_1 (" "%char ∈ punctuation)). by vm_compute.
Qed.

Lemma code_chr_small (n : N) : (n < 256)%N -> code (chr n) = n.
Proof. intros H. unfold code, chr. by apply N_ascii_embedding. Qed.

(** When the decomposition holds ASCII and combining marks only, leaving out
    what is not ASCII is leaving out the combining marks. *)
Lemma encode_ascii_drops_marks (u : list N) :
  Forall (fun n => (n < 128)%N \/ Stated.combining n = true) u ->
  map code (encode_ascii_ignore u)
  = filter (fun n => negb (Stated.combining n)) u.
Proof.
  unfold encode_ascii_ignore. induction 1 as [|n u Hn _ IH]; [done|].
  rewrite !filter_cons. unfold Stated.combining in *.
  destruct Hn as [Hn|Hn].
  - rewrite decide_True by done.
    rewrite decide_True by (destruct (768 <=? n)%N eqn:E; [apply N.leb_le in E; lia|done]).
    simpl. rewrite code_chr_small by lia. by f_equal.
  - rewrite decide_False by (apply andb_prop in Hn as [Hn _]; apply N.leb_le in Hn; lia).
    rewrite decide_False by (rewrite Hn; simpl; tauto).
    exact IH.
Qed.

(** C1 (as amended).  On a [str] the normalizer applies, in this order: NFKD
    decomposition, leaving out every code point that is not ASCII (for
    accented Latin letters: the combining marks), lower-casing, every
    punctuation character to one space, runs of white space to one space,
    trimming.  On a value that is not a [str] it returns the lower-cased
    [str()] of the value and applies none of the later steps; [None] gives
    "none".  The three spellings of "Entreprise/Commune" give one key. *)
Theorem normalize_string_steps :
  (forall s : text,
      normalize_string (PyStr s)
      = trim isspace
          (collapse_ws isspace " "%char
             (to_space " "%char ispunct
                (str_lower (encode_ascii_ignore (nfkd s))))))
  /\ (forall s : text,
         Forall (fun n => (n < 128)%N \/ Stated.combining n = true) (nfkd s) ->
         map code (encode_ascii_ignore (nfkd s)) = Stated.strip_diacritics s)
  /\ (forall z : Z, normalize_string (PyInt z) = str_lower (py_str (PyInt z)))
  /\ normalize_string PyNone = tx "none"
  /\ normalize_string (PyStr (tx "Entreprise/Commune")) = tx "entreprise commune"
  /\ normalize_string (PyStr (tx "entreprise   commune")) = tx "entreprise commune"
  /\ normalize_string (PyStr (tx "ENTREPRISE-COMMUNE")) = tx "entreprise commune".
Proof.
  split; [|split; [|split; [|split; [|split; [|split]]]]].
  - intros s. unfold normalize_string.
    by rewrite replace_punctuation_to_space, join_split_is_collapse_trim.
  - intros s Hs. by apply encode_ascii_drops_marks.
  - done.
  - by vm_compute.
  - by vm_compute.
  - by vm_compute.
  - by vm_compute.
Qed.

(** C1 fails as stated: the integer label -3 is not taken through the
    punctuation step, its key is "-3" where the stated steps give "3". *)
Lemma normalize_string_skips_steps :
  map code (normalize_string (PyInt (-3))) <> Stated.normalize (PyInt (-3)).
Proof. by vm_compute. Qed.

(** ** Value formatter *)

Import Formatter.

Lemma isdigit_inv (c : ascii) :
  isdigit c = true ->
  c ∈ [ "0"; "1"; "2"; "3"; "4"; "5"; "6"; "7"; "8"; "9" ]%char.
Proof.
  destruct c as [[] [] [] [] [] [] [] []]; intros H; try discriminate H;
    repeat first [ apply list_elem_of_here | apply list_elem_of_further ].
Qed.

Lemma isdigit_not_space (c : ascii) : isdigit c = true -> isspace c = false.
Proof.
  intros H. apply isdigit_inv in H.
  repeat (apply elem_of_cons in H as [->|H]; [done|]).
  by apply elem_of_nil in H.
Qed.

Ltac each_digit H :=
  apply isdigit_inv in H;
  repeat (apply elem_of_cons in H as [->|H]; [|]);
  [ .. | by apply elem_of_nil in H ].


Lemma lit_wants_separator {B : Type} (l : ascii) (k : N -> parser B) :
  isdigit l = false ->
  wants_separator (fun v => bind (lit l) (fun _ => k v)).
Proof.
  intros Hl v c s Hc. unfold bind, lit.
  rewrite bool_decide_eq_false_2; [done|]. intros ->. congruence.
Qed.

Lemma spaces1_wants_separator {B : Type} (k : N -> parser B) :
  wants_separator (fun v => bind spaces1 (fun _ => k v)).
Proof.
  intros v c s Hc. unfold bind, spaces1. by rewrite isdigit_not_space.
Qed.

Ltac field_cases Ha Hb HK :=
  unfold wants_separator in HK;
  each_digit Ha; each_digit Hb;
  cbv -[app]; cbn [app]; rewrite ?HK by done; cbn [app]; rewrite ?app_nil_r;
  reflexivity.

Lemma re_m_two (B : Type) (K : N -> parser B) (a b : ascii) (s : text) :
  isdigit a = true -> isdigit b = true -> wants_separator K ->
  bind re_m K (a :: b :: s)
  = if ((1 <=? StatedDate.num2 a b) && (StatedDate.num2 a b <=? 12))%N
    then K (StatedDate.num2 a b) s else [].
Proof. intros Ha Hb HK. field_cases Ha Hb HK. Qed.

Lemma re_d_two (B : Type) (K : N -> parser B) (a b : ascii) (s : text) :
  isdigit a = true -> isdigit b = true -> wants_separator K ->
  bind re_d K (a :: b :: s)
  = if ((1 <=? StatedDate.num2 a b) && (StatedDate.num2 a b <=? 31))%N
    then K (StatedDate.num2 a b) s else [].
Proof. intros Ha Hb HK. field_cases Ha Hb HK. Qed.

Lemma re_H_two (B : Type) (K : N -> parser B) (a b : ascii) (s : text) :
  isdigit a = true -> isdigit b = true -> wants_separator K ->
  bind re_H K (a :: b :: s)
  = if (StatedDate.num2 a b <=? 23)%N then K (StatedDate.num2 a b) s else [].
Proof. intros Ha Hb HK. field_cases Ha Hb HK. Qed.

Lemma re_M_two (B : Type) (K : N -> parser B) (a b : ascii) (s : text) :
  isdigit a = true -> isdigit b = true -> wants_separator K ->
  bind re_M K (a :: b :: s)
  = if (StatedDate.num2 a b <=? 59)%N then K (StatedDate.num2 a b) s else [].
Proof. intros Ha Hb HK. field_cases Ha Hb HK. Qed.

Lemma one_any_digit (c : ascii) (s : text) :
  isdigit c = true -> one 0 9 (c :: s) = [(digit_value c, s)].
Proof.
  intros H. unfold one. change (in_range (48 + 0) (48 + 9) c) with (isdigit c).
  by rewrite H.
Qed.

Lemma re_Y_four (B : Type) (K : N -> parser B) (a b c d : ascii) (s : text) :
  isdigit a = true -> isdigit b = true -> isdigit c = true -> isdigit d = true ->
  bind re_Y K (a :: b :: c :: d :: s)
  = K (1000 * digit_value a + 100 * digit_value b
       + 10 * digit_value c + digit_value d)%N s.
Proof.
  intros Ha Hb Hc Hd. unfold re_Y, bind, ret.
  rewrite (one_any_digit a) by done. cbn [flat_map fst snd].
  rewrite (one_any_digit b) by done. cbn [flat_map fst snd].
  rewrite (one_any_digit c) by done. cbn [flat_map fst snd].
  rewrite (one_any_digit d) by done. cbn [flat_map fst snd app].
  by rewrite !app_nil_r.
Qed.

Lemma lit_here (B : Type) (k : parser B) (l : ascii) (s : text) :
  bind (lit l) (fun _ => k) (l :: s) = k s.
Proof.
  unfold bind, lit. rewrite bool_decide_eq_true_2 by done.
  cbn [flat_map fst snd]. by rewrite app_nil_r.
Qed.

Lemma spaces1_one (B : Type) (k : parser B) (w c : ascii) (s : text) :
  isspace w = true -> isdigit c = true ->
  bind spaces1 (fun _ => k) (w :: c :: s) = k (c :: s).
Proof.
  intros Hw Hc. unfold bind, spaces1. rewrite Hw. cbn [spaces].
  rewrite isdigit_not_space by done. cbn [map flat_map fst snd].
  by rewrite app_nil_r.
Qed.

(** The seconds come last: the two-digit readings first, then the reading
    of one digit, which leaves the second digit over. *)
Lemma re_S_last (B : Type) (f : N -> B) (a b : ascii) (s : text) :
  isdigit a = true -> isdigit b = true ->
  bind re_S (fun S => ret (f S)) (a :: b :: s)
  = (if (StatedDate.num2 a b <=? 61)%N then [(f (StatedDate.num2 a b), s)] else [])
    ++ [(f (digit_value a), b :: s)].
Proof.
  intros Ha Hb. each_digit Ha; each_digit Hb; cbv -[app]; reflexivity.
Qed.



Section Shape.
Context (y1 y2 y3 y4 m1 m2 d1 d2 w H1 H2 M1 M2 S1 S2 : ascii).
Hypothesis (Hy1 : isdigit y1 = true) (Hy2 : isdigit y2 = true)
  (Hy3 : isdigit y3 = true) (Hy4 : isdigit y4 = true)
  (Hm1 : isdigit m1 = true) (Hm2 : isdigit m2 = true)
  (Hd1 : isdigit d1 = true) (Hd2 : isdigit d2 = true)
  (Hw : isspace w = true)
  (HH1 : isdigit H1 = true) (HH2 : isdigit H2 = true)
  (HM1 : isdigit M1 = true) (HM2 : isdigit M2 = true)
  (HS1 : isdigit S1 = true) (HS2 : isdigit S2 = true).

Let value : text :=
  [y1; y2; y3; y4; "-"; m1; m2; "-"; d1; d2; w; H1; H2; ":"; M1; M2; ":"; S1; S2]%char.

Let yv : N :=
  (1000 * digit_value y1 + 100 * digit_value y2
   + 10 * digit_value y3 + digit_value y4)%N.

Let stamp (S : N) : datetime :=
  Datetime yv (StatedDate.num2 m1 m2) (StatedDate.num2 d1 d2)
    (StatedDate.num2 H1 H2) (StatedDate.num2 M1 M2) S.

(** What the library's expression reads off a value of the shape. *)
Lemma format_regex_shape (tail : text) :
  format_regex (value ++ tail)
  = if ((1 <=? StatedDate.num2 m1 m2) && (StatedDate.num2 m1 m2 <=? 12))%N then
      if ((1 <=? StatedDate.num2 d1 d2) && (StatedDate.num2 d1 d2 <=? 31))%N then
        if (StatedDate.num2 H1 H2 <=? 23)%N then
          if (StatedDate.num2 M1 M2 <=? 59)%N then
            (if (StatedDate.num2 S1 S2 <=? 61)%N
             then [(stamp (StatedDate.num2 S1 S2), tail)] else [])
            ++ [(stamp (digit_value S1), S2 :: tail)]
          else []
        else []
      else []
    else [].
Proof.
  unfold format_regex, value. cbn [app].
  rewrite re_Y_four by done. rewrite lit_here.
  rewrite re_m_two; [|done|done|by apply lit_wants_separator].
  destruct (_ && _)%N; [|done]. rewrite lit_here.
  rewrite re_d_two; [|done|done|by apply spaces1_wants_separator].
  destruct (_ && _)%N; [|done]. rewrite spaces1_one by done.
  rewrite re_H_two; [|done|done|by apply lit_wants_separator].
  destruct (_ <=? 23)%N; [|done]. rewrite lit_here.
  rewrite re_M_two; [|done|done|by apply lit_wants_separator].
  destruct (_ <=? 59)%N; [|done]. rewrite lit_here.
  by rewrite (re_S_last _ (fun S => Datetime _ _ _ _ _ S)).
Qed.



Lemma strptime_shape_newline : strptime (value ++ [chr 10]) = None.
Proof.
  unfold strptime. rewrite format_regex_shape.
  repeat match goal with
         | |- context [if ?b then _ else _] => destruct b
         end; reflexivity.
Qed.

End Shape.




(** ** The normalized key table *)

Import Normalizer.

Lemma foldl_insert_lookup (keys : list pyval) (table : gmap text pyval) (n : text) :
  foldl (fun t key => <[normalize_string key := key]> t) table keys !! n
  = match last (filter (fun key => normalize_string key = n) keys) with
    | Some key => Some key
    | None => table !! n
    end.
Proof.
  revert table. induction keys as [|k keys IH]; intros table; [done|].
  cbn [foldl]. rewrite IH. rewrite filter_cons.
  destruct (decide (normalize_string k = n)) as [Hk|Hk].
  - destruct (filter _ keys) as [|k' l] eqn:E.
    + simpl. subst n. by rewrite lookup_insert_eq.
    + rewrite last_cons_cons. destruct (last (k' :: l)) eqn:El; [done|].
      by apply last_None in El.
  - destruct (last _); [done|]. by rewrite lookup_insert_ne.
Qed.

Lemma last_filter_app_cons (P : pyval -> Prop) `{!forall k, Decision (P k)}
    (pre post : list pyval) (k : pyval) :
  P k -> Forall (fun k' => ~ P k') post ->
  last (filter P (pre ++ k :: post)) = Some k.
Proof.
  intros Hk Hpost. rewrite filter_app, filter_cons_True by done.
  assert (filter P post = []) as ->.
  { induction Hpost as [|k' post Hk' _ IH]; [done|].
    by rewrite filter_cons_False. }
  by rewrite last_app_cons.
Qed.

(** A normalized key maps to the last label that normalizes to it. *)
Lemma normalized_keys_last_keys (data_row : row) (n : text) :
  normalized_keys data_row !! n
  = last (filter (fun key => normalize_string key = n) (row_index data_row)).
Proof.
  unfold normalized_keys. rewrite foldl_insert_lookup.
  destruct (last _); [done|]. apply lookup_empty.
Qed.

(** C5.  The table is a function of the row alone (built from the empty
    dictionary for each row): its keys are the normalized labels of that row
    and nothing else; a normalized key maps to the last label, in column
    order, that normalizes to it, so that of two columns with one key the
    later wins, no error is raised, and the earlier one is reached through
    no key of the table. *)
Theorem normalized_keys_last_wins (data_row : row) :
  (forall n : text,
      normalized_keys data_row !! n
      = last (filter (fun key => normalize_string key = n) (row_index data_row)))
  /\ (forall n : text,
         is_Some (normalized_keys data_row !! n)
         <-> exists key, key ∈ row_index data_row /\ normalize_string key = n)
  /\ (forall (pre mid post : list pyval) (k1 k2 : pyval),
         row_index data_row = pre ++ k1 :: mid ++ k2 :: post ->
         normalize_string k1 = normalize_string k2 ->
         Forall (fun k => normalize_string k <> normalize_string k2) post ->
         normalized_keys data_row !! normalize_string k1 = Some k2
         /\ (k1 ∉ mid ++ k2 :: post ->
             forall n, normalized_keys data_row !! n <> Some k1)).
Proof.
  pose proof (normalized_keys_last_keys data_row) as Hlast.
  split; [exact Hlast|split].
  - intros n. rewrite Hlast. split.
    + intros [k Hk]. exists k. apply last_Some in Hk as [l Hl].
      assert (Hin : k ∈ filter (fun key => normalize_string key = n) (row_index data_row)).
      { rewrite Hl. set_solver. }
      by apply list_elem_of_filter in Hin as [? ?].
    + intros (k & Hin & Hk).
      assert (Hf : k ∈ filter (fun key => normalize_string key = n) (row_index data_row)).
      { by apply list_elem_of_filter. }
      destruct (filter _ _) as [|x l] eqn:E using rev_ind.
      * by apply elem_of_nil in Hf.
      * rewrite last_snoc. by eexists.
  - intros pre mid post k1 k2 Hidx Hnorm Hpost. split.
    + rewrite Hlast, Hidx. rewrite Hnorm.
      replace (pre ++ k1 :: mid ++ k2 :: post)
        with ((pre ++ k1 :: mid) ++ k2 :: post) by (by rewrite <- app_assoc).
      by apply (last_filter_app_cons (fun key => normalize_string key = normalize_string k2)).
    + intros Hk1 n Hn. rewrite Hlast, Hidx in Hn.
      apply last_Some in Hn as [l Hl].
      assert (Hin : k1 ∈ filter (fun key => normalize_string key = n)
                          (pre ++ k1 :: mid ++ k2 :: post)).
      { rewrite Hl. set_solver. }
      apply list_elem_of_filter in Hin as [Hn1 _].
      (* the filtered list ends with a label of [mid ++ k2 :: post] *)
      replace (pre ++ k1 :: mid ++ k2 :: post)
        with ((pre ++ k1 :: mid) ++ k2 :: post) in Hl by (by rewrite <- app_assoc).
      rewrite filter_app, filter_cons_True in Hl by congruence.
      destruct (filter (fun key => normalize_string key = n) post) as [|x l'] eqn:E
        using rev_ind.
      * apply app_inj_tail in Hl as [_ Heq]. subst k1. set_solver.
      * clear IHl'. rewrite app_comm_cons, app_assoc in Hl.
        apply app_inj_tail in Hl as [_ Heq]. subst x.
        assert (Hin : k1 ∈ filter (fun key => normalize_string key = n) post).
        { rewrite E. set_solver. }
        apply list_elem_of_filter in Hin as [_ Hin]. set_solver.
Qed.

(** ** Placeholder merger *)

Import Docx Placeholder.

Lemma is_prefix_spec (p s : text) :
  is_prefix p s = true <-> exists b, s = p ++ b.
Proof.
  revert s. induction p as [|a p IH]; intros s.
  - split; [by exists s|done].
  - destruct s as [|c s]; simpl.
    + split; [done|]. by intros [b Hb].
    + rewrite andb_true_iff, bool_decide_eq_true, IH. split.
      * intros [-> [b ->]]. by exists b.
      * intros [b Hb]. injection Hb as -> ->. eauto.
Qed.

Lemma str_in_spec (p s : text) :
  str_in p s = true <-> exists a b, s = a ++ p ++ b.
Proof.
  induction s as [|c s IH].
  - simpl. rewrite orb_false_r, is_prefix_spec. split.
    + intros [b Hb]. by exists [], b.
    + intros (a & b & H). destruct a; [by exists b|done].
  - cbn [str_in]. rewrite orb_true_iff, is_prefix_spec, IH. split.
    + intros [[b Hb]|(a & b & Hab)]; [by exists [], b|].
      exists (c :: a), b. by rewrite Hab.
    + intros (a & b & Hab). destruct a as [|c' a]; [left; by exists b|].
      right. injection Hab as -> ->. eauto.
Qed.


Lemma str_split1_first (p a b s : text) :
  first_occurrence p a b s -> str_split1 p s = [a; b].
Proof.
  revert s. induction a as [|c a IH]; intros s [Hs Hmin].
  - subst s. simpl app.
    assert (Hp : is_prefix p (p ++ b) = true) by (apply is_prefix_spec; eauto).
    destruct (p ++ b) as [|c s] eqn:E; cbn [str_split1]; rewrite Hp;
      rewrite <- E; by rewrite drop_app_length.
  - subst s. cbn [app str_split1].
    destruct (is_prefix p (c :: a ++ p ++ b)) eqn:Hp.
    + apply is_prefix_spec in Hp as [b' Hb'].
      specialize (Hmin [] b' Hb'). simpl in Hmin. lia.
    + rewrite (IH (a ++ p ++ b)); [done|]. split; [done|].
      intros a' b' Hab. specialize (Hmin (c :: a') b'). simpl in Hmin.
      rewrite Hab in Hmin. specialize (Hmin eq_refl). lia.
Qed.

Lemma str_in_first (p s : text) :
  str_in p s = true -> exists a b, first_occurrence p a b s.
Proof.
  induction s as [|c s IH]; cbn [str_in]; intros H.
  - rewrite orb_false_r in H. apply is_prefix_spec in H as [b Hb].
    exists [], b. split; [done|]. intros; simpl; lia.
  - destruct (is_prefix p (c :: s)) eqn:Hp.
    + apply is_prefix_spec in Hp as [b Hb].
      exists [], b. split; [done|]. intros; simpl; lia.
    + simpl in H. destruct (IH H) as (a & b & Hs & Hmin).
      exists (c :: a), b. split; [by rewrite Hs|].
      intros a' b' Hab. destruct a' as [|c' a'].
      * assert (is_prefix p (c :: s) = true) by (apply is_prefix_spec; eauto).
        congruence.
      * injection Hab as -> Hab. specialize (Hmin _ _ Hab). simpl. lia.
Qed.

Lemma str_split1_absent (p s : text) :
  str_in p s = false -> str_split1 p s = [s].
Proof.
  induction s as [|c s IH]; cbn [str_in str_split1]; intros H.
  - apply orb_false_elim in H as [-> _]. done.
  - apply orb_false_elim in H as [-> H]. by rewrite (IH H).
Qed.

(** One turn of the loop: the first occurrence of the token is cut out and
    the formatted value written in its place. *)
Lemma while_placeholder_step (fuel : nat) (pad_year : bool) (data_row : row)
    (key : pyval) (a b cell : text) (run_text : text) :
  first_occurrence (placeholder_of key) a b run_text ->
  row_get data_row key = Some cell ->
  while_placeholder (S fuel) pad_year data_row key run_text
  = match run_set_text (a ++ Formatter.format_date pad_year cell ++ b) with
    | Returned t => while_placeholder fuel pad_year data_row key t
    | Raised t => Raised t
    | Unfinished => Unfinished
    end.
Proof.
  intros Hfirst Hcell. cbn [while_placeholder].
  assert (Hin : str_in (placeholder_of key) run_text = true).
  { apply str_in_spec. destruct Hfirst as [-> _]. eauto. }
  rewrite Hin, Hcell. by rewrite (str_split1_first _ a b).
Qed.

Lemma while_placeholder_absent (fuel : nat) (pad_year : bool) (data_row : row)
    (key : pyval) (run_text : text) :
  str_in (placeholder_of key) run_text = false ->
  while_placeholder (S fuel) pad_year data_row key run_text = Returned run_text.
Proof. intros H. cbn [while_placeholder]. by rewrite H. Qed.


Lemma process_run_untouched (fuel : nat) (pad_year : bool) (data_row : row)
    (run_text : text) :
  Forall (fun key => str_in (placeholder_of key) run_text = false)
    (row_index data_row) ->
  process_run (S fuel) pad_year data_row run_text = Returned run_text.
Proof.
  unfold process_run. induction 1 as [|key keys Hkey _ IH]; [done|].
  cbn [for_keys]. by rewrite while_placeholder_absent.
Qed.


Lemma append_to_run_returned (content bfr s t : text) :
  append_to_run content bfr s = Returned t ->
  t = content ++ bfr ++ map cr_to_lf s.
Proof.
  revert content bfr. induction s as [|c s IH]; intros content bfr; cbn [append_to_run].
  - unfold flush. destruct bfr as [|x bfr].
    + intros [= <-]. by rewrite app_nil_r.
    + destruct (forallb _ _); [|done]. intros [= <-]. by rewrite app_nil_r.
  - unfold cr_to_lf. cbn [map]. case_bool_decide as Htab.
    + subst c. rewrite bool_decide_eq_false_2 by done.
      unfold flush. destruct bfr as [|x bfr].
      * intros H. apply IH in H. by rewrite H, <- app_assoc.
      * destruct (forallb _ _); [|done]. intros H. apply IH in H.
        rewrite H. by rewrite <- !app_assoc.
    + case_bool_decide as Hcr.
      * subst c. cbn [orb]. unfold flush. destruct bfr as [|x bfr].
        -- intros H. apply IH in H. by rewrite H, <- app_assoc.
        -- destruct (forallb _ _); [|done]. intros H. apply IH in H.
           rewrite H. by rewrite <- !app_assoc.
      * cbn [orb]. case_bool_decide as Hlf.
        -- subst c. unfold flush. destruct bfr as [|x bfr].
           ++ intros H. apply IH in H. by rewrite H, <- app_assoc.
           ++ destruct (forallb _ _); [|done]. intros H. apply IH in H.
              rewrite H. by rewrite <- !app_assoc.
        -- intros H. apply IH in H. rewrite H. by rewrite <- !app_assoc.
Qed.


Lemma append_to_run_plain (content bfr s : text) :
  forallb (fun c => (32 <=? code c)%N) bfr = true ->
  forallb plain s = true ->
  append_to_run content bfr s = Returned (content ++ bfr ++ s).
Proof.
  revert content bfr. induction s as [|c s IH]; intros content bfr Hb Hs;
    cbn [append_to_run].
  - assert (Hf : flush content bfr = Some (content ++ bfr)).
    { unfold flush. destruct bfr as [|x bfr]; [by rewrite app_nil_r|].
      assert (forallb xml_char (x :: bfr) = true) as ->; [|done].
      apply forallb_forall. intros y Hy.
      eapply forallb_forall in Hb; [|exact Hy]. unfold xml_char. by rewrite Hb. }
    rewrite Hf. by rewrite app_nil_r.
  - cbn [forallb] in Hs. apply andb_prop in Hs as [Hc Hs].
    assert (Hf : flush content bfr = Some (content ++ bfr)).
    { unfold flush. destruct bfr as [|x bfr]; [by rewrite app_nil_r|].
      assert (forallb xml_char (x :: bfr) = true) as ->; [|done].
      apply forallb_forall. intros y Hy.
      eapply forallb_forall in Hb; [|exact Hy]. unfold xml_char. by rewrite Hb. }
    case_bool_decide as Htab.
    { subst c. rewrite Hf, IH by done. by rewrite <- !app_assoc. }
    case_bool_decide as Hcr.
    { subst c. done. }
    cbn [orb]. case_bool_decide as Hlf.
    { subst c. rewrite Hf, IH by done. by rewrite <- !app_assoc. }
    rewrite IH; [by rewrite <- !app_assoc| |done].
    rewrite forallb_app, Hb. cbn [forallb]. rewrite andb_true_r.
    unfold plain in Hc.
    destruct (32 <=? code c)%N; [done|]. cbn [orb] in Hc.
    apply orb_prop in Hc as [Hc|Hc]; apply N.eqb_eq in Hc; exfalso.
    + apply Htab. rewrite <- (ascii_N_embedding c). unfold code in Hc. by rewrite Hc.
    + apply Hlf. rewrite <- (ascii_N_embedding c). unfold code in Hc. by rewrite Hc.
Qed.

Lemma run_set_text_plain (s : text) :
  forallb plain s = true -> run_set_text s = Returned s.
Proof. intros H. unfold run_set_text. by rewrite append_to_run_plain. Qed.

Lemma dollars_app (s t : text) : dollars (s ++ t) = dollars s + dollars t.
Proof. unfold dollars. by rewrite filter_app, length_app. Qed.

Lemma dollars_absent (s : text) : "$"%char ∉ s -> dollars s = 0.
Proof.
  unfold dollars. induction s as [|c s IH]; [done|]. intros H.
  rewrite filter_cons_False by set_solver. apply IH. set_solver.
Qed.

Lemma dollars_cons (c : ascii) (s : text) :
  dollars (c :: s) = (if decide (c = "$"%char) then 1 else 0) + dollars s.
Proof. unfold dollars. rewrite filter_cons. by destruct (decide _). Qed.

Lemma dollars_cr_to_lf (s : text) : dollars (map cr_to_lf s) = dollars s.
Proof.
  induction s as [|c s IH]; [done|].
  cbn [map]. rewrite !dollars_cons, IH. unfold cr_to_lf.
  case_bool_decide as Hc; [|done].
  subst c. by rewrite !decide_False by done.
Qed.

Lemma dollars_placeholder (key : pyval) : 1 <= dollars (placeholder_of key).
Proof.
  unfold placeholder_of. rewrite dollars_app.
  change (dollars (tx "${")) with 1. lia.
Qed.





(** *** Termination *)


Lemma run_set_text_dollars (s t : text) :
  run_set_text s = Returned t -> dollars t = dollars s.
Proof.
  intros H. apply append_to_run_returned in H. subst t.
  simpl. apply dollars_cr_to_lf.
Qed.

Section Termination.
Context (pad_year : bool) (data_row : row).
Hypothesis no_dollar : forall key cell,
  row_get data_row key = Some cell ->
  "$"%char ∉ Formatter.format_date pad_year cell.

Lemma turn_decreases (key : pyval) (a b cell t : text) :
  row_get data_row key = Some cell ->
  run_set_text (a ++ Formatter.format_date pad_year cell ++ b) = Returned t ->
  dollars t < dollars (a ++ placeholder_of key ++ b).
Proof.
  intros Hcell Hset. rewrite (run_set_text_dollars _ _ Hset).
  rewrite !dollars_app. rewrite (dollars_absent (Formatter.format_date _ _)) by eauto.
  pose proof (dollars_placeholder key). lia.
Qed.

Lemma while_placeholder_total (key : pyval) (fuel : nat) (run_text : text) :
  dollars run_text < fuel ->
  match while_placeholder fuel pad_year data_row key run_text with
  | Returned t => dollars t <= dollars run_text
  | Raised _ => True
  | Unfinished => False
  end.
Proof.
  revert run_text. induction fuel as [|fuel IH]; intros run_text Hfuel; [lia|].
  destruct (str_in (placeholder_of key) run_text) eqn:Hin.
  - apply str_in_first in Hin as (a & b & Hfirst).
    destruct (row_get data_row key) as [cell|] eqn:Hcell.
    + rewrite (while_placeholder_step _ _ _ _ a b cell) by done.
      destruct (run_set_text _) as [t| |] eqn:Hset; [|done|].
      * pose proof (turn_decreases key a b cell t Hcell Hset) as Hlt.
        destruct Hfirst as [-> _].
        specialize (IH t ltac:(lia)).
        destruct (while_placeholder fuel _ _ _ t); [lia|done|done].
      * unfold run_set_text in Hset.
        clear -Hset. exfalso. revert Hset.
        generalize (a ++ Formatter.format_date pad_year cell ++ b).
        generalize (@nil ascii) at 1. generalize (@nil ascii).
        intros bfr content s. revert content bfr.
        induction s as [|c s IHs]; intros content bfr; cbn [append_to_run].
        -- by destruct (flush content bfr).
        -- repeat case_bool_decide; cbn [orb];
             try (destruct (flush content bfr); [apply IHs|done]); apply IHs.
    + cbn [while_placeholder]. destruct Hfirst as [Hs _].
      assert (Hin : str_in (placeholder_of key) run_text = true).
      { apply str_in_spec. eauto. }
      by rewrite Hin, Hcell.
  - by rewrite while_placeholder_absent.
Qed.

Lemma for_keys_total (keys : list pyval) (fuel : nat) (run_text : text) :
  dollars run_text < fuel ->
  for_keys fuel pad_year data_row keys run_text <> Unfinished.
Proof.
  revert run_text. induction keys as [|key keys IH]; intros run_text Hfuel; [done|].
  cbn [for_keys]. pose proof (while_placeholder_total key fuel run_text Hfuel) as H.
  destruct (while_placeholder fuel _ _ key run_text); [|done|done].
  apply IH. lia.
Qed.
End Termination.

(** C10 (as amended).  When no formatted value of the row holds a [$], every
    turn of the loop strictly lowers the number of [$] characters of the
    run, and [process_run] ends (returns or raises) within that number of
    turns per key: it is total on such rows. *)
Theorem process_run_terminates (pad_year : bool) (data_row : row) :
  (forall key cell,
      row_get data_row key = Some cell ->
      "$"%char ∉ Formatter.format_date pad_year cell) ->
  (forall key a b cell t,
      row_get data_row key = Some cell ->
      run_set_text (a ++ Formatter.format_date pad_year cell ++ b) = Returned t ->
      dollars t < dollars (a ++ placeholder_of key ++ b))
  /\ (forall run_text fuel,
         dollars run_text < fuel ->
         process_run fuel pad_year data_row run_text <> Unfinished).
Proof.
  intros Hno. split.
  - intros. by eapply turn_decreases.
  - intros. by apply for_keys_total.
Qed.

Lemma process_run_terminates_witness :
  process_run 3 true [(PyStr (tx "name"), tx "X")] (tx "${name} and ${name} again")
  <> Unfinished.
Proof.
  apply (process_run_terminates true [(PyStr (tx "name"), tx "X")]).
  - intros key cell H. simpl in H. destruct (decide _); [|done].
    injection H as <-. apply (bool_decide_eq_false_1 _). by vm_compute.
  - vm_compute. lia.
Defined.

(** *** A loop that never ends although the value does not hold the token *)

Lemma first_occurrence_here (p b : text) :
  first_occurrence p [] b (p ++ b).
Proof. split; [done|]. intros; simpl; lia. Qed.

Lemma first_occurrence_skip (p a b s : text) (c : ascii) :
  is_prefix p (c :: s) = false ->
  first_occurrence p a b s -> first_occurrence p (c :: a) b (c :: s).
Proof.
  intros Hp [Hs Hmin]. split; [by rewrite Hs|].
  intros a' b' Hab. destruct a' as [|c' a'].
  - assert (is_prefix p (c :: s) = true) by (apply is_prefix_spec; eauto).
    congruence.
  - injection Hab as -> Hab. specialize (Hmin _ _ Hab). simpl. lia.
Qed.


Section DivergingTurns.
Import Placeholder Diverging.

Lemma rep_snoc (n : nat) (x : text) : rep n x ++ x = x ++ rep n x.
Proof.
  induction n as [|n IH]; simpl; [by rewrite app_nil_r|].
  by rewrite <- app_assoc, IH.
Qed.

Lemma rep_plain (n : nat) (x : text) :
  forallb plain x = true -> forallb plain (rep n x) = true.
Proof.
  intros Hx. induction n as [|n IH]; [done|].
  simpl. by rewrite forallb_app, Hx, IH.
Qed.

Lemma first_occurrence_blocks (n : nat) (a b s : text) :
  first_occurrence token a b s ->
  first_occurrence token (rep n (tx "{k}{k}") ++ a) b (rep n (tx "{k}{k}") ++ s).
Proof.
  intros H. induction n as [|n IH]; [done|].
  cbn [rep]. rewrite <- !app_assoc. simpl.
  repeat (apply first_occurrence_skip; [reflexivity|]). exact IH.
Qed.

Lemma odd_turn (fuel n : nat) :
  while_placeholder (S fuel) true data_row key (odd_text n)
  = while_placeholder fuel true data_row key (even_text n).
Proof.
  rewrite (while_placeholder_step fuel true data_row key
             (rep n (tx "{k}{k}") ++ tx "$") (rep n (tx "$$")) value).
  - change (Formatter.format_date true value) with value.
    rewrite run_set_text_plain.
    + f_equal. unfold even_text. by rewrite <- !app_assoc.
    + rewrite !forallb_app, !rep_plain by done. done.
  - unfold odd_text. apply first_occurrence_blocks.
    apply (first_occurrence_skip token [] _ _ "$"%char); [reflexivity|].
    apply (first_occurrence_here token).
  - reflexivity.
Qed.

Lemma even_turn (fuel n : nat) :
  while_placeholder (S fuel) true data_row key (even_text n)
  = while_placeholder fuel true data_row key (odd_text (S n)).
Proof.
  rewrite (while_placeholder_step fuel true data_row key
             (rep n (tx "{k}{k}")) (tx "{k}$$" ++ rep n (tx "$$")) value).
  - change (Formatter.format_date true value) with value.
    rewrite run_set_text_plain.
    + f_equal. unfold odd_text. cbn [rep].
      change value with (tx "{k}{k}" ++ tx "$$").
      change (tx "{k}$$") with (tx "{k}" ++ tx "$$").
      change (tx "$${k}") with (tx "$$" ++ tx "{k}").
      rewrite <- !app_assoc. rewrite (app_assoc (rep n _) (tx "{k}{k}")).
      by rewrite rep_snoc, <- !app_assoc.
    + rewrite !forallb_app, !rep_plain by done. done.
  - unfold even_text.
    rewrite <- (app_nil_r (rep n (tx "{k}{k}"))) at 1.
    apply first_occurrence_blocks. apply (first_occurrence_here token).
  - reflexivity.
Qed.

Lemma turns_never_end (fuel : nat) :
  forall n,
    while_placeholder fuel true data_row key (odd_text n) = Unfinished
    /\ while_placeholder fuel true data_row key (even_text n) = Unfinished.
Proof.
  induction fuel as [|fuel IH]; intros n; [done|].
  rewrite odd_turn, even_turn. split; apply IH.
Qed.

(** C10 fails as stated: the value "{k}{k}$$" of the column "k" does not
    hold the token "${k}", a turn on "${k}{k}$$" takes the number of
    occurrences from one to one, and on the run "$${k}" the loop never
    ends. *)
Lemma process_run_diverges :
  str_in token (Formatter.format_date true value) = false
  /\ (forall fuel : nat,
         process_run fuel true data_row (tx "$${k}") = Unfinished).
Proof.
  split; [by vm_compute|]. intros fuel. unfold process_run. cbn [row_index map fst data_row for_keys].
  change (tx "$${k}") with (odd_text 0).
  by rewrite (proj1 (turns_never_end fuel 0)).
Qed.
End DivergingTurns.

(** ** Form-field merger *)

Import Xml Fields StatedFields.

Lemma shape_lookup (s s' : list node) (j : nat) :
  shape <$> s = shape <$> s' -> shape <$> (s !! j) = shape <$> (s' !! j).
Proof. intros H. by rewrite <- !list_lookup_fmap, H. Qed.

Lemma shape_alter (s : list node) (t : nat) (v : text) :
  shape <$> alter (with_text v) t s = shape <$> s.
Proof.
  apply list_eq. intros j. rewrite !list_lookup_fmap.
  destruct (decide (j = t)) as [->|Hne].
  - rewrite list_lookup_alter_eq. by destruct (s !! t).
  - by rewrite list_lookup_alter_ne.
Qed.

Lemma shape_has_tag (s s' : list node) (tag : text) (j : nat) :
  shape <$> s = shape <$> s' -> has_tag s tag j = has_tag s' tag j.
Proof.
  intros H. pose proof (shape_lookup s s' j H) as Hj. unfold has_tag.
  destruct (s !! j) as [n|], (s' !! j) as [n'|]; try done.
  by injection Hj as -> _ _.
Qed.

Lemma shape_findall (s s' : list node) (i : nat) (tag : text) :
  shape <$> s = shape <$> s' -> findall s i tag = findall s' i tag.
Proof.
  intros H. pose proof (shape_lookup s s' i H) as Hi. unfold findall.
  destruct (s !! i) as [n|], (s' !! i) as [n'|]; try done.
  injection Hi as _ _ ->. apply List.filter_ext. intros j.
  by apply shape_has_tag.
Qed.

Lemma shape_attrib (s s' : list node) (j : nat) :
  shape <$> s = shape <$> s' ->
  default [] (n_attrib <$> s !! j) = default [] (n_attrib <$> s' !! j).
Proof.
  intros H. pose proof (shape_lookup s s' j H) as Hj.
  destruct (s !! j) as [n|], (s' !! j) as [n'|]; try done.
  injection Hj as _ Ha _. simpl. exact Ha.
Qed.

Lemma findall_range (s : list node) (i j : nat) (tag : text) :
  j ∈ findall s i tag -> i < j <= i + extent s i /\ has_tag s tag j = true.
Proof.
  unfold findall, extent. destruct (s !! i) as [n|]; [|by intros ?%elem_of_nil].
  intros H%list_elem_of_In%List.filter_In. destruct H as [H%List.in_seq Htag].
  simpl. split; [lia|done].
Qed.

Lemma row_get_index (data_row : row) (key : pyval) :
  key ∈ row_index data_row -> is_Some (row_get data_row key).
Proof.
  induction data_row as [|[k v] r IH]; [by intros ?%elem_of_nil|].
  simpl. destruct (decide (k = key)); [eauto|].
  intros [?|?]%elem_of_cons; [done|by apply IH].
Qed.

Lemma normalized_keys_in_index (data_row : row) (n : text) (key : pyval) :
  normalized_keys data_row !! n = Some key -> key ∈ row_index data_row.
Proof.
  rewrite normalized_keys_last_keys.
  intros [l Hl]%last_Some.
  assert (Hin : key ∈ filter (fun k => Normalizer.normalize_string k = n)
                       (row_index data_row)) by (rewrite Hl; set_solver).
  by apply list_elem_of_filter in Hin as [_ ?].
Qed.

Import FieldUpdates.

Section FieldFacts.
Context (pad_year : bool) (data_row : row) (store : list node).

Lemma fill_sdt_write (s : list node) (sdt : nat) :
  storable pad_year data_row ->
  shape <$> s = shape <$> store ->
  fill_sdt pad_year data_row (normalized_keys data_row) s sdt
  = Returned (write s (update pad_year data_row store sdt)).
Proof.
  intros Hst Hs. unfold fill_sdt, update, binding, field_tag, resolve, first_text_run.
  unfold find. rewrite !(shape_findall s store) by done.
  destruct (head (findall store sdt (w "tag"))) as [tag_elem|]; [|done].
  rewrite (shape_attrib s store) by done.
  cbn -[Normalizer.normalize_string normalized_keys Formatter.format_date findall w].
  destruct (store !! tag_elem) as [n|]; [|done].
  cbn -[Normalizer.normalize_string normalized_keys Formatter.format_date findall w].
  destruct (attrib_get (n_attrib n) (w "val")) as [tag|]; [|done].
  cbn -[Normalizer.normalize_string normalized_keys Formatter.format_date findall w].
  destruct (normalized_keys data_row !! _) as [key|] eqn:Hkey; [|done].
  cbn -[Normalizer.normalize_string normalized_keys Formatter.format_date findall w].
  destruct (row_get_index data_row key) as [cell Hcell].
  { by eapply normalized_keys_in_index. }
  rewrite Hcell.
  cbn -[Normalizer.normalize_string normalized_keys Formatter.format_date findall w].
  destruct (findall store sdt (w "t")) as [|t ts]; [done|].
  cbn [head write]. unfold Docx.element_set_text. by rewrite (Hst key cell).
Qed.

Lemma merge_form_fields_writes (l : list nat) (s : list node) :
  storable pad_year data_row ->
  shape <$> s = shape <$> store ->
  for_each (fill_sdt pad_year data_row (normalized_keys data_row)) s l
  = Returned (foldl (fun s sdt => write s (update pad_year data_row store sdt)) s l).
Proof.
  intros Hst. revert s. induction l as [|sdt l IH]; intros s Hs; [done|].
  cbn [for_each foldl]. rewrite fill_sdt_write by done.
  apply IH. destruct (update _ _ _ sdt) as [[t v]|]; [|done].
  cbn [write]. by rewrite shape_alter.
Qed.

Lemma writes_shape (l : list nat) (s : list node) :
  shape <$> foldl (fun s sdt => write s (update pad_year data_row store sdt)) s l
  = shape <$> s.
Proof.
  revert s. induction l as [|sdt l IH]; intros s; [done|].
  cbn [foldl]. rewrite IH. destruct (update _ _ _ sdt) as [[t v]|]; [|done].
  apply shape_alter.
Qed.

Lemma writes_elsewhere (l : list nat) (s : list node) (k : nat) :
  (forall sdt t v, sdt ∈ l -> update pad_year data_row store sdt = Some (t, v) -> t <> k) ->
  foldl (fun s sdt => write s (update pad_year data_row store sdt)) s l !! k = s !! k.
Proof.
  revert s. induction l as [|sdt l IH]; intros s H; [done|].
  cbn [foldl]. rewrite IH by (intros; eapply H; [by apply list_elem_of_further|done]).
  destruct (update _ _ _ sdt) as [[t v]|] eqn:Hu; [|done].
  cbn [write]. apply list_lookup_alter_ne. eapply H; [apply list_elem_of_here|done].
Qed.

Lemma writes_here (l : list nat) (s : list node) (sdt t : nat) (v : text) :
  sdt ∈ l ->
  update pad_year data_row store sdt = Some (t, v) ->
  (forall sdt' t' v', sdt' ∈ l -> sdt' <> sdt ->
                      update pad_year data_row store sdt' = Some (t', v') -> t' <> t) ->
  foldl (fun s sdt => write s (update pad_year data_row store sdt)) s l !! t
  = with_text v <$> s !! t.
Proof.
  revert s. induction l as [|x l IH]; intros s Hin Hu Hother.
  { by apply elem_of_nil in Hin. }
  cbn [foldl]. destruct (decide (x = sdt)) as [->|Hx].
  - rewrite Hu. cbn [write]. destruct (decide (sdt ∈ l)) as [Hl|Hl].
    + rewrite IH; [|done|done|].
      * rewrite list_lookup_alter_eq. by destruct (s !! t).
      * intros. eapply Hother; [by apply list_elem_of_further|done|done].
    + rewrite writes_elsewhere.
      * apply list_lookup_alter_eq.
      * intros sdt' t' v' Hin' Hu'. eapply Hother; [by apply list_elem_of_further| |done].
        intros ->. done.
  - rewrite IH; [| |done|].
    + destruct (update _ _ _ x) as [[t' v']|] eqn:Hux; [|done].
      cbn [write]. rewrite list_lookup_alter_ne; [done|].
      eapply Hother; [apply list_elem_of_here|done|done].
    + apply elem_of_cons in Hin as [->|Hin]; done.
    + intros. eapply Hother; [by apply list_elem_of_further|done|done].
Qed.

Lemma update_in_field (sdt t : nat) (v : text) :
  update pad_year data_row store sdt = Some (t, v) ->
  sdt < t <= sdt + extent store sdt.
Proof.
  unfold update, first_text_run. destruct (binding _ _ _ _); [|done].
  destruct (findall store sdt (w "t")) as [|t' ts] eqn:E; [done|].
  intros [= <- <-]. eapply findall_range. rewrite E. apply list_elem_of_here.
Qed.
End FieldFacts.

Lemma apart_targets (pad_year : bool) (data_row : row) (store : list node)
    (sdt sdt' k t' : nat) (v' : text) :
  fields_apart store ->
  sdt ∈ form_fields store -> sdt' ∈ form_fields store -> sdt' <> sdt ->
  update pad_year data_row store sdt' = Some (t', v') ->
  in_field store sdt k -> t' <> k.
Proof.
  intros Hap Hs Hs' Hne Hu [Hlo Hhi].
  apply update_in_field in Hu as [Hlo' Hhi'].
  destruct (decide (sdt < sdt')) as [Hlt|Hge].
  - pose proof (Hap sdt sdt' Hs Hs' Hlt). lia.
  - assert (Hlt : sdt' < sdt) by lia.
    pose proof (Hap sdt' sdt Hs' Hs Hlt). lia.
Qed.

(** C4 (as amended).  When no form field lies inside another one and every
    formatted cell is a text the document can hold, the form-field pass
    completes; a field whose tag resolves through key normalization to a
    column has exactly its first text run overwritten with the formatted
    value of that column, every field bound to that column from the same
    value; a field without a tag value, with a tag that resolves to no
    column, or without a text run keeps every node it holds, and so does
    everything outside the fields.  Only texts change. *)
Theorem merge_form_fields_fills (pad_year : bool) (data_row : row)
    (store : list node) :
  fields_apart store ->
  storable pad_year data_row ->
  exists store',
    merge_form_fields pad_year data_row (normalized_keys data_row) store
    = Returned store'
    /\ shape <$> store' = shape <$> store
    /\ (forall sdt, sdt ∈ form_fields store ->
          match binding pad_year data_row store sdt, first_text_run store sdt with
          | Some value, Some t =>
              in_field store sdt t
              /\ store' !! t = with_text value <$> store !! t
              /\ (forall k, in_field store sdt k -> k <> t ->
                            store' !! k = store !! k)
          | _, _ => forall k, in_field store sdt k -> store' !! k = store !! k
          end)
    /\ (forall k, (forall sdt, sdt ∈ form_fields store -> ~ in_field store sdt k) ->
                  store' !! k = store !! k).
Proof.
  intros Hap Hst. eexists. split; [|split; [|split]].
  - unfold merge_form_fields. by apply (merge_form_fields_writes pad_year data_row store).
  - apply writes_shape.
  - intros sdt Hsdt.
    destruct (update pad_year data_row store sdt) as [[t v]|] eqn:Hu.
    + pose proof Hu as Hu'. unfold update in Hu'.
      destruct (binding _ _ _ sdt) as [value|]; [|done].
      destruct (first_text_run store sdt) as [t0|]; [|done].
      injection Hu' as -> ->. split; [|split].
      * apply update_in_field in Hu. unfold in_field. lia.
      * apply (writes_here _ _ _ _ _ sdt); [done|done|].
        intros sdt' t' v' Hs' Hne Hu'.
        eapply (apart_targets _ _ _ sdt sdt'); [done..|].
        apply update_in_field in Hu. unfold in_field. lia.
      * intros k Hk Hkt. apply writes_elsewhere.
        intros sdt' t' v' Hs' Hu'. destruct (decide (sdt' = sdt)) as [->|Hne].
        -- rewrite Hu in Hu'. by injection Hu' as <- _.
        -- by eapply (apart_targets _ _ _ sdt sdt').
    + assert (Hnone : forall k, in_field store sdt k ->
                foldl (fun s sdt => write s (update pad_year data_row store sdt))
                  store (findall store 0 (w "sdt")) !! k = store !! k).
      { intros k Hk. apply writes_elsewhere.
        intros sdt' t' v' Hs' Hu'. destruct (decide (sdt' = sdt)) as [->|Hne].
        - congruence.
        - by eapply (apart_targets _ _ _ sdt sdt'). }
      unfold update in Hu.
      destruct (binding _ _ _ sdt) as [value|]; [|done].
      by destruct (first_text_run store sdt).
  - intros k Hout. apply writes_elsewhere.
    intros sdt' t' v' Hs' Hu' ->. apply (Hout sdt' Hs').
    apply update_in_field in Hu'. unfold in_field. lia.
Qed.

Import Samples.

Lemma mail_fields_apart : fields_apart mail_fields.
Proof.
  intros i j Hi Hj Hlt.
  change (form_fields mail_fields) with [2; 8; 14] in Hi, Hj.
  repeat (apply elem_of_cons in Hi as [->|Hi]);
    [ | | | by apply elem_of_nil in Hi];
    repeat (apply elem_of_cons in Hj as [->|Hj]);
    try (by apply elem_of_nil in Hj); try lia; vm_compute; lia.
Qed.

Lemma mail_row_storable : storable true mail_row.
Proof.
  intros key cell H. simpl in H. destruct (decide _); [|done].
  injection H as <-. by vm_compute.
Qed.

(** The fields tagged "Email " and "email" are both filled from the column
    "email"; the field tagged "Fax" keeps its text. *)
Lemma merge_form_fields_fills_witness :
  exists store',
    merge_form_fields true mail_row (normalized_keys mail_row) mail_fields
    = Returned store'
    /\ n_text <$> store' !! 7 = Some (tx "a@b.fr")
    /\ n_text <$> store' !! 13 = Some (tx "no fax")
    /\ n_text <$> store' !! 19 = Some (tx "a@b.fr").
Proof.
  destruct (merge_form_fields_fills true mail_row mail_fields
              mail_fields_apart mail_row_storable)
    as (store' & Hret & _ & Hfields & _).
  exists store'. split; [exact Hret|].
  pose proof (Hfields 2 ltac:(by vm_compute; apply list_elem_of_here)) as H2.
  pose proof (Hfields 8 ltac:(by vm_compute; apply list_elem_of_further, list_elem_of_here)) as H8.
  pose proof (Hfields 14 ltac:(by vm_compute; do 2 apply list_elem_of_further; apply list_elem_of_here)) as H14.
  change (binding true mail_row mail_fields 2) with (Some (tx "a@b.fr")) in H2.
  change (first_text_run mail_fields 2) with (Some 7) in H2.
  change (binding true mail_row mail_fields 8) with (@None text) in H8.
  change (binding true mail_row mail_fields 14) with (Some (tx "a@b.fr")) in H14.
  change (first_text_run mail_fields 14) with (Some 19) in H14.
  destruct H2 as (_ & H2 & _). destruct H14 as (_ & H14 & _).
  rewrite H2, H14, (H8 13) by (vm_compute; lia).
  vm_compute. repeat split; reflexivity.
Defined.

(** C4 fails as stated: the field at node 6 has no tag, and its text run
    (node 10) is overwritten, being the first text run of the tagged field
    around it. *)
Lemma untagged_field_overwritten :
  form_fields nested_fields = [2; 6]
  /\ field_tag nested_fields 6 = None
  /\ first_text_run nested_fields 6 = Some 10
  /\ n_text <$> nested_fields !! 10 = Some (tx "inner text")
  /\ match merge_form_fields true mail_row (normalized_keys mail_row) nested_fields with
     | Returned store' => n_text <$> store' !! 10 = Some (tx "a@b.fr")
     | _ => False
     end.
Proof. by vm_compute. Qed.

(** ** Template engine *)

Import Body Engine.


Lemma preserves_refl (fs : filesystem) : preserves fs fs.
Proof. intros q. by left. Qed.

Lemma preserves_trans (fs1 fs2 fs3 : filesystem) :
  preserves fs1 fs2 -> preserves fs2 fs3 -> preserves fs1 fs3.
Proof.
  intros H12 H23 q. destruct (H12 q) as [E12|[E1 E2]], (H23 q) as [E23|[E2' E3]].
  - left. congruence.
  - right. split; congruence.
  - right. split; congruence.
  - congruence.
Qed.

Lemma preserves_held (fs fs' : filesystem) (q : path) (f : file) :
  preserves fs fs' -> fs !! q = Some f -> fs' !! q = Some f.
Proof. intros H Hq. destruct (H q) as [E|[E _]]; congruence. Qed.

Lemma mkdir_preserves (fs fs' : filesystem) (p : path) :
  mkdir fs p = Some fs' -> preserves fs fs'.
Proof.
  unfold mkdir. destruct (is_dir fs p); [intros [= <-]; apply preserves_refl|].
  destruct (path_exists fs p) eqn:Hex; [done|].
  destruct (is_dir fs (parent p)); [|done]. intros [= <-] q.
  destruct (decide (q = p)) as [->|Hne].
  - right. rewrite lookup_insert_eq. split; [|done].
    unfold path_exists in Hex. destruct p; [done|].
    apply bool_decide_eq_false in Hex. by apply eq_None_not_Some.
  - left. by rewrite lookup_insert_ne.
Qed.

Lemma mkdir_parents_preserves (fs fs' : filesystem) (p : path) :
  mkdir_parents fs p = Some fs' -> preserves fs fs'.
Proof.
  unfold mkdir_parents. generalize (seq 1 (length p)). intros l.
  revert fs. induction l as [|i l IH]; intros fs.
  - intros [= <-]. apply preserves_refl.
  - cbn [foldl]. cbn [mbind option_bind].
    destruct (mkdir fs (take i p)) as [fs1|] eqn:E.
    + intros H. eapply preserves_trans; [by eapply mkdir_preserves|by apply IH].
    + intros H. exfalso. revert H. clear. induction l as [|j l IHl]; [done|].
      cbn [foldl mbind option_bind]. exact IHl.
Qed.

Lemma load_preserved (fs fs' : filesystem) (p : path) (d : document) :
  preserves fs fs' -> load fs p = Some d -> load fs' p = Some d.
Proof.
  unfold load. intros H. destruct (fs !! p) as [[d0 st| |]|] eqn:E; try done.
  intros [= ->]. by rewrite (preserves_held fs fs' p _ H E).
Qed.

Lemma load_held (fs fs' : filesystem) (p : path) (d : document) :
  preserves fs fs' -> path_exists fs p = true -> p <> [] ->
  load fs' p = Some d -> load fs p = Some d.
Proof.
  unfold load, path_exists. intros H Hex Hp. destruct p as [|c p]; [done|].
  apply bool_decide_eq_true in Hex as [f Hf].
  by rewrite (preserves_held fs fs' _ _ H Hf), Hf.
Qed.

(** What a call that returns a path has done. *)
Lemma create_word_returns (fuel : nat) (pad_year : bool) (env : environment)
    (fs fs' : filesystem) (template_path : path) (data_row : row)
    (output_path : option path) (p : path) :
  create_word_from_template fuel pad_year env fs template_path data_row output_path
  = Result fs' (Some p) ->
  exists fs2 d d',
    preserves fs fs2
    /\ path_exists fs template_path = true
    /\ load fs2 template_path = Some d
    /\ merge fuel pad_year data_row d = Some d'
    /\ fs' = <[p := Docx d' (clock env)]> fs2
    /\ (forall o, output_path = Some o -> p = o).
Proof.
  unfold create_word_from_template.
  destruct (path_exists fs template_path) eqn:Hex; [|done]. cbn [negb].
  destruct output_path as [o|].
  - destruct (mkdir_parents fs (parent o)) as [fs2|] eqn:Hmk; [|done].
    destruct (load fs2 template_path) as [d|] eqn:Hload; [|done].
    destruct (merge fuel pad_year data_row d) as [d'|] eqn:Hmerge; [|done].
    unfold save. destruct (is_dir fs2 o); [done|].
    destruct (is_dir fs2 (parent o)); [|done].
    intros [= <- <-]. exists fs2, d, d'.
    repeat split; try done; [by eapply mkdir_parents_preserves|by intros ? [= ->]].
  - unfold create_temp_directory. cbn [mbind option_bind].
    destruct (mkdir fs _) as [fs1|] eqn:Htmp; [|done]. cbn [mbind option_bind].
    destruct (mkdir_parents fs1 _) as [fs2|] eqn:Hmk; [|done].
    destruct (load fs2 template_path) as [d|] eqn:Hload; [|done].
    destruct (merge fuel pad_year data_row d) as [d'|] eqn:Hmerge; [|done].
    unfold save. destruct (is_dir fs2 _); [done|].
    destruct (is_dir fs2 (parent _)); [|done].
    intros [= <- <-]. exists fs2, d, d'. repeat split; try done.
    eapply preserves_trans; [by eapply mkdir_preserves|by eapply mkdir_parents_preserves].
Qed.

(** A call that returns [None] has written no document. *)
Lemma create_word_fails (fuel : nat) (pad_year : bool) (env : environment)
    (fs fs' : filesystem) (template_path : path) (data_row : row)
    (output_path : option path) :
  create_word_from_template fuel pad_year env fs template_path data_row output_path
  = Result fs' None ->
  preserves fs fs'.
Proof.
  unfold create_word_from_template.
  destruct (path_exists fs template_path) eqn:Hex;
    [|intros [= <-]; apply preserves_refl]. cbn [negb].
  destruct output_path as [o|].
  - destruct (mkdir_parents fs (parent o)) as [fs2|] eqn:Hmk;
      [|intros [= <-]; apply preserves_refl].
    apply mkdir_parents_preserves in Hmk.
    destruct (load fs2 template_path) as [d|]; [|by intros [= <-]].
    destruct (merge fuel pad_year data_row d) as [d'|]; [|done].
    destruct (save env fs2 d' o); [done|by intros [= <-]].
  - unfold create_temp_directory. cbn [mbind option_bind].
    destruct (mkdir fs _) as [fs1|] eqn:Htmp;
      [|intros [= <-]; apply preserves_refl]. cbn [mbind option_bind].
    apply mkdir_preserves in Htmp.
    destruct (mkdir_parents fs1 _) as [fs2|] eqn:Hmk; [|by intros [= <-]].
    apply mkdir_parents_preserves in Hmk.
    assert (preserves fs fs2) by (by eapply preserves_trans).
    destruct (load fs2 template_path) as [d|]; [|by intros [= <-]].
    destruct (merge fuel pad_year data_row d) as [d'|]; [|done].
    destruct (save env fs2 d' _); [done|by intros [= <-]].
Qed.

(** C6 (as amended).  A template path that does not exist gives [None] and
    leaves the file system as it was (no file, no directory).  Whatever the
    input, a call adds nothing but directories and the output document, and
    the document it writes is the loaded template after both merge passes
    have ended, each either completed or cut short by a caught exception. *)
Theorem create_word_saves_after_passes (fuel : nat) (pad_year : bool)
    (env : environment) (fs : filesystem) (template_path : path)
    (data_row : row) (output_path : option path) :
  (path_exists fs template_path = false ->
   create_word_from_template fuel pad_year env fs template_path data_row output_path
   = Result fs None)
  /\ (forall fs',
         create_word_from_template fuel pad_year env fs template_path data_row
           output_path = Result fs' None ->
         preserves fs fs')
  /\ (forall fs' p,
         create_word_from_template fuel pad_year env fs template_path data_row
           output_path = Result fs' (Some p) ->
         exists fs2 d store body,
           preserves fs fs2
           /\ load fs2 template_path = Some d
           /\ caught (Fields.merge_form_fields pad_year data_row
                        (normalized_keys data_row) (doc_element d)) = Some store
           /\ caught (merge_placeholders fuel pad_year data_row
                        (doc_paragraphs d) (doc_tables d)) = Some body
           /\ fs' = <[p := Docx (Document store (fst body) (snd body)) (clock env)]> fs2).
Proof.
  split; [|split].
  - intros Hex. unfold create_word_from_template. by rewrite Hex.
  - intros fs'. apply create_word_fails.
  - intros fs' p H. apply create_word_returns in H
      as (fs2 & d & d' & Hpres & _ & Hload & Hmerge & Hfs & _).
    unfold merge in Hmerge.
    destruct (caught (Fields.merge_form_fields _ _ _ _)) as [store|] eqn:Hs; [|done].
    cbn [mbind option_bind] in Hmerge.
    destruct (caught (merge_placeholders _ _ _ _ _)) as [body|] eqn:Hb; [|done].
    injection Hmerge as <-. exists fs2, d, store, body. repeat split; assumption.
Qed.

(** C6 fails as stated: the first run raises on the control character and
    the pass is given up, the second run still holds its token, which
    [process_run] would replace, and the document is saved so. *)
Lemma partly_merged_document_saved :
  match create_word_from_template 5 true (Samples.env_at 7)
          (Samples.disk Samples.two_tokens) Samples.template_path
          Samples.control_row (Some Samples.out1) with
  | Result fs' (Some p) =>
      p = Samples.out1
      /\ doc_paragraphs <$> load fs' p = Some [[tx ""]; [tx "${b}"]]
  | _ => False
  end
  /\ Placeholder.process_run 5 true Samples.control_row (tx "${b}")
     = Returned (tx "ok").
Proof. by vm_compute. Qed.

(** *** Failures inside a pass *)








(** C9 (as amended).  Filling the same template with the same row twice,
    each time from a fresh load, to two different paths, writes the same
    document twice; the two files differ at most by the time of the save
    their archive members carry, and are identical when the clock reads the
    same at both saves. *)
Theorem fill_twice_same_document (fuel : nat) (pad_year : bool)
    (env1 env2 : environment) (fs fs1 fs2 : filesystem)
    (template_path o1 o2 : path) (data_row : row) :
  template_path <> [] -> o1 <> template_path -> o1 <> o2 ->
  create_word_from_template fuel pad_year env1 fs template_path data_row (Some o1)
  = Result fs1 (Some o1) ->
  create_word_from_template fuel pad_year env2 fs1 template_path data_row (Some o2)
  = Result fs2 (Some o2) ->
  exists d,
    fs2 !! o1 = Some (Docx d (clock env1))
    /\ fs2 !! o2 = Some (Docx d (clock env2))
    /\ (clock env1 = clock env2 -> fs2 !! o1 = fs2 !! o2).
Proof.
  intros Ht Ho1 Ho12 H1 H2.
  apply create_word_returns in H1
    as (fsa & d & d' & Hpa & Hex & Hla & Hma & -> & _).
  apply create_word_returns in H2
    as (fsb & e & e' & Hpb & _ & Hlb & Hmb & -> & _).
  assert (Hd : load fs template_path = Some d) by (by eapply load_held).
  assert (He : load (<[o1:=Docx d' (clock env1)]> fsa) template_path = Some d).
  { unfold load. rewrite lookup_insert_ne by done. exact Hla. }
  pose proof (load_preserved _ _ _ _ Hpb He) as Hle.
  assert (e = d) as -> by congruence.
  assert (e' = d') as -> by congruence.
  exists d'.
  assert (E1 : <[o2:=Docx d' (clock env2)]> fsb !! o1 = Some (Docx d' (clock env1))).
  { rewrite lookup_insert_ne by done.
    eapply preserves_held; [exact Hpb|]. by rewrite lookup_insert_eq. }
  assert (E2 : <[o2:=Docx d' (clock env2)]> fsb !! o2 = Some (Docx d' (clock env2))).
  { by rewrite lookup_insert_eq. }
  split; [exact E1|]. split; [exact E2|]. intros Hc. by rewrite E1, E2, Hc.
Qed.

Lemma fill_twice_same_document_witness :
  exists (fs1 fs2 : filesystem) (d : document),
    create_word_from_template 5 true (Samples.env_at 7) (Samples.disk Samples.letter)
      Samples.template_path Samples.mail_row (Some Samples.out1)
    = Result fs1 (Some Samples.out1)
    /\ create_word_from_template 5 true (Samples.env_at 9) fs1
         Samples.template_path Samples.mail_row (Some Samples.out2)
       = Result fs2 (Some Samples.out2)
    /\ fs2 !! Samples.out1 = Some (Docx d 7)
    /\ fs2 !! Samples.out2 = Some (Docx d 9).
Proof.
  destruct (create_word_from_template 5 true (Samples.env_at 7)
              (Samples.disk Samples.letter) Samples.template_path
              Samples.mail_row (Some Samples.out1)) as [fs1 [p|]|] eqn:H1.
  2: { vm_compute in H1. discriminate H1. }
  2: { vm_compute in H1. discriminate H1. }
  assert (p = Samples.out1) as ->.
  { apply create_word_returns in H1 as (_ & _ & _ & _ & _ & _ & _ & _ & Hp).
    by apply Hp. }
  destruct (create_word_from_template 5 true (Samples.env_at 9) fs1
              Samples.template_path Samples.mail_row (Some Samples.out2))
    as [fs2 [p|]|] eqn:H2.
  - assert (p = Samples.out2) as ->.
    { apply create_word_returns in H2 as (_ & _ & _ & _ & _ & _ & _ & _ & Hp).
      by apply Hp. }
    destruct (fill_twice_same_document 5 true (Samples.env_at 7) (Samples.env_at 9)
                (Samples.disk Samples.letter) fs1 fs2 Samples.template_path
                Samples.out1 Samples.out2 Samples.mail_row
                ltac:(done) ltac:(done) ltac:(done) H1 H2) as (d & E1 & E2 & _).
    exists fs1, fs2, d. repeat split; assumption.
  - exfalso. vm_compute in H1. injection H1 as <-. vm_compute in H2. discriminate H2.
  - exfalso. vm_compute in H1. injection H1 as <-. vm_compute in H2. discriminate H2.
Defined.

(** C9 fails as stated: saved at two different times, the two files are not
    the same. *)
Lemma fill_twice_files_differ :
  match create_word_from_template 5 true (Samples.env_at 7)
          (Samples.disk Samples.letter) Samples.template_path
          Samples.mail_row (Some Samples.out1) with
  | Result fs1 (Some _) =>
      match create_word_from_template 5 true (Samples.env_at 9) fs1
              Samples.template_path Samples.mail_row (Some Samples.out2) with
      | Result fs2 (Some _) =>
          match fs2 !! Samples.out1, fs2 !! Samples.out2 with
          | Some (Docx d1 t1), Some (Docx d2 t2) => t1 <> t2
          | _, _ => False
          end
      | _ => False
      end
  | _ => False
  end.
Proof. by vm_compute. Qed.

(** ** The pipeline *)

Import Pipeline.



(** ** Further properties of the code *)

(** *** [extract_excel_row] *)

Import Sheet Further.

(** X1.  [extract_excel_row] returns a line exactly for the positions
    [-n .. n-1] of a readable sheet with [n > 0] lines (and a column): a
    position from 0 on counts from the first line, a negative one from the
    last, so the default -1 is the last line.  The position [n] passes the
    explicit bounds test and is refused by the lookup; the result is [None]
    all the same.  Every cell of the line is a [str], the empty cells
    empty. *)
Theorem extract_excel_row_bounds
    (read_excel : Engine.filesystem -> Engine.path -> option dataframe)
    (fs : Engine.filesystem) (p : Engine.path) (i : Z) :
  (forall r,
      extract_excel_row read_excel fs p i = Some r <->
      exists df cells,
        Engine.path_exists fs p = true
        /\ read_excel fs p = Some df
        /\ columns df <> []
        /\ (- Z.of_nat (length (records df)) <= i < Z.of_nat (length (records df)))%Z
        /\ records df
             !! Z.to_nat (i mod Z.of_nat (length (records df))) = Some cells
        /\ r = filled df cells)
  /\ (forall df,
         read_excel fs p = Some df -> i = (-1)%Z ->
         forall r, extract_excel_row read_excel fs p i = Some r ->
                   Some r = filled df <$> last (records df)).
Proof.
  assert (Hiloc : forall df cells,
             iloc df i = Some cells <->
             (- Z.of_nat (length (records df)) <= i < Z.of_nat (length (records df)))%Z
             /\ records df !! Z.to_nat (i mod Z.of_nat (length (records df)))
                = Some cells).
  { intros df cells. unfold iloc. set (n := Z.of_nat (length (records df))).
    destruct (decide (0 <= i < n)%Z) as [H|H].
    - rewrite Z.mod_small by lia. split; [intros; split; [lia|done]|by intros [_ ?]].
    - destruct (decide (- n <= i < 0)%Z) as [H'|H'].
      + replace (i mod n)%Z with (n + i)%Z.
        * split; [intros; split; [lia|done]|by intros [_ ?]].
        * symmetry. rewrite <- (Z.mod_small (n + i) n) by lia.
          rewrite <- (Z.mod_add i 1 n) by lia. f_equal. lia.
      + split; [done|]. intros [? _]. lia. }
  split.
  - intros r. unfold extract_excel_row.
    destruct (Engine.path_exists fs p) eqn:Hex; cbn [negb].
    2: { split; [done|]. by intros (? & ? & ? & _). }
    destruct (read_excel fs p) as [df|] eqn:Hread.
    2: { split; [done|]. by intros (? & ? & _ & ? & _). }
    destruct (df_empty df) eqn:Hempty.
    { split; [done|]. intros (df' & cells & _ & [= <-] & Hcol & Hrange & Hrec & _).
      unfold df_empty in Hempty. destruct (columns df); [done|].
      destruct (records df); [|done]. simpl in Hrange. lia. }
    destruct (decide (Z.of_nat (length (records df)) < Z.abs i)%Z) as [Habs|Habs].
    { split; [done|]. intros (df' & cells & _ & [= <-] & _ & Hrange & _). lia. }
    destruct (iloc df i) as [cells|] eqn:Hcells.
    + apply Hiloc in Hcells as [Hrange Hrec]. split.
      * intros [= <-]. exists df, cells. repeat split; try done; try lia.
        unfold df_empty in Hempty. by destruct (columns df).
      * intros (df' & cells' & _ & [= <-] & _ & _ & Hrec' & ->). congruence.
    + split; [done|]. intros (df' & cells' & _ & [= <-] & _ & Hrange & Hrec' & _).
      assert (iloc df i = Some cells') by (by apply Hiloc). congruence.
  - intros df Hread -> r. unfold extract_excel_row.
    destruct (negb _); [done|]. rewrite Hread.
    destruct (df_empty df); [done|]. destruct (decide _); [done|].
    destruct (iloc df (-1)) as [cells|] eqn:Hcells; [|done]. intros [= <-].
    unfold iloc in Hcells. destruct (decide (0 <= -1 < _)%Z); [lia|].
    destruct (decide _); [|done].
    rewrite last_lookup.
    replace (Init.Nat.pred (length (records df)))
      with (Z.to_nat (Z.of_nat (length (records df)) + -1)) by lia.
    by rewrite Hcells.
Qed.

(** *** [format_date] *)

Lemma re_match_length (pat : list cls) (s : text) :
  re_match pat s = true -> length pat <= length s <= S (length pat).
Proof.
  revert s. induction pat as [|k pat IH]; intros s H.
  - destruct s as [|c [|? ?]]; simpl in *; try done; lia.
  - destruct s as [|c s]; [done|]. cbn [re_match] in H.
    apply andb_prop in H as [_ H]. apply IH in H. simpl. lia.
Qed.

Lemma unpadded_length (s : text) : 1 <= length s -> 1 <= length (unpadded s) <= length s.
Proof.
  induction s as [|c s IH]; [simpl; lia|]. intros _.
  destruct s as [|d s]; [simpl; lia|].
  change (unpadded (c :: d :: s))
    with (if bool_decide (c = "0"%char) then unpadded (d :: s) else c :: d :: s).
  assert (H : 1 <= length (d :: s)) by (simpl; lia). specialize (IH H).
  revert IH. generalize (unpadded (d :: s)). intros u IH.
  destruct (bool_decide _); simpl in *; lia.
Qed.

Lemma strftime_length (pad_year : bool) (t : datetime) :
  7 <= length (strftime pad_year t) <= 10.
Proof.
  unfold strftime. rewrite !length_app. change (length (dec2 _)) with 2.
  change (length (tx "-")) with 1. destruct pad_year.
  - change (length (dec4 _)) with 4. lia.
  - pose proof (unpadded_length (dec4 (year t)) ltac:(simpl; lia)) as H.
    change (length (dec4 _)) with 4 in H. lia.
Qed.

(** A value the library accepts after the pattern did has 19 characters. *)
Lemma strptime_after_match (v : text) (t : datetime) :
  re_match date_pattern v = true -> strptime v = Some t -> length v = 19.
Proof.
  intros Hre Ht. unfold date_pattern in Hre.
  do 19 (destruct v as [|? v]; [discriminate Hre|];
         cbn [re_match] in Hre; apply andb_prop in Hre as [? Hre]).
  cbn [cls_match] in *.
  repeat match goal with
         | H : bool_decide _ = true |- _ => apply bool_decide_eq_true_1 in H; subst
         end.
  destruct v as [|c [|? ?]]; [done| |discriminate Hre].
  cbn [re_match] in Hre. apply bool_decide_eq_true_1 in Hre. subst c.
  exfalso.
  match type of Ht with
  | strptime [?y1; ?y2; ?y3; ?y4; _; ?m1; ?m2; _; ?d1; ?d2; ?w;
              ?H1; ?H2; _; ?M1; ?M2; _; ?S1; ?S2; _] = _ =>
      pose proof (strptime_shape_newline y1 y2 y3 y4 m1 m2 d1 d2 w H1 H2 M1 M2 S1 S2
                    ltac:(assumption) ltac:(assumption) ltac:(assumption)
                    ltac:(assumption) ltac:(assumption) ltac:(assumption)
                    ltac:(assumption) ltac:(assumption) ltac:(assumption)
                    ltac:(assumption) ltac:(assumption) ltac:(assumption)
                    ltac:(assumption) ltac:(assumption) ltac:(assumption)) as Hnl
  end.
  cbn [app] in Hnl. congruence.
Qed.

(** X2.  [format_date] settles after one call: what it returns it returns
    unchanged when called again, so a cell written into the document and
    read back by a later pass is not converted twice.  A value that changes
    has exactly 19 characters and becomes a text of 7 to 10 characters. *)
Theorem format_date_settles (pad_year : bool) (value : text) :
  format_date pad_year (format_date pad_year value) = format_date pad_year value
  /\ (format_date pad_year value = value
      \/ (length value = 19
          /\ 7 <= length (format_date pad_year value) <= 10)).
Proof.
  assert (Hout : forall t, format_date pad_year (strftime pad_year t)
                           = strftime pad_year t).
  { intros t. unfold format_date at 1.
    destruct (re_match date_pattern (strftime pad_year t)) eqn:Hre; [|done].
    apply re_match_length in Hre. pose proof (strftime_length pad_year t).
    change (length date_pattern) with 19 in Hre. lia. }
  unfold format_date at 2 3 4.
  destruct (re_match date_pattern value) eqn:Hre.
  - destruct (strptime value) as [t|] eqn:Ht.
    + split; [apply Hout|]. right. split.
      * by eapply strptime_after_match.
      * unfold format_date. rewrite Hre, Ht. apply strftime_length.
    + split; [|by left]. unfold format_date. by rewrite Hre, Ht.
  - split; [|by left]. unfold format_date. by rewrite Hre.
Qed.

(** *** [normalize_string] *)

Lemma str_split_words (Q : ascii -> bool) (s : text) :
  forallb (fun c => isspace c || Q c) s = true ->
  Forall (fun w => w <> [] /\ forallb (fun c => negb (isspace c) && Q c) w = true)
    (str_split s).
Proof.
  induction s as [|c s IH]; [constructor|]. intros H.
  cbn [forallb] in H. apply andb_prop in H as [Hc H]. specialize (IH H).
  cbn [str_split]. destruct (isspace c) eqn:Ec; [exact IH|].
  cbn [orb] in Hc.
  assert (Hw : forall w, forallb (fun c => negb (isspace c) && Q c) w = true ->
                         forallb (fun c => negb (isspace c) && Q c) (c :: w) = true).
  { intros w Hw. cbn [forallb]. by rewrite Ec, Hc, Hw. }
  destruct s as [|d s'].
  - constructor; [|constructor]. split; [done|]. by apply Hw.
  - destruct (isspace d) eqn:Ed.
    + constructor; [|exact IH]. split; [done|]. by apply Hw.
    + destruct (str_split (d :: s')) as [|w ws].
      * constructor; [|constructor]. split; [done|]. by apply Hw.
      * inversion IH as [|? ? [_ Hfw] Hws]; subst.
        constructor; [|exact Hws]. split; [done|]. by apply Hw.
Qed.

(** [split] finds a word in front of white space, or at the end. *)
Lemma str_split_word (w rest : text) :
  w <> [] -> forallb (fun c => negb (isspace c)) w = true ->
  match rest with [] => True | d :: _ => isspace d = true end ->
  str_split (w ++ rest) = w :: str_split rest.
Proof.
  intros Hne Hw Hrest. induction w as [|c w IH]; [done|].
  cbn [forallb] in Hw. apply andb_prop in Hw as [Hc Hw].
  apply negb_true_iff in Hc.
  destruct w as [|c' w'].
  - cbn [app str_split]. rewrite Hc. destruct rest as [|d rest']; [done|].
    by rewrite Hrest.
  - specialize (IH ltac:(done) Hw).
    cbn [forallb] in Hw. apply andb_prop in Hw as [Hc' _].
    apply negb_true_iff in Hc'.
    change ((c :: c' :: w') ++ rest) with (c :: (c' :: w') ++ rest).
    change (str_split (c :: (c' :: w') ++ rest))
      with (if isspace c then str_split ((c' :: w') ++ rest)
            else if isspace c' then [c] :: str_split ((c' :: w') ++ rest)
                 else match str_split ((c' :: w') ++ rest) with
                      | w :: ws => (c :: w) :: ws
                      | [] => [[c]]
                      end).
    by rewrite Hc, Hc', IH.
Qed.

Lemma str_split_join (ws : list text) :
  Forall (fun w => w <> [] /\ forallb (fun c => negb (isspace c)) w = true) ws ->
  str_split (str_join (tx " ") ws) = ws.
Proof.
  induction 1 as [|w ws [Hne Hw] Hws IH]; [done|].
  destruct ws as [|w' ws'].
  - cbn [str_join]. rewrite <- (app_nil_r w) at 1.
    by rewrite str_split_word.
  - change (str_join (tx " ") (w :: w' :: ws'))
      with (w ++ tx " " ++ str_join (tx " ") (w' :: ws')).
    rewrite str_split_word; [|done|done|done].
    change (tx " " ++ ?r) with (" "%char :: r).
    cbn [str_split]. change (isspace " ") with true. cbn iota.
    by rewrite IH.
Qed.

Lemma nfkd_char_ascii (c : ascii) : (code c < 128)%N -> nfkd_char c = [code c].
Proof.
  destruct c as [b0 b1 b2 b3 b4 b5 b6 b7]. destruct b7.
  - intros H. exfalso. revert H.
    destruct b0, b1, b2, b3, b4, b5, b6; vm_compute; done.
  - intros _. destruct b0, b1, b2, b3, b4, b5, b6; reflexivity.
Qed.

Lemma chr_code (c : ascii) : chr (code c) = c.
Proof. apply ascii_N_embedding. Qed.

Lemma key_char_fixed (c : ascii) :
  key_char c = true ->
  nfkd_char c = [code c] /\ lower_char c = c /\ ispunct c = false
  /\ isspace c = false /\ (code c < 128)%N.
Proof.
  unfold key_char. intros H.
  apply andb_prop in H as [H Hup]. apply andb_prop in H as [H Hp].
  apply andb_prop in H as [Ha Hs].
  apply N.ltb_lt in Ha. apply negb_true_iff in Hup, Hp, Hs.
  repeat split; try done.
  - by apply nfkd_char_ascii.
  - unfold lower_char. rewrite Hup.
    replace (in_range 192 222 c) with false; [done|].
    symmetry. unfold in_range. apply andb_false_iff. left. apply N.leb_gt. lia.
Qed.

Lemma space_fixed :
  nfkd_char " " = [code " "] /\ lower_char " " = " "%char /\ ispunct " " = false.
Proof. by vm_compute. Qed.

(** A text made of key characters and spaces goes through the first three
    steps of the normalizer unchanged. *)
Lemma key_text_fixed (s : text) :
  forallb (fun c => bool_decide (c = " "%char) || key_char c) s = true ->
  replace_punctuation (str_lower (encode_ascii_ignore (nfkd s))) = s.
Proof.
  intros H. rewrite replace_punctuation_to_space.
  induction s as [|c s IH]; [done|].
  cbn [forallb] in H. apply andb_prop in H as [Hc H]. specialize (IH H).
  assert (Hfix : nfkd_char c = [code c] /\ lower_char c = c /\ ispunct c = false
                 /\ (code c < 128)%N).
  { apply orb_prop in Hc as [->%bool_decide_eq_true_1|Hc].
    - destruct space_fixed as (? & ? & ?). repeat split; first [done | by vm_compute].
    - apply key_char_fixed in Hc. tauto. }
  destruct Hfix as (Hn & Hl & Hp & Ha).
  unfold nfkd in *. cbn [flat_map]. rewrite Hn. cbn [app].
  unfold encode_ascii_ignore in *. rewrite filter_cons.
  destruct (decide (code c < 128)%N); [|done].
  cbn [map]. rewrite chr_code. unfold str_lower, to_space in *.
  cbn [map]. rewrite Hl, Hp. by rewrite IH.
Qed.

Lemma str_join_chars (P : ascii -> bool) (ws : list text) :
  P " "%char = true ->
  Forall (fun w => forallb P w = true) ws ->
  forallb P (str_join (tx " ") ws) = true.
Proof.
  intros Hsp. induction 1 as [|w ws Hw Hws IH]; [done|].
  destruct ws as [|w' ws']; [done|].
  change (str_join (tx " ") (w :: w' :: ws'))
    with (w ++ " "%char :: str_join (tx " ") (w' :: ws')).
  rewrite forallb_app. cbn [forallb]. by rewrite Hw, Hsp, IH.
Qed.

(** After the first three steps the text has key characters and white
    space only. *)
Lemma before_split_chars (s : text) :
  forallb (fun c => isspace c || key_char c)
    (replace_punctuation (str_lower (encode_ascii_ignore (nfkd s)))) = true.
Proof.
  rewrite replace_punctuation_to_space.
  unfold encode_ascii_ignore. generalize (nfkd s). intros u.
  induction u as [|n u IH]; [done|].
  rewrite filter_cons. destruct (decide (n < 128)%N) as [Hn|]; [|exact IH].
  cbn [map str_lower to_space forallb]. unfold str_lower, to_space in IH.
  rewrite IH, andb_true_r. clear IH.
  assert (Hc : exists c, chr n = c /\ (code c < 128)%N).
  { exists (chr n). split; [done|]. rewrite code_chr_small; lia. }
  destruct Hc as (c & -> & Hc).
  destruct c as [b0 b1 b2 b3 b4 b5 b6 b7]. destruct b7.
  - exfalso. revert Hc. destruct b0, b1, b2, b3, b4, b5, b6; vm_compute; done.
  - clear. destruct b0, b1, b2, b3, b4, b5, b6; reflexivity.
Qed.

Lemma normalize_string_words (s : text) :
  exists ws : list text,
    normalize_string (PyStr s) = str_join (tx " ") ws
    /\ Forall (fun w => w <> []
                        /\ forallb (fun c => negb (isspace c) && key_char c) w = true)
         ws.
Proof.
  eexists. split; [reflexivity|]. apply str_split_words, before_split_chars.
Qed.

Lemma normalize_string_chars (s : text) :
  forallb (fun c => bool_decide (c = " "%char) || key_char c)
    (normalize_string (PyStr s)) = true.
Proof.
  destruct (normalize_string_words s) as (ws & -> & Hws).
  apply str_join_chars; [done|].
  eapply Forall_impl; [exact Hws|]. intros w [_ Hw].
  rewrite forallb_forall in Hw. apply forallb_forall. intros c Hc.
  apply Hw, andb_prop in Hc as [_ ->]. apply orb_true_r.
Qed.

(** X3.  A normalized key is made of words with one space between them;
    a word is not empty and has ASCII characters only, none of them white
    space, punctuation or a capital letter.  Normalizing a key again gives
    the same key, so a form field tagged with the normalized spelling of a
    column is bound to it. *)
Theorem normalize_string_settles (s : text) :
  (exists ws : list text,
      normalize_string (PyStr s) = str_join (tx " ") ws
      /\ Forall key_word ws)
  /\ normalize_string (PyStr (normalize_string (PyStr s)))
     = normalize_string (PyStr s).
Proof.
  pose proof (normalize_string_chars s) as Hchars.
  destruct (normalize_string_words s) as (ws & E & Hws).
  split.
  - exists ws. split; [done|].
    eapply Forall_impl; [exact Hws|]. intros w [Hne Hw]. split; [done|].
    rewrite forallb_forall in Hw. apply forallb_forall. intros c Hc.
    by apply Hw, andb_prop in Hc as [_ ?].
  - change (normalize_string (PyStr (normalize_string (PyStr s))))
      with (str_join (tx " ")
              (str_split (replace_punctuation
                            (str_lower (encode_ascii_ignore
                                          (nfkd (normalize_string (PyStr s)))))))).
    rewrite key_text_fixed by done. rewrite E.
    rewrite str_split_join; [done|].
    eapply Forall_impl; [exact Hws|]. intros w [Hne Hw]. split; [done|].
    rewrite forallb_forall in Hw. apply forallb_forall. intros c Hc.
    by apply Hw, andb_prop in Hc as [? _].
Qed.

(** X4.  A column whose label is a negative integer is never bound to a
    form field: its key keeps the minus sign ([str(label).lower()]), and
    the normalized tag of a field has no punctuation. *)
Theorem negative_label_unbound (data_row : row) (tag : text) (z : Z) :
  (z < 0)%Z -> resolve data_row tag <> Some (PyInt z).
Proof.
  intros Hz H. unfold resolve in H. rewrite normalized_keys_last_keys in H.
  apply last_Some in H as [l Hl].
  assert (Hin : PyInt z ∈ filter (fun key => normalize_string key
                                           = normalize_string (PyStr tag))
                           (row_index data_row)).
  { rewrite Hl. apply elem_of_app. right. by apply list_elem_of_singleton. }
  apply list_elem_of_filter in Hin as [Hn _].
  pose proof (normalize_string_chars tag) as Hchars. rewrite <- Hn in Hchars.
  destruct z as [|p|p]; [lia|lia|].
  discriminate Hchars.
Qed.

Lemma negative_label_unbound_witness :
  (-5 < 0)%Z /\ resolve [(PyInt (-5), tx "v")] (tx "-5") <> Some (PyInt (-5)).
Proof. split; [lia|]. apply negative_label_unbound. lia. Defined.

(** *** What the merge passes leave alone *)










(** *** Templates without markers *)

Lemma each_fixed {A : Type} (body : A -> outcome A) (l : list A) :
  Forall (fun x => body x = Returned x) l -> each body l = Returned l.
Proof.
  induction 1 as [|x l Hx _ IH]; [done|]. cbn [each]. by rewrite Hx, IH.
Qed.

Lemma Forall_of_concat {A : Type} (P : A -> Prop) (ls : list (list A)) :
  Forall P (concat ls) -> Forall (Forall P) ls.
Proof.
  induction ls as [|l ls IH]; [constructor|]. cbn [concat].
  intros [? ?]%Forall_app. constructor; [done|by apply IH].
Qed.

Lemma no_dollar_no_token (key : pyval) (run_text : text) :
  dollars run_text = 0 -> str_in (placeholder_of key) run_text = false.
Proof.
  intros H. destruct (str_in _ _) eqn:E; [|done].
  apply str_in_spec in E as (a & b & ->). exfalso. revert H.
  unfold dollars, placeholder_of. rewrite !filter_app, !length_app.
  change (tx "${") with ("$"%char :: tx "{"). rewrite filter_cons.
  destruct (decide _); [|done]. cbn [length app]. lia.
Qed.

(** X6.  A template that has no content control and no [$] in any run of
    its body comes out of the two merge passes as it went in, whatever the
    row: the output is the template saved again. *)
Theorem plain_template_unchanged (fuel : nat) (pad_year : bool) (data_row : row)
    (d : document) :
  findall (doc_element d) 0 (w "sdt") = [] ->
  Forall (fun run_text => dollars run_text = 0) (body_runs d) ->
  merge (S fuel) pad_year data_row d = Some d.
Proof.
  intros Hsdt Hruns. unfold merge; cbv zeta.
  unfold merge_form_fields. rewrite Hsdt. cbn [for_each caught mbind option_bind].
  assert (Hrun : forall r, dollars r = 0 ->
                           process_run (S fuel) pad_year data_row r = Returned r).
  { intros r Hr. apply process_run_untouched.
    apply Forall_forall. intros key _. by apply no_dollar_no_token. }
  apply Forall_app in Hruns as [Hps Hts].
  unfold merge_placeholders; cbv zeta.
  rewrite each_fixed.
  2: { apply Forall_of_concat in Hps. eapply Forall_impl; [exact Hps|].
       intros p Hp. apply each_fixed. eapply Forall_impl; [exact Hp|]. exact Hrun. }
  rewrite each_fixed.
  2: { do 4 apply Forall_of_concat in Hts.
       eapply Forall_impl; [exact Hts|]. intros t Ht. apply each_fixed.
       eapply Forall_impl; [exact Ht|]. intros r Hr. apply each_fixed.
       eapply Forall_impl; [exact Hr|]. intros c Hc. apply each_fixed.
       eapply Forall_impl; [exact Hc|]. intros p Hp. apply each_fixed.
       eapply Forall_impl; [exact Hp|]. exact Hrun. }
  cbn [caught mbind option_bind fst snd]. by destruct d.
Qed.

Lemma plain_template_unchanged_witness :
  merge 1 true mail_row (Document (body_of []) [[tx "Dear "; tx "Sir"]] [])
  = Some (Document (body_of []) [[tx "Dear "; tx "Sir"]] []).
Proof.
  apply (plain_template_unchanged 0).
  - reflexivity.
  - by repeat constructor.
Defined.

(** *** The iteration budget *)







(** ** Further properties: rclone, the local files and [main] *)

Import Remote RemoteNotions RemoteSamples.

(** *** [check_file_exists_on_sharepoint] *)

Lemma lstrip_nil (s : text) :
  lstrip isspace s = [] <-> forallb isspace s = true.
Proof.
  induction s as [|c s IH]; [done|]. cbn [lstrip forallb].
  destruct (isspace c); [exact IH|]. by split.
Qed.

Lemma rstrip_nil (s : text) :
  rstrip isspace s = [] <-> forallb isspace s = true.
Proof.
  unfold rstrip. induction s as [|c s IH]; [done|]. cbn [fold_right forallb].
  destruct (fold_right _ [] s) as [|d r].
  - destruct (isspace c); cbn [andb]; [|by split]. split; [|done].
    intros _. by apply IH.
  - split; [done|]. intros [_ H]%andb_prop. by apply IH in H.
Qed.

Lemma lstrip_suffix (s : text) : exists pre, s = pre ++ lstrip isspace s
                                             /\ forallb isspace pre = true.
Proof.
  induction s as [|c s (pre & E & Hpre)]; [by exists []|].
  cbn [lstrip]. destruct (isspace c) eqn:Ec.
  - exists (c :: pre). split; [by rewrite E at 1|]. cbn [forallb]. by rewrite Ec.
  - by exists [].
Qed.

Lemma trim_nil (s : text) : trim isspace s = [] <-> forallb isspace s = true.
Proof.
  unfold trim. rewrite rstrip_nil. destruct (lstrip_suffix s) as (pre & E & Hpre).
  split.
  - intros H. rewrite E, forallb_app, Hpre. exact H.
  - intros H. rewrite E, forallb_app in H. by apply andb_prop in H as [_ ?].
Qed.

Section CheckFacts.
Context {outside : Type} (RCLONE_PATH : text).
Context (subprocess_run :
           list text -> filesystem -> outside -> option completed * filesystem * outside).

(** X17.  [check_file_exists_on_sharepoint] answers [True] exactly when
    the listing ran, ended with code 0 and printed at least one character
    that is not white space.  A listing that fails, cannot be started or
    prints blank lines only is read as an absent file; the call itself
    never fails. *)
Theorem check_found_iff (remote_name remote_folder filename : text)
    (w : world_of outside) :
  let lsf := [RCLONE_PATH; tx "lsf";
              remote_name ++ tx ":" ++ remote_folder ++ tx "/" ++ filename] in
  fst (check_file_exists_on_sharepoint RCLONE_PATH subprocess_run remote_name
         remote_folder filename w) = true
  <-> exists listing c,
        fst (run subprocess_run lsf w) = Some listing
        /\ returncode listing = 0%Z
        /\ c ∈ stdout listing /\ isspace c = false.
Proof.
  cbv zeta. unfold check_file_exists_on_sharepoint; cbv zeta.
  destruct (run subprocess_run _ w) as [[listing|] w1]; cbn [fst].
  2: { split; [done|]. by intros (? & ? & ? & _). }
  assert (Hblank : trim isspace (stdout listing) <> []
                   <-> exists c, c ∈ stdout listing /\ isspace c = false).
  { rewrite trim_nil. split.
    - intros H. destruct (forallb isspace (stdout listing)) eqn:E; [done|].
      clear H. induction (stdout listing) as [|c s IH]; [done|].
      cbn [forallb] in E. destruct (isspace c) eqn:Ec.
      + destruct (IH E) as (c' & ? & ?). exists c'.
        split; [by apply list_elem_of_further|done].
      + exists c. split; [apply list_elem_of_here|done].
    - intros (c & Hin & Hc) H. rewrite forallb_forall in H.
      apply list_elem_of_In in Hin. rewrite (H c Hin) in Hc. done. }
  split.
  - intros [Hrc Hout]%andb_prop. apply bool_decide_eq_true_1 in Hrc, Hout.
    apply Hblank in Hout as (c & ? & ?). by exists listing, c.
  - intros (l & c & [= <-] & Hrc & Hc). apply andb_true_intro. split.
    + by apply bool_decide_eq_true_2.
    + apply bool_decide_eq_true_2, Hblank. by exists c.
Qed.

End CheckFacts.



Lemma within_refl (directory : path) (fs : filesystem) : within directory fs fs.
Proof. intros q. by left. Qed.

Lemma within_trans (directory : path) (fs1 fs2 fs3 : filesystem) :
  within directory fs1 fs2 -> within directory fs2 fs3 -> within directory fs1 fs3.
Proof.
  intros H12 H23 q. destruct (H23 q) as [E|[? E]]; [|by right].
  rewrite E. apply H12.
Qed.

Section RcloneFacts.
Context {outside : Type}.
Context (RCLONE_PATH : text) (path_str : path -> text) (Path : text -> path).
Context (subprocess_run :
           list text -> filesystem -> outside -> option completed * filesystem * outside).
Context (sleep : N -> outside -> outside).
Context (unlink : path -> filesystem -> outside -> option filesystem).
Context (rmtree : path -> filesystem -> outside -> filesystem).
Context (read_excel : filesystem -> path -> option dataframe).

Local Abbreviation world := (world_of outside).
Local Abbreviation run := (run subprocess_run).
Local Abbreviation check := (check_file_exists_on_sharepoint RCLONE_PATH subprocess_run).
Local Abbreviation delete :=
  (delete_file_from_sharepoint RCLONE_PATH subprocess_run sleep).
Local Abbreviation clean := (clean_directory sleep unlink rmtree).
Local Abbreviation upload :=
  (upload_file_to_sharepoint RCLONE_PATH path_str subprocess_run sleep unlink rmtree).
Local Abbreviation download :=
  (download_file_from_onedrive RCLONE_PATH path_str Path subprocess_run).

Lemma run_commands (args : list text) (w : world) :
  commands (snd (run args w)) = commands w ++ [args].
Proof.
  unfold Remote.run. by destruct (subprocess_run _ _ _) as [[? ?] ?].
Qed.

Lemma check_commands (remote_name remote_folder filename : text) (w : world) :
  commands (snd (check remote_name remote_folder filename w))
  = commands w
    ++ [[RCLONE_PATH; tx "lsf";
         remote_name ++ tx ":" ++ remote_folder ++ tx "/" ++ filename]].
Proof.
  unfold check_file_exists_on_sharepoint; cbv zeta.
  match goal with |- context [run ?a w] => pose proof (run_commands a w) as H end.
  by destruct (run _ w) as [[?|] ?].
Qed.

Lemma delete_commands (remote_name remote_folder filename : text) (w : world) :
  let remote_path := remote_name ++ tx ":" ++ remote_folder ++ tx "/" ++ filename in
  commands (snd (delete remote_name remote_folder filename w))
  = commands w ++ [[RCLONE_PATH; tx "lsf"; remote_path]]
  \/ commands (snd (delete remote_name remote_folder filename w))
     = commands w ++ [[RCLONE_PATH; tx "lsf"; remote_path];
                      [RCLONE_PATH; tx "deletefile"; remote_path]].
Proof.
  cbv zeta. unfold delete_file_from_sharepoint; cbv zeta.
  pose proof (check_commands remote_name remote_folder filename w) as Hc.
  destruct (check remote_name remote_folder filename w) as [found w1].
  cbn [snd] in Hc. destruct found; cbn [negb]; [|by left].
  right.
  match goal with |- context [run ?a w1] => pose proof (run_commands a w1) as H end.
  destruct (run _ w1) as [[result|] w2]; cbn [snd] in *.
  - destruct (bool_decide _); cbn [snd slept commands];
      by rewrite H, Hc, <- app_assoc.
  - by rewrite H, Hc, <- app_assoc.
Qed.

(** X8.  [delete_file_from_sharepoint] lists the file first and asks for
    the deletion only when the listing shows it.  When the listing shows
    nothing, whatever the reason (the file is not there, rclone fails or
    cannot be started), no deletion is asked for and the call reports
    success.  It reports a failure only when a deletion was asked for and
    did not succeed. *)
Theorem delete_asks_after_listing (remote_name remote_folder filename : text)
    (w : world) :
  let remote_path := remote_name ++ tx ":" ++ remote_folder ++ tx "/" ++ filename in
  let listing := check remote_name remote_folder filename w in
  let ended := delete remote_name remote_folder filename w in
  (fst listing = false -> ended = (true, snd listing))
  /\ commands (snd ended)
     = commands w ++ [[RCLONE_PATH; tx "lsf"; remote_path]]
       ++ (if fst listing then [[RCLONE_PATH; tx "deletefile"; remote_path]] else [])
  /\ (fst ended = false ->
      fst listing = true
      /\ forall result, fst (run [RCLONE_PATH; tx "deletefile"; remote_path]
                               (snd listing)) = Some result ->
                        returncode result <> 0%Z).
Proof.
  cbv zeta. unfold delete_file_from_sharepoint; cbv zeta.
  pose proof (check_commands remote_name remote_folder filename w) as Hc.
  destruct (check remote_name remote_folder filename w) as [found w1].
  cbn [fst snd] in *. destruct found; cbn [negb].
  - split; [done|].
    match goal with |- context [run ?a w1] => pose proof (run_commands a w1) as H end.
    destruct (run _ w1) as [[result|] w2]; cbn [fst snd] in *.
    + destruct (bool_decide (returncode result = 0%Z)) eqn:E; cbn [fst snd].
      * split; [cbn [slept commands]; by rewrite H, Hc, <- app_assoc|done].
      * split; [by rewrite H, Hc, <- app_assoc|]. intros _. split; [done|].
        intros ? [= <-]. by apply bool_decide_eq_false_1 in E.
    + split; [by rewrite H, Hc, <- app_assoc|]. intros _. by split.
  - split; [done|]. cbn [fst snd]. split; [by rewrite Hc, app_nil_r|done].
Qed.

Lemma unlink_files_commands (items : list path) (w : world) :
  commands (unlink_files unlink items w) = commands w.
Proof.
  unfold unlink_files. revert w. induction items as [|item items IH]; intros w; [done|].
  cbn [foldl]. rewrite IH. destruct (is_file _ _); [|done].
  by destruct (unlink _ _ _).
Qed.

Lemma attempts_result (left : nat) (directory : path) (w : world) :
  (left = 0 -> path_exists (files w) directory = true) ->
  fst (attempts sleep unlink rmtree left directory w)
  = negb (path_exists (files (snd (attempts sleep unlink rmtree left directory w)))
            directory)
  /\ commands (snd (attempts sleep unlink rmtree left directory w)) = commands w.
Proof.
  revert w. induction left as [|left IH]; intros w H0.
  - cbn [attempts fst snd]. by rewrite H0.
  - clear H0. cbn [attempts]. cbv zeta.
    destruct (path_exists (files (slept sleep 1 w)) directory) eqn:E1; cbn [negb].
    2: { cbn [fst snd]. by rewrite E1. }
    match goal with
    | |- context [path_exists (files (with_files ?fs ?w1)) directory] =>
        destruct (path_exists (files (with_files fs w1)) directory) eqn:E2;
        set (w2 := with_files fs w1) in *
    end; cbn [negb].
    + destruct (IH w2) as [Hr Hc]; [done|]. split; [done|].
      rewrite Hc. unfold w2. cbn [with_files commands].
      by rewrite unlink_files_commands.
    + cbn [fst snd]. rewrite E2. split; [done|].
      unfold w2. cbn [with_files commands]. by rewrite unlink_files_commands.
Qed.

(** X9.  [clean_directory] answers [True] exactly when the directory is
    gone when it returns, after at most three rounds of removal; it runs no
    command. *)
Theorem clean_directory_tells_gone (directory : path) (w : world) :
  fst (clean directory w)
  = negb (path_exists (files (snd (clean directory w))) directory)
  /\ commands (snd (clean directory w)) = commands w.
Proof. unfold clean_directory. by apply attempts_result. Qed.

Lemma unlink_files_within (items : list path) (directory : path) (w : world) :
  unlink_removes unlink ->
  Forall (fun item => below directory item = true) items ->
  within directory (files w) (files (unlink_files unlink items w)).
Proof.
  intros Hun Hitems. revert w. unfold unlink_files.
  induction Hitems as [|item items Hitem _ IH]; intros w; [apply within_refl|].
  cbn [foldl]. eapply within_trans; [|apply IH].
  destruct (is_file _ _); [|apply within_refl].
  destruct (unlink _ _ _) as [fs|] eqn:E; [|apply within_refl].
  apply Hun in E as ->. cbn [with_files files]. intros q.
  destruct (decide (q = item)) as [->|Hne].
  - right. split; [by right|]. apply lookup_delete_eq.
  - left. by apply lookup_delete_ne.
Qed.

Lemma glob_below (fs : filesystem) (directory : path) :
  Forall (fun item => below directory item = true) (glob fs directory).
Proof.
  unfold glob. destruct (is_dir fs directory); [|constructor].
  apply Forall_forall. by intros item [? _]%list_elem_of_filter.
Qed.

(** X10.  Where removing a file removes that file and [rmtree] removes
    nothing outside the directory it is given, [clean_directory] leaves
    every file and directory outside [directory] as it was and creates
    nothing. *)
Theorem clean_directory_stays_inside (directory : path) (w : world) :
  unlink_removes unlink -> rmtree_inside rmtree ->
  within directory (files w) (files (snd (clean directory w))).
Proof.
  intros Hun Hrm. unfold clean_directory. generalize 3. intros left. revert w.
  induction left as [|left IH]; intros w; [apply within_refl|].
  cbn [attempts]. cbv zeta.
  destruct (negb (path_exists (files (slept sleep 1 w)) directory));
    [apply within_refl|].
  match goal with
  | |- context [with_files ?fs ?w1] =>
      assert (Hw : within directory (files w) (files (with_files fs w1)));
      [|destruct (negb (path_exists (files (with_files fs w1)) directory));
        [exact Hw|eapply within_trans; [exact Hw|apply IH]]]
  end.
  cbn [with_files files]. eapply within_trans; [|apply Hrm].
  apply (unlink_files_within _ directory (slept sleep 1 w) Hun), glob_below.
Qed.

Ltac in_list :=
  repeat first [apply list_elem_of_here | apply list_elem_of_further].

Lemma send_spec (copy_file : path) (remote_path remote_file : text) (w : world) :
  let copy := [RCLONE_PATH; tx "copy"; path_str copy_file; remote_path ++ tx "/";
               tx "--ignore-checksum"; tx "--ignore-size"] in
  let copyto := [RCLONE_PATH; tx "copyto"; path_str copy_file; remote_file;
                 tx "--ignore-checksum"; tx "--ignore-size"] in
  let sent := send RCLONE_PATH path_str subprocess_run copy_file remote_path
                remote_file w in
  (commands (snd sent) = commands w ++ [copy]
   \/ commands (snd sent) = commands w ++ [copy; copyto])
  /\ (fst sent = Some true ->
      exists args wa result,
        (args = copy \/ args = copyto)
        /\ run args wa = (Some result, snd sent)
        /\ returncode result = 0%Z).
Proof.
  cbv zeta. unfold send; cbv zeta.
  match goal with |- context [run ?a w] => pose proof (run_commands a w) as H1 end.
  destruct (run _ w) as [[result|] w1] eqn:E1; cbn [fst snd] in *; [|by split; [left|]].
  destruct (bool_decide (returncode result = 0%Z)) eqn:Hrc; cbn [fst snd].
  - split; [by left|]. intros _. eexists _, w, result.
    split; [by left|]. split; [exact E1|]. by apply bool_decide_eq_true_1 in Hrc.
  - match goal with |- context [run ?a w1] => pose proof (run_commands a w1) as H2 end.
    destruct (run _ w1) as [[result_retry|] w2] eqn:E2; cbn [fst snd] in *.
    + split; [right; by rewrite H2, H1, <- app_assoc|].
      intros [= Hrc2]. eexists _, w1, result_retry.
      split; [by right|]. split; [exact E2|]. by apply bool_decide_eq_true_1 in Hrc2.
    + split; [right; by rewrite H2, H1, <- app_assoc|done].
Qed.

(** X11.  [upload_file_to_sharepoint] answers [True] only for a local file
    that exists, after a [copy] or [copyto] command that ended with code 0,
    and after a listing of the remote file, made one second later as the
    last command of the call, has shown it. *)
Theorem upload_true_is_verified (env : environment) (local_file_path : path)
    (remote_name remote_folder : text) (overwrite : bool) (w w' : world) :
  upload env local_file_path remote_name remote_folder overwrite w = (true, w') ->
  path_exists (files w) local_file_path = true
  /\ exists args wa result wb w2,
       args !! 1 ∈ [Some (tx "copy"); Some (tx "copyto")]
       /\ run args wa = (Some result, wb)
       /\ returncode result = 0%Z
       /\ check remote_name remote_folder (path_name local_file_path) (slept sleep 1 wb)
          = (true, w2)
       /\ commands w' = commands w2.
Proof.
  unfold upload_file_to_sharepoint; cbv zeta.
  destruct (path_exists (files w) local_file_path) eqn:Hex; [|done]. cbn [negb].
  match goal with
  | |- context [create_temp_directory env (files ?w1)] => generalize w1
  end.
  intros w1.
  destruct (create_temp_directory env (files w1)) as [[fs temp_dir]|]; [|done].
  destruct (copy2 _ _ _) as [fs'|]; [|done].
  match goal with
  | |- context [send _ _ _ ?cf ?rp ?rf ?w0] =>
      pose proof (send_spec cf rp rf w0) as [_ Hsend];
      destruct (send RCLONE_PATH path_str subprocess_run cf rp rf w0)
        as [[success|] w3]; [|done]
  end.
  cbn [fst snd] in Hsend. destruct success.
  2: { by destruct (clean _ _). }
  destruct Hsend as (args & wa & result & Hargs & Hrun & Hrc); [done|].
  destruct (check _ _ _ (slept sleep 1 w3)) as [found w4] eqn:Hcheck.
  pose proof (attempts_result 3 temp_dir w4 ltac:(done)) as [_ Hclean].
  fold (clean temp_dir w4) in Hclean.
  destruct (clean temp_dir w4) as [? w5]. cbn [snd] in Hclean.
  intros [= -> <-]. split; [done|].
  exists args, wa, result, w3, w4. repeat split; try done.
  destruct Hargs as [-> | ->]; cbn; in_list.
Qed.


Lemma mkdir_is_dir (fs fs' : filesystem) (p : path) :
  mkdir fs p = Some fs' -> is_dir fs' p = true.
Proof.
  unfold mkdir. destruct (is_dir fs p) eqn:E; [by intros [= <-]|].
  destruct (path_exists fs p); [done|].
  destruct (is_dir fs (parent p)); [|done]. intros [= <-].
  destruct p as [|c p]; [done|]. unfold is_dir. by rewrite lookup_insert_eq.
Qed.

Lemma mkdir_parents_is_dir (fs fs' : filesystem) (p : path) :
  mkdir_parents fs p = Some fs' -> is_dir fs' p = true.
Proof.
  destruct p as [|c p _] using rev_ind; [done|].
  unfold mkdir_parents. rewrite length_app. cbn [length].
  replace (length p + 1) with (S (length p)) by lia.
  rewrite seq_S, foldl_app. cbn [foldl].
  destruct (foldl _ _ _) as [fs1|]; [|done]. cbn [mbind option_bind].
  replace (1 + length p) with (length (p ++ [c]))
    by (rewrite length_app; cbn [length]; lia).
  rewrite firstn_all. apply mkdir_is_dir.
Qed.

(** X13.  [download_file_from_onedrive] returns a path only when one
    [copy] command of rclone, run with the target directory in place, ended
    with code 0 and a file of the remote file's name is in that directory
    afterwards; it runs no other command. *)
Theorem download_returns_existing (env : environment)
    (remote_name remote_file_path : text) (local_dir : option path)
    (w w' : world) (p : path) :
  download env remote_name remote_file_path local_dir w = (Some p, w') ->
  let directory :=
    default (tmp_dir env ++ [tx "sharepoint_op_" ++ uuid env]) local_dir in
  let args :=
    [RCLONE_PATH; tx "copy"; remote_name ++ tx ":" ++ remote_file_path;
     path_str directory; tx "--drive-chunk-size"; tx "64M"] in
  p = child directory (path_name (Path remote_file_path))
  /\ path_exists (files w') p = true
  /\ commands w' = commands w ++ [args]
  /\ exists wa result,
       is_dir (files wa) directory = true
       /\ run args wa = (Some result, w')
       /\ returncode result = 0%Z.
Proof.
  unfold download_file_from_onedrive; cbv zeta.
  assert (Hstart : exists w0,
             commands w0 = commands w
             /\ (match local_dir with
                | Some local_dir => Some (w, local_dir)
                | None =>
                    '(fs, temp_dir) ← create_temp_directory env (files w);
                    Some (with_files fs w, temp_dir)
                end
                = Some (w0, default (tmp_dir env ++ [tx "sharepoint_op_" ++ uuid env])
                              local_dir)
                \/ match local_dir with
                   | Some local_dir => Some (w, local_dir)
                   | None =>
                       '(fs, temp_dir) ← create_temp_directory env (files w);
                       Some (with_files fs w, temp_dir)
                   end = None)).
  { destruct local_dir as [d|]; [exists w; split; [done|by left]|].
    unfold create_temp_directory. cbn [mbind option_bind].
    destruct (mkdir (files w) _) as [fs|]; cbn [mbind option_bind default].
    - exists (with_files fs w). split; [done|by left].
    - exists w. split; [done|by right]. }
  destruct Hstart as (w0 & Hc0 & [-> | ->]); [|done].
  set (directory := default (tmp_dir env ++ [tx "sharepoint_op_" ++ uuid env]) local_dir).
  destruct (mkdir_parents (files w0) directory) as [fs|] eqn:Hmk; [|done].
  apply mkdir_parents_is_dir in Hmk.
  match goal with
  | |- context [run ?a ?w1] =>
      pose proof (run_commands a w1) as Hrun;
      destruct (run a w1) as [[result|] w2] eqn:Erun; [|done]
  end.
  cbn [snd with_files commands] in Hrun.
  destruct (bool_decide (returncode result = 0%Z)) eqn:Hrc; [|done]. cbn [negb].
  destruct (path_exists (files w2) _) eqn:Hex; [|done].
  intros [= <- <-]. split; [done|]. split; [done|]. split; [by rewrite Hrun, Hc0|].
  eexists _, result. split; [|split; [exact Erun|by apply bool_decide_eq_true_1 in Hrc]].
  done.
Qed.

(** *** Deletions are guarded *)

Lemma guarded_nil : guarded [].
Proof. intros k ? ? H. by rewrite lookup_nil in H. Qed.

Lemma guarded_app (a b : list (list text)) :
  guarded a -> guarded b -> guarded (a ++ b).
Proof.
  intros Ha Hb k r t H.
  destruct (decide (k < length a)) as [Hlt|Hge].
  - rewrite lookup_app_l in H by done.
    destruct (Ha k r t H) as (k' & -> & H'). exists k'. split; [done|].
    rewrite lookup_app_l by lia. done.
  - rewrite lookup_app_r in H by lia.
    destruct (Hb _ r t H) as (k' & Hk & H'). exists (length a + k').
    split; [lia|]. rewrite lookup_app_r by lia.
    by replace (length a + k' - length a) with k' by lia.
Qed.

Lemma guarded_other (args : list text) :
  args !! 1 <> Some (tx "deletefile") -> guarded [args].
Proof.
  intros Hv k r t H. destruct k as [|k]; [|by rewrite lookup_cons, lookup_nil in H].
  cbn in H. injection H as ->. by destruct Hv.
Qed.

Lemma guarded_pair (r t : text) :
  guarded [[r; tx "lsf"; t]; [r; tx "deletefile"; t]].
Proof.
  intros k r' t' H. destruct k as [|[|k]]; [done| |done].
  cbn in H. injection H as <- <-. by exists 0.
Qed.

Lemma follows_refl (w : world) : follows w w.
Proof. exists []. split; [by rewrite app_nil_r|apply guarded_nil]. Qed.

Lemma follows_trans (w1 w2 w3 : world) :
  follows w1 w2 -> follows w2 w3 -> follows w1 w3.
Proof.
  intros (a & Ha & Hga) (b & Hb & Hgb). exists (a ++ b).
  split; [by rewrite Hb, Ha, <- app_assoc|by apply guarded_app].
Qed.

Lemma follows_same (w w' : world) : commands w' = commands w -> follows w w'.
Proof. intros H. exists []. split; [by rewrite app_nil_r|apply guarded_nil]. Qed.

Lemma check_follows (remote_name remote_folder filename : text) (w : world) :
  follows w (snd (check remote_name remote_folder filename w)).
Proof.
  eexists. split; [apply check_commands|]. by apply guarded_other.
Qed.

Lemma delete_follows (remote_name remote_folder filename : text) (w : world) :
  follows w (snd (delete remote_name remote_folder filename w)).
Proof.
  destruct (delete_commands remote_name remote_folder filename w) as [H|H];
    eexists; (split; [exact H|]); [by apply guarded_other|apply guarded_pair].
Qed.

Lemma send_follows (copy_file : path) (remote_path remote_file : text) (w : world) :
  follows w (snd (send RCLONE_PATH path_str subprocess_run copy_file remote_path
                    remote_file w)).
Proof.
  destruct (send_spec copy_file remote_path remote_file w) as [[H|H] _];
    eexists; (split; [exact H|]).
  - by apply guarded_other.
  - apply (guarded_app [_] [_]); by apply guarded_other.
Qed.

Lemma clean_follows (directory : path) (w : world) :
  follows w (snd (clean directory w)).
Proof. apply follows_same. by apply attempts_result. Qed.

Lemma upload_follows (env : environment) (local_file_path : path)
    (remote_name remote_folder : text) (overwrite : bool) (w : world) :
  follows w (snd (upload env local_file_path remote_name remote_folder overwrite w)).
Proof.
  unfold upload_file_to_sharepoint; cbv zeta.
  destruct (negb _); [apply follows_refl|].
  match goal with
  | |- context [create_temp_directory env (files ?x)] =>
      assert (H1 : follows w x); [|generalize dependent x; intros w1 H1]
  end.
  { destruct overwrite; [|apply follows_refl].
    pose proof (check_follows remote_name remote_folder (path_name local_file_path) w)
      as Hc.
    destruct (check _ _ _ w) as [found wc]. cbn [snd] in Hc.
    destruct found; [|done].
    eapply follows_trans; [exact Hc|apply delete_follows]. }
  destruct (create_temp_directory env (files w1)) as [[fs temp_dir]|]; [|done].
  destruct (copy2 _ _ _) as [fs'|]; [|done].
  match goal with
  | |- context [send _ _ _ ?cf ?rp ?rf ?w0] =>
      pose proof (send_follows cf rp rf w0) as Hs;
      destruct (send RCLONE_PATH path_str subprocess_run cf rp rf w0)
        as [success w3]
  end.
  cbn [snd] in Hs.
  assert (H3 : follows w w3).
  { eapply follows_trans; [exact H1|]. destruct Hs as (new & Hn & Hg).
    by exists new. }
  destruct success as [success|]; [|done].
  match goal with
  | |- context [clean ?td] =>
      assert (Hclean : forall wx, follows wx (snd (clean td wx)))
        by (intros; apply clean_follows)
  end.
  destruct success.
  - pose proof (check_follows remote_name remote_folder (path_name local_file_path)
                  (slept sleep 1 w3)) as Hc.
    destruct (check _ _ _ (slept sleep 1 w3)) as [found w4]. cbn [snd] in Hc.
    match goal with
    | |- context [clean ?td w4] =>
        specialize (Hclean w4); destruct (clean td w4) as [? w5]
    end.
    cbn [snd] in *. eapply follows_trans; [exact H3|].
    eapply follows_trans; [|exact Hclean].
    destruct Hc as (new & Hn & Hg). by exists new.
  - match goal with
    | |- context [clean ?td w3] =>
        specialize (Hclean w3); destruct (clean td w3) as [? w5]
    end.
    cbn [snd] in *. by eapply follows_trans.
Qed.

Lemma download_follows (env : environment) (remote_name remote_file_path : text)
    (local_dir : option path) (w : world) :
  follows w (snd (download env remote_name remote_file_path local_dir w)).
Proof.
  unfold download_file_from_onedrive; cbv zeta.
  match goal with
  | |- context [match ?start with Some _ => _ | None => (None, w) end] =>
      assert (Hstart : forall w0 d, start = Some (w0, d) -> commands w0 = commands w);
      [|destruct start as [[w0 d]|]; [specialize (Hstart w0 d eq_refl)|apply follows_refl]]
  end.
  { intros w0 d. destruct local_dir; [by intros [= <- _]|].
    destruct (create_temp_directory _ _) as [[? ?]|]; [|done].
    cbn [mbind option_bind]. by intros [= <- _]. }
  destruct (mkdir_parents _ _) as [fs|]; [|by apply follows_same].
  match goal with
  | |- context [run ?a ?w1] =>
      pose proof (run_commands a w1) as Hrun; destruct (run a w1) as [result w2]
  end.
  cbn [snd with_files commands] in Hrun.
  assert (follows w w2).
  { eexists. split; [rewrite Hrun, Hstart; reflexivity|].
    by apply guarded_other. }
  destruct result as [result|]; [|done].
  destruct (negb _); [done|]. by destruct (path_exists _ _).
Qed.

Lemma for_rows_follows (fuel : nat) (pad_year : bool) (envs : nat -> environment)
    (local_dir local_model_path : path) (rows : list (nat * row)) (w w' : world) :
  for_rows RCLONE_PATH path_str Path subprocess_run sleep unlink rmtree fuel pad_year
    envs local_dir local_model_path rows w = Some w' ->
  follows w w'.
Proof.
  revert w. induction rows as [|[index data_row] rows IH]; intros w.
  - intros [= <-]. apply follows_refl.
  - cbn [for_rows]. cbv zeta.
    match goal with
    | |- context [check ?a ?b ?c w] =>
        pose proof (check_follows a b c w) as Hc; destruct (check a b c w) as [found w1]
    end.
    cbn [snd] in Hc. destruct found.
    { intros H. eapply follows_trans; [exact Hc|by apply IH]. }
    destruct (create_word_from_template _ _ _ _ _ _ _) as [fs [result_path|]|]; [| |done].
    + match goal with
      | |- context [upload ?e ?p ?a ?b ?o ?x] =>
          pose proof (upload_follows e p a b o x) as Hu;
          destruct (upload e p a b o x) as [? w2]
      end.
      cbn [snd] in Hu. intros H. eapply follows_trans; [exact Hc|].
      eapply follows_trans; [|by apply IH].
      destruct Hu as (new & Hn & Hg). by exists new.
    + intros H. eapply follows_trans; [exact Hc|].
      eapply follows_trans; [|by apply IH]. by apply follows_same.
Qed.

Local Abbreviation main :=
  (main RCLONE_PATH path_str Path subprocess_run sleep unlink rmtree read_excel).
Local Abbreviation for_rows :=
  (for_rows RCLONE_PATH path_str Path subprocess_run sleep unlink rmtree).

(** X14.  Whatever rclone answers, every deletion [main] asks of it comes
    right after a listing of the same remote file: [main] never deletes a
    file it has not just looked for. *)
Theorem main_deletes_after_listing (fuel : nat) (pad_year : bool)
    (envs : nat -> environment) (w : world) :
  match main fuel pad_year envs w with
  | Returns _ w' | Escapes w' =>
      exists new, commands w' = commands w ++ new /\ guarded new
  | Loops => True
  end.
Proof.
  unfold Remote.main; cbv zeta.
  destruct (mkdir (files w) (Path local_tmp_dir)) as [fs|]; [|apply follows_refl].
  match goal with
  | |- context [clean ?d ?x] =>
      pose proof (clean_follows d x) as H1; destruct (clean d x) as [? w1]
  end.
  cbn [snd] in H1. apply (follows_trans w) in H1; [|by apply follows_same].
  match goal with
  | |- context [download ?e ?a ?b ?c w1] =>
      pose proof (download_follows e a b c w1) as H2;
      destruct (download e a b c w1) as [excel_file w2]
  end.
  cbn [snd] in H2. apply (follows_trans w) in H2; [|exact H1].
  destruct excel_file as [excel_file|]; [|exact H2].
  match goal with
  | |- context [download ?e ?a ?b ?c w2] =>
      pose proof (download_follows e a b c w2) as H3;
      destruct (download e a b c w2) as [local_model_path w3]
  end.
  cbn [snd] in H3. apply (follows_trans w) in H3; [|exact H2].
  destruct local_model_path as [local_model_path|]; [|exact H3].
  destruct (read_excel (files w3) excel_file) as [df|]; [|exact H3].
  destruct (df_empty df); [exact H3|].
  destruct (for_rows _ _ _ _ _ _ w3) as [w4|] eqn:E; [|done].
  apply for_rows_follows in E. by eapply follows_trans.
Qed.

(** X15.  [main] goes through the lines of the sheet only when both
    downloads gave a file and the sheet read from the first has a line; it
    then answers [True], whatever became of the lines.  It answers [False]
    after at most the two download commands, and an exception leaves it
    only from the creation of the local directory, with nothing done. *)
Theorem main_needs_both_files (fuel : nat) (pad_year : bool)
    (envs : nat -> environment) (w : world) :
  let local_dir := Path local_tmp_dir in
  let get (remote_name remote_file_path : text) :=
    [RCLONE_PATH; tx "copy"; remote_name ++ tx ":" ++ remote_file_path;
     path_str local_dir; tx "--drive-chunk-size"; tx "64M"] in
  let get_excel := get remote_exel_name remote_exel_file_path in
  let get_model := get remote_word_name remote_word_model in
  match main fuel pad_year envs w with
  | Escapes w' => w' = w /\ mkdir (files w) local_dir = None
  | Returns false w' =>
      commands w' = commands w
      \/ commands w' = commands w ++ [get_excel]
      \/ commands w' = commands w ++ [get_excel; get_model]
  | Returns true w' =>
      exists w3 df,
        commands w3 = commands w ++ [get_excel; get_model]
        /\ read_excel (files w3)
             (child local_dir (path_name (Path remote_exel_file_path))) = Some df
        /\ df_empty df = false
        /\ path_exists (files w3)
             (child local_dir (path_name (Path remote_word_model))) = true
        /\ for_rows fuel pad_year envs local_dir
             (child local_dir (path_name (Path remote_word_model)))
             (iterrows df) w3 = Some w'
  | Loops => True
  end.
Proof.
  cbv zeta. unfold Remote.main; cbv zeta.
  destruct (mkdir (files w) (Path local_tmp_dir)) as [fs|]; [|done].
  match goal with
  | |- context [clean ?d ?x] =>
      pose proof (attempts_result 3 d x ltac:(done)) as [_ H1];
      fold (clean d x) in H1; destruct (clean d x) as [? w1]
  end.
  cbn [snd with_files commands] in H1.
  assert (Hdl : forall rn rp wx,
             match download (envs 0) rn rp (Some (Path local_tmp_dir)) wx with
             | (Some p, wy) =>
                 p = child (Path local_tmp_dir) (path_name (Path rp))
                 /\ path_exists (files wy) p = true
                 /\ commands wy
                    = commands wx
                      ++ [[RCLONE_PATH; tx "copy"; rn ++ tx ":" ++ rp;
                           path_str (Path local_tmp_dir); tx "--drive-chunk-size";
                           tx "64M"]]
             | (None, wy) =>
                 commands wy = commands wx
                 \/ commands wy
                    = commands wx
                      ++ [[RCLONE_PATH; tx "copy"; rn ++ tx ":" ++ rp;
                           path_str (Path local_tmp_dir); tx "--drive-chunk-size";
                           tx "64M"]]
             end).
  { intros rn rp wx. unfold download_file_from_onedrive; cbv zeta.
    destruct (mkdir_parents _ _) as [fs'|]; [|by left].
    match goal with
    | |- context [run ?c ?x] =>
        pose proof (run_commands c x) as Hrun; destruct (run c x) as [[result|] wy]
    end; cbn [snd with_files commands] in Hrun; [|by right].
    destruct (negb _); [by right|].
    destruct (path_exists _ _) eqn:Hex; [done|by right]. }
  pose proof (Hdl remote_exel_name remote_exel_file_path w1) as H2.
  destruct (download _ _ _ _ w1) as [[excel_file|] w2].
  2: { destruct H2 as [H2|H2]; rewrite H2, H1; [by left|by right; left]. }
  destruct H2 as (-> & _ & H2).
  pose proof (Hdl remote_word_name remote_word_model w2) as H3.
  destruct (download _ _ _ _ w2) as [[local_model_path|] w3].
  2: { destruct H3 as [H3|H3]; rewrite H3, H2, H1, <- ?app_assoc;
         [by right; left|by right; right]. }
  destruct H3 as (-> & Hmodel & H3).
  assert (Hc3 : commands w3
                = commands w
                  ++ [[RCLONE_PATH; tx "copy";
                       remote_exel_name ++ tx ":" ++ remote_exel_file_path;
                       path_str (Path local_tmp_dir); tx "--drive-chunk-size"; tx "64M"];
                      [RCLONE_PATH; tx "copy";
                       remote_word_name ++ tx ":" ++ remote_word_model;
                       path_str (Path local_tmp_dir); tx "--drive-chunk-size"; tx "64M"]])
    by (by rewrite H3, H2, H1, <- app_assoc).
  destruct (read_excel (files w3) _) as [df|] eqn:Hread; [|by right; right].
  destruct (df_empty df) eqn:Hempty; [by right; right|].
  destruct (for_rows _ _ _ _ _ _ w3) as [w4|] eqn:E; [|done].
  by exists w3, df.
Qed.

(** X16.  When the listing shows the document of every line, and listing
    changes nothing, the loop over the lines generates and sends nothing:
    it runs one listing per line and leaves the local files and the remote
    as they were.  No template is filled, so this holds with any budget of
    iterations. *)
Theorem rows_all_present (fuel : nat) (pad_year : bool) (envs : nat -> environment)
    (local_dir local_model_path : path) (rows : list (nat * row)) (w : world) :
  let lsf (line : nat * row) :=
    [RCLONE_PATH; tx "lsf";
     remote_word_name ++ tx ":" ++ remote_word_folder ++ tx "/"
     ++ Pipeline.word_filename (timestamp (envs (fst line)))
          (PyInt (Z.of_nat (fst line))) (snd line)] in
  (forall line, line ∈ rows ->
     exists listing,
       subprocess_run (lsf line) (files w) (out w) = (Some listing, files w, out w)
       /\ returncode listing = 0%Z
       /\ trim isspace (stdout listing) <> []) ->
  exists w',
    for_rows fuel pad_year envs local_dir local_model_path rows w = Some w'
    /\ files w' = files w /\ out w' = out w
    /\ commands w' = commands w ++ map lsf rows.
Proof.
  cbv zeta. revert w. induction rows as [|[index data_row] rows IH]; intros w H.
  - exists w. by rewrite app_nil_r.
  - cbn [Remote.for_rows]. cbv zeta.
    destruct (H (index, data_row)) as (listing & Hrun & Hrc & Hout);
      [apply list_elem_of_here|].
    cbn [fst snd] in Hrun.
    unfold check_file_exists_on_sharepoint, Remote.run; cbv zeta.
    rewrite Hrun. rewrite bool_decide_eq_true_2 by done.
    rewrite bool_decide_eq_true_2 by done. cbn [andb].
    match goal with
    | |- context [for_rows _ _ _ _ _ rows ?x] => destruct (IH x) as (w' & E & Hf & Ho & Hc)
    end.
    { intros line Hline. cbn [files out]. apply H. by apply list_elem_of_further. }
    exists w'. split; [exact E|]. cbn [files out commands] in *.
    repeat split; try done. rewrite Hc. cbn [map fst snd]. by rewrite <- app_assoc.
Qed.

End RcloneFacts.

(** *** The properties on the sample machine *)

Lemma remove_removes : unlink_removes remove.
Proof. intros item fs o fs'. unfold remove. by intros [= <-]. Qed.

Lemma remove_tree_inside : rmtree_inside remove_tree.
Proof.
  intros directory fs o q. unfold remove_tree.
  destruct (decide (q = directory \/ below directory q = true)) as [Hin|Hout].
  - right. split; [done|]. apply map_lookup_filter_None. right.
    intros f _ Hf. by apply Hf.
  - left. destruct (fs !! q) as [f|] eqn:E.
    + by apply map_lookup_filter_Some.
    + apply map_lookup_filter_None. by left.
Qed.

Lemma clean_directory_stays_inside_witness :
  within [tx "temp"] local_files
    (files (snd (clean_directory no_wait remove remove_tree [tx "temp"]
                   (machine local_files sources)))).
Proof.
  apply (clean_directory_stays_inside no_wait remove remove_tree).
  - exact remove_removes.
  - exact remove_tree_inside.
Defined.

Lemma upload_true_is_verified_witness :
  fst (upload_file_to_sharepoint rclone_path str_of_path rclone no_wait remove
         remove_tree (env_at 7) [tx "temp"; tx "diagnostic_mairie_de_pau.docx"]
         remote_word_name remote_word_folder true (machine local_files sources))
  = true
  /\ path_exists local_files [tx "temp"; tx "diagnostic_mairie_de_pau.docx"] = true.
Proof.
  match goal with
  | |- ?A /\ _ => assert (H : A) by (vm_compute; reflexivity)
  end.
  split; [exact H|].
  refine (proj1 (upload_true_is_verified rclone_path str_of_path rclone no_wait remove
                   remove_tree (env_at 7) _ remote_word_name remote_word_folder true
                   (machine local_files sources) _ _)).
  etransitivity; [apply surjective_pairing|]. by f_equal.
Defined.

Lemma download_returns_existing_witness :
  fst (download_file_from_onedrive rclone_path str_of_path components rclone (env_at 7)
         remote_exel_name remote_exel_file_path (Some [tx "temp"])
         (machine local_files sources))
  = Some [tx "temp"; tx "diagnostic_maturite.xlsx"]
  /\ path_exists
       (files (snd (download_file_from_onedrive rclone_path str_of_path components
                      rclone (env_at 7) remote_exel_name remote_exel_file_path
                      (Some [tx "temp"]) (machine local_files sources))))
       [tx "temp"; tx "diagnostic_maturite.xlsx"] = true.
Proof.
  match goal with
  | |- ?A /\ _ => assert (H : A) by (vm_compute; reflexivity)
  end.
  split; [exact H|].
  refine (proj1 (proj2 (download_returns_existing rclone_path str_of_path components
                          rclone (env_at 7) remote_exel_name remote_exel_file_path
                          (Some [tx "temp"]) (machine local_files sources) _ _ _))).
  etransitivity; [apply surjective_pairing|]. by f_equal.
Defined.

Lemma rows_all_present_witness :
  exists w' : world_of remotes,
    for_rows rclone_path str_of_path components rclone no_wait remove remove_tree
      0 true (fun _ => env_at 7) [tx "temp"] template_path (iterrows sheet)
      (machine local_files served) = Some w'
    /\ files w' = local_files /\ out w' = served.
Proof.
  destruct (rows_all_present rclone_path str_of_path components rclone no_wait remove
              remove_tree 0 true (fun _ => env_at 7) [tx "temp"] template_path
              (iterrows sheet) (machine local_files served))
    as (w' & E & Hf & Ho & _).
  - intros line Hline. vm_compute in Hline.
    apply list_elem_of_singleton in Hline as ->.
    match goal with
    | |- exists _, rclone ?c _ _ = _ /\ _ =>
        let c' := eval vm_compute in c in change c with c'
    end.
    unfold rclone. rewrite decide_True by reflexivity.
    cbn [machine files out].
    match goal with
    | |- context [served !! ?t] =>
        destruct (served !! t) eqn:Hl; [|vm_compute in Hl; discriminate Hl]
    end.
    eexists. split; [reflexivity|]. split; [reflexivity|by vm_compute].
  - by exists w'.
Defined.

(** *** When nothing is deleted *)

Section QuietFacts.
Context {outside : Type}.
Context (RCLONE_PATH : text) (path_str : path -> text) (Path : text -> path).
Context (subprocess_run :
           list text -> filesystem -> outside -> option completed * filesystem * outside).
Context (sleep : N -> outside -> outside).
Context (unlink : path -> filesystem -> outside -> option filesystem).
Context (rmtree : path -> filesystem -> outside -> filesystem).

Local Abbreviation world := (world_of outside).
Local Abbreviation check := (check_file_exists_on_sharepoint RCLONE_PATH subprocess_run).
Local Abbreviation clean := (clean_directory sleep unlink rmtree).
Local Abbreviation upload :=
  (upload_file_to_sharepoint RCLONE_PATH path_str subprocess_run sleep unlink rmtree).
Local Abbreviation for_rows :=
  (for_rows RCLONE_PATH path_str Path subprocess_run sleep unlink rmtree).

Lemma calm_refl (w : world) : calm w w.
Proof. exists []. split; [by rewrite app_nil_r|constructor]. Qed.

Lemma calm_trans (w1 w2 w3 : world) : calm w1 w2 -> calm w2 w3 -> calm w1 w3.
Proof.
  intros (a & Ha & Hqa) (b & Hb & Hqb). exists (a ++ b).
  split; [by rewrite Hb, Ha, <- app_assoc|by apply Forall_app].
Qed.

Lemma calm_same (w w' : world) : commands w' = commands w -> calm w w'.
Proof. intros H. exists []. split; [by rewrite app_nil_r|constructor]. Qed.

Lemma check_calm (remote_name remote_folder filename : text) (w : world) :
  calm w (snd (check remote_name remote_folder filename w)).
Proof.
  eexists. split; [apply check_commands|]. by repeat constructor.
Qed.

Lemma check_stable (answer : outside -> text -> option completed)
    (remote_name remote_folder filename : text) (w : world) :
  listing_stable RCLONE_PATH subprocess_run answer ->
  files (snd (check remote_name remote_folder filename w)) = files w
  /\ out (snd (check remote_name remote_folder filename w)) = out w
  /\ fst (check remote_name remote_folder filename w)
     = match answer (out w)
               (remote_name ++ tx ":" ++ remote_folder ++ tx "/" ++ filename) with
       | Some listing =>
           bool_decide (returncode listing = 0%Z)
           && bool_decide (trim isspace (stdout listing) <> [])
       | None => false
       end.
Proof.
  intros H. unfold check_file_exists_on_sharepoint, run; cbv zeta. rewrite H.
  by destruct (answer _ _).
Qed.

Lemma upload_calm (env : environment) (local_file_path : path)
    (remote_name remote_folder : text) (overwrite : bool) (w : world) :
  fst (check remote_name remote_folder (path_name local_file_path) w) = false ->
  calm w (snd (upload env local_file_path remote_name remote_folder overwrite w)).
Proof.
  intros Habsent. unfold upload_file_to_sharepoint; cbv zeta.
  destruct (negb _); [apply calm_refl|].
  match goal with
  | |- context [create_temp_directory env (files ?x)] =>
      assert (H1 : calm w x); [|generalize dependent x; intros w1 H1]
  end.
  { destruct overwrite; [|apply calm_refl].
    pose proof (check_calm remote_name remote_folder (path_name local_file_path) w)
      as Hc.
    destruct (check _ _ _ w) as [found wc]. cbn [fst snd] in *. by subst found. }
  destruct (create_temp_directory env (files w1)) as [[fs temp_dir]|]; [|done].
  destruct (copy2 _ _ _) as [fs'|]; [|done].
  match goal with
  | |- context [send _ _ _ ?cf ?rp ?rf ?w0] =>
      pose proof (send_spec RCLONE_PATH path_str subprocess_run cf rp rf w0)
        as [Hs _];
      destruct (send RCLONE_PATH path_str subprocess_run cf rp rf w0)
        as [success w3]
  end.
  cbn [snd with_files commands] in Hs.
  assert (H3 : calm w w3).
  { eapply calm_trans; [exact H1|].
    destruct Hs as [Hs|Hs]; eexists; (split; [exact Hs|]); by repeat constructor. }
  destruct success as [success|]; [|done].
  match goal with
  | |- context [clean ?td] =>
      assert (Hclean : forall wx, calm wx (snd (clean td wx)))
        by (intros; apply calm_same; by apply attempts_result)
  end.
  destruct success.
  - pose proof (check_calm remote_name remote_folder (path_name local_file_path)
                  (slept sleep 1 w3)) as Hc.
    destruct (check _ _ _ (slept sleep 1 w3)) as [found w4]. cbn [snd] in Hc.
    match goal with
    | |- context [clean ?td w4] =>
        specialize (Hclean w4); destruct (clean td w4) as [? w5]
    end.
    cbn [snd] in *. eapply calm_trans; [exact H3|].
    eapply calm_trans; [|exact Hclean].
    destruct Hc as (new & Hn & Hq). by exists new.
  - match goal with
    | |- context [clean ?td w3] =>
        specialize (Hclean w3); destruct (clean td w3) as [? w5]
    end.
    cbn [snd] in *. by eapply calm_trans.
Qed.

(** X18.  Where listing is a function of the remote state alone, and the
    document name of every line is the name of the path it is written to
    (one component), the loop over the lines never asks for a deletion:
    the upload lists the file [main] has just found absent, finds it
    absent again, and overwrites nothing. *)
Theorem rows_never_delete (answer : outside -> text -> option completed)
    (fuel : nat) (pad_year : bool) (envs : nat -> environment)
    (local_dir local_model_path : path) (rows : list (nat * row)) (w w' : world) :
  listing_stable RCLONE_PATH subprocess_run answer ->
  (forall line, line ∈ rows ->
     let name := Pipeline.word_filename (timestamp (envs (fst line)))
                   (PyInt (Z.of_nat (fst line))) (snd line) in
     path_name (local_dir ++ Path name) = name) ->
  for_rows fuel pad_year envs local_dir local_model_path rows w = Some w' ->
  exists new, commands w' = commands w ++ new /\ quiet new.
Proof.
  intros Hstable Hnames. revert w.
  induction rows as [|[index data_row] rows IH]; intros w.
  - intros [= <-]. apply calm_refl.
  - specialize (IH (fun line Hline => Hnames line (list_elem_of_further _ _ _ Hline))).
    pose proof (Hnames (index, data_row) (list_elem_of_here _ _)) as Hname.
    cbn [fst snd] in Hname. cbv zeta in Hname.
    cbn [Remote.for_rows]. cbv zeta.
    match goal with
    | |- context [check ?a ?b ?c w] =>
        pose proof (check_calm a b c w) as Hc;
        pose proof (check_stable answer a b c w Hstable) as (Hf & Ho & Hv);
        destruct (check a b c w) as [found w1] eqn:Hcheck
    end.
    cbn [fst snd] in *. destruct found.
    { intros H. eapply calm_trans; [exact Hc|by apply IH]. }
    destruct (create_word_from_template _ _ _ _ _ _ _) as [fs [result_path|]|] eqn:Hfill;
      [| |done].
    + apply create_word_returns in Hfill as (_ & _ & _ & _ & _ & _ & _ & _ & Hout).
      rewrite (Hout _ eq_refl).
      match goal with
      | |- context [upload ?e ?p ?a ?b ?o ?x] =>
          pose proof (upload_calm e p a b o x) as Hu
      end.
      rewrite Hname in Hu.
      match type of Hu with
      | fst (check ?a ?b ?c ?x) = false -> _ =>
          pose proof (check_stable answer a b c x Hstable) as (_ & _ & Hv')
      end.
      cbn [with_files out] in Hv'. rewrite Ho, <- Hv in Hv'. specialize (Hu Hv').
      destruct (upload _ _ _ _ _ _) as [? w2]. cbn [snd] in Hu.
      intros H. eapply calm_trans; [exact Hc|].
      eapply calm_trans; [|by apply IH].
      destruct Hu as (new & Hn & Hq). by exists new.
    + intros H. eapply calm_trans; [exact Hc|].
      eapply calm_trans; [|by apply IH]. by apply calm_same.
Qed.

End QuietFacts.

Lemma rclone_listing_stable :
  listing_stable rclone_path rclone
    (fun o target =>
       match o !! target with
       | Some _ => Some (Completed 0 (remote_name_of target ++ [chr 10]) [])
       | None => Some ok
       end).
Proof.
  intros target fs o. unfold rclone. rewrite decide_True by done.
  by destruct (o !! target).
Qed.

Lemma rows_never_delete_witness :
  match for_rows rclone_path str_of_path components rclone no_wait remove remove_tree
          5 true (fun _ => env_at 7) [tx "temp"] template_path (iterrows sheet)
          (machine (<[[tx "tmp"] := Directory]> (disk letter)) sources) with
  | Some w' => quiet (commands w')
  | None => False
  end.
Proof.
  assert (H : is_Some (for_rows rclone_path str_of_path components rclone no_wait
                         remove remove_tree 5 true (fun _ => env_at 7) [tx "temp"]
                         template_path (iterrows sheet)
                         (machine (<[[tx "tmp"] := Directory]> (disk letter)) sources))).
  { apply (bool_decide_unpack _). by vm_compute. }
  destruct (for_rows _ _ _ _ _ _ _ _ _ _ _ _ _ _) as [w'|] eqn:E;
    [|by apply is_Some_None in H].
  eapply rows_never_delete in E as (new & Hnew & Hq).
  - by rewrite Hnew.
  - exact rclone_listing_stable.
  - intros line Hline. vm_compute in Hline.
    apply list_elem_of_singleton in Hline as ->. by vm_compute.
Defined.
